(** * jsonstream: a shallow embedding of [jsonstream.py]

    The module decodes a run of JSON documents, separated by whitespace or
    by a fixed literal separator, either from a string held in memory
    ([loads], [decode_stacked]) or from a file-like object read a bounded
    number of characters at a time ([load], [DecodeStream]).

    Python values used by the module are embedded as follows.
    - [str] is a list of Unicode code points ([N]); [len], slicing,
      [startswith] and indexing are list operations.
    - [int] is [Z]; buffer positions, which the module only ever obtains from
      [len], from the decoder and from the separator policies, are [nat].
    - [float('inf')], the default of [max_bufsize], is [None].
    - An exception is a value of [exn]; a call that may raise returns [res].
    - A generator is a state together with its [next] function; [list(gen)]
      is [consume].
    - [while True] loops whose exit depends on the source carry a loop
      budget; [NoFuel] is the budget running out and is no Python outcome.

    What the module imports from outside the repository (the Unicode
    character tables behind [str.isdigit] and the regular expression class
    [\S], the [json] decoder, the file-like object) is an interface here,
    with the CPython behaviour supplied as an instance further down. *)

From Stdlib Require Import String Ascii Decimal DecimalString.
From Stdlib Require Import ZArith NArith Lia Bool List.
Import ListNotations.

Set Implicit Arguments.
Set Warnings "-register-all".

(** ** Text *)

Definition str := list N.

(** A string literal of the source. *)
Definition lit (s : string) : str := map N_of_ascii (list_ascii_of_string s).

(** A one-character literal. *)
Definition ch (a : ascii) : N := N_of_ascii a.

Fixpoint str_eqb (a b : str) : bool :=
  match a, b with
  | [], [] => true
  | x :: a', y :: b' => N.eqb x y && str_eqb a' b'
  | _, _ => false
  end.

(** [is_prefix p s]: [s] begins with [p]. *)
Fixpoint is_prefix (p s : str) : bool :=
  match p, s with
  | [], _ => true
  | x :: p', y :: s' => N.eqb x y && is_prefix p' s'
  | _ :: _, [] => false
  end.

(** [s.startswith(prefix, start)] for [start >= 0].  CPython answers
    [False] when [start] lies beyond the end, also for the empty prefix. *)
Definition startswith (s prefix : str) (start : nat) : bool :=
  (start <=? length s) && is_prefix prefix (skipn start s).

(** [s[i]] with Python's reading of a negative index; [None] is
    [IndexError]. *)
Definition getitem (s : str) (i : Z) : option N :=
  let n := Z.of_nat (length s) in
  let j := if (i <? 0)%Z then (i + n)%Z else i in
  if ((0 <=? j) && (j <? n))%Z then nth_error s (Z.to_nat j) else None.

Definition between (lo hi c : N) : bool := (lo <=? c)%N && (c <=? hi)%N.

(** [bytes.decode('utf8')] on the values of the bytes: strict UTF-8 (no
    overlong forms, no surrogates, nothing above U+10FFFF); [None] is
    [UnicodeDecodeError]. *)
Fixpoint utf8 (b : list N) : option str :=
  let cont (x : N) := between 128 191 x in
  let low (x : N) := (x mod 64)%N in
  let push (c : N) (r : option str) :=
    match r with Some s => Some (c :: s) | None => None end in
  match b with
  | [] => Some []
  | b0 :: r0 =>
      if (b0 <? 128)%N then push b0 (utf8 r0)
      else if between 194 223 b0 then
        match r0 with
        | b1 :: r1 =>
            if cont b1 then push ((b0 mod 32) * 64 + low b1)%N (utf8 r1) else None
        | _ => None
        end
      else if between 224 239 b0 then
        match r0 with
        | b1 :: b2 :: r2 =>
            if between (if N.eqb b0 224 then 160 else 128)
                       (if N.eqb b0 237 then 159 else 191) b1 && cont b2
            then push ((b0 mod 16) * 4096 + low b1 * 64 + low b2)%N (utf8 r2)
            else None
        | _ => None
        end
      else if between 240 244 b0 then
        match r0 with
        | b1 :: b2 :: b3 :: r3 =>
            if between (if N.eqb b0 240 then 144 else 128)
                       (if N.eqb b0 244 then 143 else 191) b1 && cont b2 && cont b3
            then push ((b0 mod 8) * 262144 + low b1 * 4096 + low b2 * 64 + low b3)%N
                      (utf8 r3)
            else None
        | _ => None
        end
      else None
  end.

(** [str(n)] for an integer. *)
Definition str_of_Z (z : Z) : str := lit (NilZero.string_of_int (Z.to_int z)).

(** The Unicode character database as far as the module consults it:
    [str.isdigit] on one character, and the characters the regular
    expression class [\s] matches in a [str] pattern. *)
Class UnicodeDB := {
  isdigit : N -> bool;
  isspace : N -> bool
}.

(** ** Exceptions *)

(** [json.JSONDecodeError]: [ex.msg], [ex.doc], [ex.pos], the formatted
    message [ex.args[0]], and the attribute [stream_offset] that
    [_update_error] adds. *)
Record JSONDecodeError := {
  ex_msg : str;
  ex_doc : str;
  ex_pos : nat;
  ex_args0 : str;
  ex_stream_offset : option Z
}.

(** The three [ValueError]s the module raises itself:
    [f'Expected {separator!r} delimiter'], ['max buffer size exceeded'] and
    ['expect positive value for bufsize']. *)
Inductive value_error :=
| Expected_delimiter (separator : str)
| max_buffer_size_exceeded
| expect_positive_value_for_bufsize.

Inductive exn :=
| DecodeError (ex : JSONDecodeError)
| ValueError (what : value_error)
| TypeError (message : str)
| UnicodeDecodeError
| RecursionError.

Inductive res (A : Type) :=
| Return (a : A)
| Raise (e : exn)
| NoFuel.

Arguments Return {A} a.
Arguments Raise {A} e.
Arguments NoFuel {A}.

(** [JSONDecodeError.__init__(msg, doc, pos)]: the line and column are
    counted from the newlines before [pos]. *)
Definition count_newlines (s : str) : nat :=
  length (filter (N.eqb 10) s).

Fixpoint rfind_newline (s : str) (i : nat) (last : Z) : Z :=
  match s with
  | [] => last
  | c :: s' => rfind_newline s' (S i) (if N.eqb c 10 then Z.of_nat i else last)
  end.

Definition errmsg (msg doc : str) (pos : nat) : str :=
  let before := firstn pos doc in
  let lineno := Z.of_nat (count_newlines before + 1) in
  let colno := (Z.of_nat pos - rfind_newline before 0 (-1))%Z in
  msg ++ lit ": line " ++ str_of_Z lineno ++ lit " column " ++ str_of_Z colno
      ++ lit " (char " ++ str_of_Z (Z.of_nat pos) ++ lit ")".

Definition new_JSONDecodeError (msg doc : str) (pos : nat) : JSONDecodeError :=
  {| ex_msg := msg; ex_doc := doc; ex_pos := pos;
     ex_args0 := errmsg msg doc pos; ex_stream_offset := None |}.

(** ** Module constants *)

Definition KEYWORDS : list str :=
  [lit "null"; lit "true"; lit "false"; lit "NaN"; lit "Infinity"; lit "-Infinity"].

Definition MAX_KEYWORD_LEN : nat :=
  fold_right Nat.max 0 (map (@length N) KEYWORDS).

(** ** Separator policies *)

(** [ValueError(f'Expected {separator!r} delimiter')] unless the separator
    is found at [pos] or [pos] is the end of the document. *)
Definition next_position_by_separator (separator document : str) (pos : nat)
  : res (option nat) :=
  if startswith document separator pos then Return (Some (pos + length separator))
  else if pos =? length document then Return None
  else Raise (ValueError (Expected_delimiter separator)).

(** [NOT_WHITESPACE.search(document, pos)] followed by [match.start()]:
    [s] is the text from index [i] on. *)
Fixpoint search_not_whitespace `{UnicodeDB} (s : str) (i : nat) : option nat :=
  match s with
  | [] => None
  | c :: s' => if isspace c then search_not_whitespace s' (S i) else Some i
  end.

Definition next_position_by_non_whitespace `{UnicodeDB} (document : str) (pos : nat)
  : option nat :=
  search_not_whitespace (skipn pos document) pos.

(** The type of [next_pos]: either policy, once [partial] has fixed the
    separator. *)
Definition next_pos_func := str -> nat -> res (option nat).

Definition get_first_pos_and_next_pos_func `{UnicodeDB} (separator : option str)
  : next_pos_func * option nat :=
  match separator with
  | None => (fun document pos => Return (next_position_by_non_whitespace document pos), None)
  | Some sep => (next_position_by_separator sep, Some 0)
  end.

(** ** The retry classifier *)

(** [re.match(error_message_pattern, msg)] as a truth value: the pattern
    is an alternation of three literal texts and of
    [Expecting '[,:]' delimiter], whose bracket is a character class. *)
Definition re_match_error_message_pattern (m : str) : bool :=
  is_prefix (lit "Unterminated string starting at") m
  || is_prefix (lit "Expecting value") m
  || is_prefix (lit "Expecting property name enclosed in double quotes") m
  || is_prefix (lit "Expecting ',' delimiter") m
  || is_prefix (lit "Expecting ':' delimiter") m.

Definition char_is (o : option N) (p : N -> bool) : bool :=
  match o with Some c => p c | None => false end.

Definition _match_error `{UnicodeDB} (ex : JSONDecodeError) : bool :=
  let matched := re_match_error_message_pattern (ex_msg ex) in
  let len_doc := Z.of_nat (length (ex_doc ex)) in
  let p := Z.of_nat (ex_pos ex) in
  if matched && startswith (ex_msg ex) (lit "Expecting") 0 then
    (p =? len_doc)%Z
    || ((p =? len_doc - 1)%Z
        && char_is (getitem (ex_doc ex) p) (N.eqb (ch "."))
        && char_is (getitem (ex_doc ex) (p - 1)) isdigit)
    || (startswith (ex_msg ex) (lit "Expecting value") 0
        && (len_doc - p <? Z.of_nat MAX_KEYWORD_LEN)%Z
        && existsb (fun kw => startswith kw (skipn (ex_pos ex) (ex_doc ex)) 0) KEYWORDS)
  else matched.

(** ** Interfaces of the collaborators *)

(** [decoder.raw_decode(document, pos)]: the decoded value and the index
    just after it, or an exception ([JSONDecodeError] for a document the
    decoder rejects). *)
Record JSONDecoder (value : Type) := {
  raw_decode : str -> nat -> res (value * nat)
}.

(** Runtime types of decoded values, as far as [isinstance] and the
    [parse_int] / [parse_float] hooks need them. *)
Class PyObject (value : Type) := {
  pytype : Type;
  type_ : value -> pytype;
  isinstance : value -> pytype -> bool;
  int_ : pytype;
  float_ : pytype
}.

(** A file-like object with an [encoding]: [fp.read(n)] gives the text read
    and the object after the read. *)
Class TextIO (file : Type) := {
  read : file -> Z -> str * file
}.

(** ** Generators *)

Inductive step (value state : Type) :=
| Yield (obj : value) (resume : state)
| StopIteration
| Throw (e : exn)
| Starved.

Arguments Yield {value state} obj resume.
Arguments StopIteration {value state}.
Arguments Throw {value state} e.
Arguments Starved {value state}.

(** How an iteration ends. *)
Inductive ending :=
| Exhausted
| Raised (e : exn)
| OutOfFuel.

(** [list(gen)], keeping what was yielded before an exception. *)
Fixpoint consume {value state : Type} (next : state -> step value state)
  (rounds : nat) (g : state) : list value * ending :=
  match rounds with
  | O => ([], OutOfFuel)
  | S rounds' =>
      match next g with
      | Yield obj g' =>
          let (objs, e) := consume next rounds' g' in (obj :: objs, e)
      | StopIteration => ([], Exhausted)
      | Throw e => ([], Raised e)
      | Starved => ([], OutOfFuel)
      end
  end.

(** ** Decoding a string held in memory *)

(** Where the generator [decode_stacked] stands: not started, suspended at
    its [yield] with the position after the value, or finished. *)
Inductive stacked_state :=
| stacked_start (pos : option nat)
| stacked_yielded (pos : nat)
| stacked_finished.

Section Stacked.
Context {value : Type}.
Variable document : str.
Variable decoder : JSONDecoder value.
Variable next_pos : next_pos_func.

(** One turn of the [while True] loop, up to the [yield]. *)
Definition decode_stacked_turn (pos : nat) : step value stacked_state :=
  match raw_decode decoder document pos with
  | Return (obj, pos') => Yield obj (stacked_yielded pos')
  | Raise e => Throw e
  | NoFuel => Starved
  end.

Definition decode_stacked_next (g : stacked_state) : step value stacked_state :=
  match g with
  | stacked_start pos =>
      match document with
      | [] => StopIteration
      | _ :: _ =>
          match pos with
          | None =>
              match next_pos document 0 with
              | Return None => StopIteration
              | Return (Some p) => decode_stacked_turn p
              | Raise e => Throw e
              | NoFuel => Starved
              end
          | Some p => decode_stacked_turn p
          end
      end
  | stacked_yielded pos =>
      match next_pos document pos with
      | Return None => StopIteration
      | Return (Some p) => decode_stacked_turn p
      | Raise e => Throw e
      | NoFuel => Starved
      end
  | stacked_finished => StopIteration
  end.

End Stacked.

(** [decode_stacked(document, decoder, next_pos, pos)] builds the generator
    without running it. *)
Definition decode_stacked (document : str) {value : Type}
  (decoder : JSONDecoder value) (next_pos : next_pos_func) (pos : option nat)
  : stacked_state := stacked_start pos.

(** The argument [s] of [loads]: a [str], [bytes], a [bytearray], or an
    object of some other class. *)
Inductive loads_arg :=
| a_str (s : str)
| a_bytes (b : list Byte.byte)
| a_bytearray (b : list Byte.byte)
| a_other (class_name : str).

Definition BOM : N := 65279.

(** [loads(s, separator=separator)] with the default [cls] and no hooks:
    the checks on [s] run at the call; what is returned on success is the
    text to decode and the generator over it. *)
Definition loads `{UnicodeDB} {value : Type} (decoder : JSONDecoder value)
  (s : loads_arg) (separator : option str) : res (str * next_pos_func * stacked_state) :=
  let go (s : str) :=
    let (next_pos, pos) := get_first_pos_and_next_pos_func separator in
    Return (s, next_pos, decode_stacked s decoder next_pos pos) in
  match s with
  | a_str s =>
      if startswith s [BOM] 0 then
        Raise (DecodeError
                 (new_JSONDecodeError (lit "Unexpected UTF-8 BOM (decode using utf-8-sig)") s 0))
      else go s
  | a_bytes b | a_bytearray b =>
      match utf8 (map Byte.to_N b) with
      | Some s => go s
      | None => Raise UnicodeDecodeError
      end
  | a_other class_name =>
      Raise (TypeError (lit "the JSON object must be str, bytes or bytearray, not "
                          ++ class_name))
  end.

(** [list(loads(s, separator=separator))]. *)
Definition list_loads `{UnicodeDB} {value : Type} (decoder : JSONDecoder value)
  (rounds : nat) (s : loads_arg) (separator : option str) : list value * ending :=
  match loads decoder s separator with
  | Return (document, next_pos, g) =>
      consume (decode_stacked_next document decoder next_pos) rounds g
  | Raise e => ([], Raised e)
  | NoFuel => ([], OutOfFuel)
  end.

(** ** Decoding a stream *)

(** Where the generator [_decode_stream_generator] stands: not started,
    suspended at its [yield], or finished. *)
Inductive stream_pc :=
| pc_start
| pc_yielded
| pc_finished.

Section Stream.
Context `{UnicodeDB} {value : Type} `{PyObject value} {file : Type} `{TextIO file}.

Record DecodeStream := {
  stream : file;
  decoder : JSONDecoder value;
  next_pos_helper : next_pos_func;
  bufsize : Z;
  max_bufsize : option Z;
  pos : option nat;
  partial_doc : str;
  stream_offset : Z;
  number_types : pytype * pytype
}.

(** [self.pos] where the source reads it as a position.  It is [None]
    only between [__init__] and the first [next]: the generator assigns it
    before its first use, and is only ever suspended with it set (lemma
    [yielded_state_has_a_position]). *)
Definition cursor (self : DecodeStream) : nat :=
  match pos self with Some p => p | None => 0 end.

(** [self.pos = new_pos]. *)
Definition set_pos (self : DecodeStream) (new_pos : nat) : DecodeStream :=
  {| stream := stream self; decoder := decoder self;
     next_pos_helper := next_pos_helper self; bufsize := bufsize self;
     max_bufsize := max_bufsize self; pos := Some new_pos;
     partial_doc := partial_doc self; stream_offset := stream_offset self;
     number_types := number_types self |}.

(** [DecodeStream.__init__]: the hooks, when given, are applied to ['0']
    to learn the types of the numbers they build. *)
Definition __init__ (stream : file) (decoder : JSONDecoder value)
  (next_pos : next_pos_func) (pos : option nat)
  (parse_int parse_float : option (str -> value))
  (bufsize : Z) (max_bufsize : option Z) (stream_offset : Z) : res DecodeStream :=
  let int_type :=
    match parse_int with None => int_ | Some f => type_ (f (lit "0")) end in
  let float_type :=
    match parse_float with None => float_ | Some f => type_ (f (lit "0")) end in
  let self :=
    {| stream := stream; decoder := decoder; next_pos_helper := next_pos;
       bufsize := bufsize; max_bufsize := max_bufsize; pos := pos;
       partial_doc := []; stream_offset := stream_offset;
       number_types := (int_type, float_type) |} in
  if (bufsize <? 1)%Z then Raise (ValueError expect_positive_value_for_bufsize)
  else Return self.

(** The size of the next read, or the fatal error when the tail already
    fills the bound. *)
Definition to_read (self : DecodeStream) (remaining_buffer : str) : res Z :=
  let len_rem := Z.of_nat (length remaining_buffer) in
  match max_bufsize self with
  | Some bound =>
      if (len_rem + bufsize self >? bound)%Z then
        let n := (bound - len_rem)%Z in
        if (n <=? 0)%Z then Raise (ValueError max_buffer_size_exceeded)
        else Return n
      else Return (bufsize self)
  | None => Return (bufsize self)
  end.

Definition _try_read (self : DecodeStream) (remaining_buffer : str)
  : res (bool * DecodeStream) :=
  match to_read self remaining_buffer with
  | Return n =>
      let (new, stream') := read (stream self) n in
      Return
        (match new with [] => false | _ :: _ => true end,
         {| stream := stream'; decoder := decoder self;
            next_pos_helper := next_pos_helper self; bufsize := bufsize self;
            max_bufsize := max_bufsize self; pos := Some 0;
            partial_doc := remaining_buffer ++ new;
            stream_offset :=
              (stream_offset self + (Z.of_nat (length (partial_doc self))
                                     - Z.of_nat (length remaining_buffer)))%Z;
            number_types := number_types self |})
  | Raise e => Raise e
  | NoFuel => NoFuel
  end.

(** The method [next_pos]: [true] with [self.pos] at the start of the next
    document, [false] when the stream is empty. *)
Fixpoint next_pos (fuel : nat) (self : DecodeStream) : res (bool * DecodeStream) :=
  match fuel with
  | O => NoFuel
  | S fuel' =>
      match next_pos_helper self (partial_doc self) (cursor self) with
      | Return None =>
          match _try_read self [] with
          | Return (true, self') => next_pos fuel' self'
          | Return (false, self') => Return (false, self')
          | Raise e => Raise e
          | NoFuel => NoFuel
          end
      | Return (Some new_pos) => Return (true, set_pos self new_pos)
      | Raise e => Raise e
      | NoFuel => NoFuel
      end
  end.

Definition _update_error (self : DecodeStream) (ex : JSONDecodeError)
  : JSONDecodeError :=
  {| ex_msg := ex_msg ex; ex_doc := ex_doc ex; ex_pos := ex_pos ex;
     ex_args0 := ex_args0 ex ++ lit " (stream offset "
                   ++ str_of_Z (stream_offset self) ++ lit ")";
     ex_stream_offset := Some (stream_offset self) |}.

(** [isinstance(obj, self.number_types)]. *)
Definition is_number (self : DecodeStream) (obj : value) : bool :=
  isinstance obj (fst (number_types self)) || isinstance obj (snd (number_types self)).

(** The [while True] loop of the generator, from its top to the next
    [yield], exception or return. *)
Fixpoint decode_loop (fuel : nat) (self : DecodeStream)
  : step value (stream_pc * DecodeStream) :=
  match fuel with
  | O => Starved
  | S fuel' =>
      match raw_decode (decoder self) (partial_doc self) (cursor self) with
      | Raise (DecodeError ex) =>
          if _match_error ex then
            match _try_read self (skipn (cursor self) (partial_doc self)) with
            | Return (true, self') => decode_loop fuel' self'
            | Return (false, self') => Throw (DecodeError (_update_error self' ex))
            | Raise e => Throw e
            | NoFuel => Starved
            end
          else Throw (DecodeError (_update_error self ex))
      | Raise e => Throw e
      | NoFuel => Starved
      | Return (obj, new_pos) =>
          if (Z.of_nat new_pos >=? Z.of_nat (length (partial_doc self)) - 1)%Z
             && is_number self obj
          then
            match _try_read self (skipn (cursor self) (partial_doc self)) with
            | Return (true, self') => decode_loop fuel' self'
            | Return (false, self') => Yield obj (pc_yielded, set_pos self' new_pos)
            | Raise e => Throw e
            | NoFuel => Starved
            end
          else Yield obj (pc_yielded, set_pos self new_pos)
      end
  end.

(** Entering the loop after a call that says whether there is data. *)
Definition enter_loop (fuel : nat) (found : res (bool * DecodeStream))
  : step value (stream_pc * DecodeStream) :=
  match found with
  | Return (true, self') => decode_loop fuel self'
  | Return (false, _) => StopIteration
  | Raise e => Throw e
  | NoFuel => Starved
  end.

(** [next(gen)] for the generator [_decode_stream_generator]. *)
Definition _decode_stream_generator (fuel : nat) (g : stream_pc * DecodeStream)
  : step value (stream_pc * DecodeStream) :=
  let (pc, self) := g in
  match pc with
  | pc_start =>
      match pos self with
      | None => enter_loop fuel (next_pos fuel (set_pos self 0))
      | Some _ => enter_loop fuel (_try_read self (partial_doc self))
      end
  | pc_yielded => enter_loop fuel (next_pos fuel self)
  | pc_finished => StopIteration
  end.

(** [load(fp, parse_int=..., parse_float=..., separator=..., bufsize=...,
    max_bufsize=..., stream_offset=...)] for an [fp] that has an
    [encoding]; [decoder] is the decoder that [cls] builds from [kw]. *)
Definition load (fp : file) (decoder : JSONDecoder value)
  (parse_int parse_float : option (str -> value)) (separator : option str)
  (bufsize : Z) (max_bufsize : option Z) (stream_offset : Z)
  : res (stream_pc * DecodeStream) :=
  let (next_pos, pos) := get_first_pos_and_next_pos_func separator in
  match __init__ fp decoder next_pos pos parse_int parse_float
                 bufsize max_bufsize stream_offset with
  | Return self => Return (pc_start, self)
  | Raise e => Raise e
  | NoFuel => NoFuel
  end.

(** [list(load(fp, ...))]. *)
Definition list_load (fuel : nat) (fp : file) (decoder : JSONDecoder value)
  (parse_int parse_float : option (str -> value)) (separator : option str)
  (bufsize : Z) (max_bufsize : option Z) (stream_offset : Z)
  : list value * ending :=
  match load fp decoder parse_int parse_float separator
             bufsize max_bufsize stream_offset with
  | Return g => consume (_decode_stream_generator fuel) fuel g
  | Raise e => ([], Raised e)
  | NoFuel => ([], OutOfFuel)
  end.

End Stream.

(** ** CPython's side of the interfaces *)

(** The ranges of the code points for which [str.isdigit] is true, in
    the character database of Unicode 14.0, the one of CPython 3.11. *)
Definition DIGITS : list (N * N) :=
  [(48, 57); (178, 179); (185, 185); (1632, 1641); (1776, 1785);
   (1984, 1993); (2406, 2415); (2534, 2543); (2662, 2671); (2790, 2799);
   (2918, 2927); (3046, 3055); (3174, 3183); (3302, 3311); (3430, 3439);
   (3558, 3567); (3664, 3673); (3792, 3801); (3872, 3881); (4160, 4169);
   (4240, 4249); (4969, 4977); (6112, 6121); (6160, 6169); (6470, 6479);
   (6608, 6618); (6784, 6793); (6800, 6809); (6992, 7001); (7088, 7097);
   (7232, 7241); (7248, 7257); (8304, 8304); (8308, 8313); (8320, 8329);
   (9312, 9320); (9332, 9340); (9352, 9360); (9450, 9450); (9461, 9469);
   (9471, 9471); (10102, 10110); (10112, 10120); (10122, 10130);
   (42528, 42537); (43216, 43225); (43264, 43273); (43472, 43481);
   (43504, 43513); (43600, 43609); (44016, 44025); (65296, 65305);
   (66720, 66729); (68160, 68163); (68912, 68921); (69216, 69224);
   (69714, 69722); (69734, 69743); (69872, 69881); (69942, 69951);
   (70096, 70105); (70384, 70393); (70736, 70745); (70864, 70873);
   (71248, 71257); (71360, 71369); (71472, 71481); (71904, 71913);
   (72016, 72025); (72784, 72793); (73040, 73049); (73120, 73129);
   (92768, 92777); (92864, 92873); (93008, 93017); (120782, 120831);
   (123200, 123209); (123632, 123641); (125264, 125273); (127232, 127242);
   (130032, 130041)]%N.

(** The characters CPython counts as whitespace ([_PyUnicode_IsWhitespace]),
    which are also those the class [\s] matches in a [str] pattern, and
    [str.isdigit]. *)
#[export] Instance CPython_ucd : UnicodeDB := {
  isdigit c := existsb (fun r => between (fst r) (snd r) c) DIGITS;
  isspace c :=
    between 9 13 c || between 28 32 c || N.eqb c 133 || N.eqb c 160
    || N.eqb c 5760 || between 8192 8202 c || N.eqb c 8232 || N.eqb c 8233
    || N.eqb c 8239 || N.eqb c 8287 || N.eqb c 12288
}.

(** [io.StringIO]: the text not read yet.  A negative size reads it all. *)
#[export] Instance StringIO : TextIO str := {
  read s n :=
    if (n <? 0)%Z then (s, [])
    else (firstn (Z.to_nat n) s, skipn (Z.to_nat n) s)
}.

(** *** Values and their types *)

Inductive pyvalue :=
| PyNone
| PyBool (b : bool)
| PyInt (z : Z)
| PyFloat (literal : str)
| PyDecimal (literal : str)
| PyStr (s : str)
| PyList (items : list pyvalue)
| PyDict (pairs : list (str * pyvalue)).

Inductive pyclass :=
| cls_NoneType
| cls_bool
| cls_int
| cls_float
| cls_Decimal
| cls_str
| cls_list
| cls_dict.

Definition pyclass_eqb (a b : pyclass) : bool :=
  match a, b with
  | cls_NoneType, cls_NoneType | cls_bool, cls_bool | cls_int, cls_int
  | cls_float, cls_float | cls_Decimal, cls_Decimal | cls_str, cls_str
  | cls_list, cls_list | cls_dict, cls_dict => true
  | _, _ => false
  end.

Definition type_of (v : pyvalue) : pyclass :=
  match v with
  | PyNone => cls_NoneType
  | PyBool _ => cls_bool
  | PyInt _ => cls_int
  | PyFloat _ => cls_float
  | PyDecimal _ => cls_Decimal
  | PyStr _ => cls_str
  | PyList _ => cls_list
  | PyDict _ => cls_dict
  end.

(** [bool] is a subclass of [int]. *)
#[export] Instance CPython_objects : PyObject pyvalue := {
  pytype := pyclass;
  type_ := type_of;
  isinstance v c :=
    pyclass_eqb (type_of v) c
    || (pyclass_eqb (type_of v) cls_bool && pyclass_eqb c cls_int);
  int_ := cls_int;
  float_ := cls_float
}.

(** [dict(pairs)]: a later pair with the same key replaces the value and
    keeps the key's place. *)
Fixpoint dict_set (key : str) (v : pyvalue) (d : list (str * pyvalue))
  : list (str * pyvalue) :=
  match d with
  | [] => [(key, v)]
  | (k, w) :: d' => if str_eqb k key then (k, v) :: d' else (k, w) :: dict_set key v d'
  end.

Definition dict_of_pairs (pairs : list (str * pyvalue)) : list (str * pyvalue) :=
  fold_left (fun d kv => dict_set (fst kv) (snd kv) d) pairs [].

(** *** The decoder of the [json] module

    [json.JSONDecoder.raw_decode] after CPython's scanner: strict strings,
    the number grammar (an optional minus sign, then 0 or a digit from 1
    to 9 followed by digits, then optionally a point and digits, then
    optionally e or E, an optional sign and digits), and the constants
    [NaN], [Infinity] and [-Infinity] read as floats.  A float keeps its
    literal text. *)

Inductive scan (A : Type) :=
| Scanned (a : A) (end_ : nat)
| Stop (idx : nat)
| Fail (e : exn)
| Deep.

Arguments Scanned {A} a end_.
Arguments Stop {A} idx.
Arguments Fail {A} e.
Arguments Deep {A}.

Definition json_error (msg : string) (s : str) (pos : nat) : exn :=
  DecodeError (new_JSONDecodeError (lit msg) s pos).

Definition is_json_ws (c : N) : bool :=
  N.eqb c 32 || N.eqb c 9 || N.eqb c 10 || N.eqb c 13.

Fixpoint skip_ws_from (rest : str) (idx : nat) : nat :=
  match rest with
  | c :: rest' => if is_json_ws c then skip_ws_from rest' (S idx) else idx
  | [] => idx
  end.

Definition skip_ws (s : str) (idx : nat) : nat := skip_ws_from (skipn idx s) idx.

Definition is_ascii_digit (c : N) : bool := between 48 57 c.

Fixpoint span_digits (l : str) : nat :=
  match l with
  | c :: l' => if is_ascii_digit c then S (span_digits l') else 0
  | [] => 0
  end.

(** The length of the match of the number grammar at the head of [l], and
    whether it has a fraction or an exponent. *)
Definition match_number (l : str) : option (nat * bool) :=
  let (sign, l1) :=
    match l with
    | c :: l' => if N.eqb c (ch "-") then (1, l') else (0, l)
    | [] => (0, l)
    end in
  let integer :=
    match l1 with
    | c :: l2 =>
        if N.eqb c (ch "0") then Some 1
        else if between 49 57 c then Some (1 + span_digits l2)
        else None
    | [] => None
    end in
  match integer with
  | None => None
  | Some n =>
      let l3 := skipn n l1 in
      let frac :=
        match l3 with
        | c :: l4 =>
            if N.eqb c (ch ".") && negb (span_digits l4 =? 0)
            then 1 + span_digits l4 else 0
        | [] => 0
        end in
      let l5 := skipn frac l3 in
      let exp :=
        match l5 with
        | c :: l6 =>
            if N.eqb c (ch "e") || N.eqb c (ch "E") then
              let (sgn, l7) :=
                match l6 with
                | d :: l6' =>
                    if N.eqb d (ch "-") || N.eqb d (ch "+") then (1, l6') else (0, l6)
                | [] => (0, l6)
                end in
              if span_digits l7 =? 0 then 0 else 1 + sgn + span_digits l7
            else 0
        | [] => 0
        end in
      Some (sign + n + frac + exp, negb ((frac =? 0) && (exp =? 0)))
  end.

(** [int(literal)] for a literal the number grammar matched. *)
Definition int_of_literal (l : str) : Z :=
  let digits (d : str) :=
    fold_left (fun acc c => (10 * acc + (Z.of_N c - 48))%Z) d 0%Z in
  match l with
  | c :: l' => if N.eqb c (ch "-") then (- digits l')%Z else digits l
  | [] => 0%Z
  end.

Definition hex_digit (c : N) : option N :=
  if between 48 57 c then Some (c - 48)%N
  else if between 97 102 c then Some (c - 87)%N
  else if between 65 70 c then Some (c - 55)%N
  else None.

Definition hex4 (l : str) : option N :=
  match l with
  | a :: b :: c :: d :: _ =>
      match hex_digit a, hex_digit b, hex_digit c, hex_digit d with
      | Some a, Some b, Some c, Some d => Some (((a * 16 + b) * 16 + c) * 16 + d)%N
      | _, _, _, _ => None
      end
  | _ => None
  end.

Definition backslash (c : N) : option N :=
  if N.eqb c 34 then Some 34%N
  else if N.eqb c 92 then Some 92%N
  else if N.eqb c (ch "/") then Some (ch "/")
  else if N.eqb c (ch "b") then Some 8%N
  else if N.eqb c (ch "f") then Some 12%N
  else if N.eqb c (ch "n") then Some 10%N
  else if N.eqb c (ch "r") then Some 13%N
  else if N.eqb c (ch "t") then Some 9%N
  else None.

(** [scanstring(s, end)]: [i] is the index being read, [begin] the index
    of the opening quote. *)
Fixpoint scanstring_from (fuel : nat) (s : str) (begin i : nat) (acc : str) : scan str :=
  match fuel with
  | O => Deep
  | S fuel' =>
      match skipn i s with
      | [] => Fail (json_error "Unterminated string starting at" s begin)
      | c :: rest =>
          if N.eqb c 34 then Scanned (rev acc) (S i)
          else if N.eqb c 92 then
            match rest with
            | [] => Fail (json_error "Unterminated string starting at" s begin)
            | e :: rest2 =>
                if N.eqb e (ch "u") then
                  if length rest2 <? 5 then Fail (json_error "Invalid \uXXXX escape" s (i + 1))
                  else
                    match hex4 rest2 with
                    | None => Fail (json_error "Invalid \uXXXX escape" s (i + 1))
                    | Some c1 =>
                        let rest6 := skipn 4 rest2 in
                        if between 55296 56319 c1 && (6 <? length rest6)
                           && is_prefix [92; ch "u"]%N rest6
                        then
                          match hex4 (skipn 2 rest6) with
                          | None => Fail (json_error "Invalid \uXXXX escape" s (i + 7))
                          | Some c2 =>
                              if between 56320 57343 c2 then
                                scanstring_from fuel' s begin (i + 12)
                                  ((65536 + (c1 - 55296) * 1024 + (c2 - 56320))%N :: acc)
                              else scanstring_from fuel' s begin (i + 6) (c1 :: acc)
                          end
                        else scanstring_from fuel' s begin (i + 6) (c1 :: acc)
                    end
                else
                  match backslash e with
                  | Some c' => scanstring_from fuel' s begin (i + 2) (c' :: acc)
                  | None => Fail (json_error "Invalid \escape" s i)
                  end
            end
          else if (c <=? 31)%N then Fail (json_error "Invalid control character at" s i)
          else scanstring_from fuel' s begin (S i) (c :: acc)
      end
  end.

Definition scanstring (s : str) (end_ : nat) : scan str :=
  scanstring_from (S (length s)) s (end_ - 1) end_ [].

Section Scanner.
Variables parse_int parse_float : str -> pyvalue.

(** [scan_once(s, idx)]; [array_items] and [object_items] are the loops
    of the array and object parsers, entered at the first item. *)
Fixpoint scan_once (fuel : nat) (s : str) (idx : nat) {struct fuel} : scan pyvalue :=
  match fuel with
  | O => Deep
  | S fuel' =>
      let rest := skipn idx s in
      match rest with
      | [] => Stop idx
      | c :: _ =>
          if N.eqb c 34 then
            match scanstring s (S idx) with
            | Scanned text end_ => Scanned (PyStr text) end_
            | Stop i => Stop i
            | Fail e => Fail e
            | Deep => Deep
            end
          else if N.eqb c (ch "{") then
            let idx' := skip_ws s (S idx) in
            if char_is (nth_error s idx') (N.eqb (ch "}")) then Scanned (PyDict []) (S idx')
            else object_items fuel' s idx' []
          else if N.eqb c (ch "[") then
            let idx' := skip_ws s (S idx) in
            if char_is (nth_error s idx') (N.eqb (ch "]")) then Scanned (PyList []) (S idx')
            else array_items fuel' s idx' []
          else if is_prefix (lit "null") rest then Scanned PyNone (idx + 4)
          else if is_prefix (lit "true") rest then Scanned (PyBool true) (idx + 4)
          else if is_prefix (lit "false") rest then Scanned (PyBool false) (idx + 5)
          else
            match match_number rest with
            | Some (n, is_float) =>
                Scanned ((if is_float then parse_float else parse_int) (firstn n rest))
                        (idx + n)
            | None =>
                if is_prefix (lit "NaN") rest then Scanned (PyFloat (lit "NaN")) (idx + 3)
                else if is_prefix (lit "Infinity") rest
                then Scanned (PyFloat (lit "Infinity")) (idx + 8)
                else if is_prefix (lit "-Infinity") rest
                then Scanned (PyFloat (lit "-Infinity")) (idx + 9)
                else Stop idx
            end
      end
  end
with array_items (fuel : nat) (s : str) (idx : nat) (acc : list pyvalue) {struct fuel}
  : scan pyvalue :=
  match fuel with
  | O => Deep
  | S fuel' =>
      match scan_once fuel' s idx with
      | Scanned v next =>
          let idx' := skip_ws s next in
          if char_is (nth_error s idx') (N.eqb (ch "]"))
          then Scanned (PyList (rev (v :: acc))) (S idx')
          else if char_is (nth_error s idx') (N.eqb (ch ","))
          then array_items fuel' s (skip_ws s (S idx')) (v :: acc)
          else Fail (json_error "Expecting ',' delimiter" s idx')
      | Stop i => Stop i
      | Fail e => Fail e
      | Deep => Deep
      end
  end
with object_items (fuel : nat) (s : str) (idx : nat) (acc : list (str * pyvalue))
  {struct fuel} : scan pyvalue :=
  match fuel with
  | O => Deep
  | S fuel' =>
      if negb (char_is (nth_error s idx) (N.eqb 34))
      then Fail (json_error "Expecting property name enclosed in double quotes" s idx)
      else
        match scanstring s (S idx) with
        | Scanned key next =>
            let colon := skip_ws s next in
            if negb (char_is (nth_error s colon) (N.eqb (ch ":")))
            then Fail (json_error "Expecting ':' delimiter" s colon)
            else
              match scan_once fuel' s (skip_ws s (S colon)) with
              | Scanned v next' =>
                  let idx' := skip_ws s next' in
                  if char_is (nth_error s idx') (N.eqb (ch "}"))
                  then Scanned (PyDict (dict_of_pairs (rev ((key, v) :: acc)))) (S idx')
                  else if char_is (nth_error s idx') (N.eqb (ch ","))
                  then object_items fuel' s (skip_ws s (S idx')) ((key, v) :: acc)
                  else Fail (json_error "Expecting ',' delimiter" s idx')
              | Stop i => Stop i
              | Fail e => Fail e
              | Deep => Deep
              end
        | Stop i => Stop i
        | Fail e => Fail e
        | Deep => Deep
        end
  end.

(** [JSONDecoder(parse_int=..., parse_float=...).raw_decode]: a
    [StopIteration] of the scanner becomes [Expecting value]. *)
Definition PyJSON_raw_decode (s : str) (idx : nat) : res (pyvalue * nat) :=
  match scan_once (2 * length s + 2) s idx with
  | Scanned obj end_ => Return (obj, end_)
  | Stop i => Raise (json_error "Expecting value" s i)
  | Fail e => Raise e
  | Deep => Raise RecursionError
  end.

Definition PyJSON : JSONDecoder pyvalue := {| raw_decode := PyJSON_raw_decode |}.

End Scanner.

(** The decoder with no hooks: [int] and [float] build the numbers. *)
Definition default_decoder : JSONDecoder pyvalue :=
  PyJSON (fun l => PyInt (int_of_literal l)) PyFloat.

(** The decoder built with [parse_int=Decimal]. *)
Definition Decimal_int_decoder : JSONDecoder pyvalue := PyJSON PyDecimal PyFloat.

(** ** The retry heuristic in the words of the specification *)

(** The classifications of a decode error that the heuristic knows, read
    off the start of its message. *)
Inductive error_kind :=
| unterminated_string
| expecting_value
| expecting_property_name
| expecting_delimiter.

Definition kind_of (msg : str) : option error_kind :=
  if is_prefix (lit "Unterminated string starting at") msg then Some unterminated_string
  else if is_prefix (lit "Expecting value") msg then Some expecting_value
  else if is_prefix (lit "Expecting property name enclosed in double quotes") msg
  then Some expecting_property_name
  else if is_prefix (lit "Expecting ',' delimiter") msg
          || is_prefix (lit "Expecting ':' delimiter") msg
  then Some expecting_delimiter
  else None.

(** [ex.doc[ex.pos:]]. *)
Definition remainder (ex : JSONDecodeError) : str := skipn (ex_pos ex) (ex_doc ex).

Definition prefix_of (p s : str) : Prop := exists t, s = p ++ t.

Definition strict_prefix_of (p s : str) : Prop := exists t, t <> [] /\ s = p ++ t.

(** (i) the position is the end of the buffered document. *)
Definition at_end_of_buffer (ex : JSONDecodeError) : Prop :=
  ex_pos ex = length (ex_doc ex).

(** (ii) the position is one before the end, a decimal point is the last
    buffered character, and a digit stands just before it. *)
Definition point_at_end_of_buffer `{UnicodeDB} (ex : JSONDecodeError) : Prop :=
  S (ex_pos ex) = length (ex_doc ex)
  /\ nth_error (ex_doc ex) (ex_pos ex) = Some (ch ".")
  /\ exists p d, ex_pos ex = S p /\ nth_error (ex_doc ex) p = Some d /\ isdigit d = true.

(** (iii) as the specification words it: the remainder is a strict prefix of a
    keyword, no longer than the longest keyword. *)
Definition strict_keyword_prefix (ex : JSONDecodeError) : Prop :=
  exists kw, In kw KEYWORDS /\ strict_prefix_of (remainder ex) kw
             /\ length (remainder ex) <= MAX_KEYWORD_LEN.

(** (iii) as the code has it: the remainder is a prefix of a keyword,
    the keyword itself included, and shorter than the longest keyword. *)
Definition short_keyword_prefix (ex : JSONDecodeError) : Prop :=
  exists kw, In kw KEYWORDS /\ prefix_of (remainder ex) kw
             /\ length (remainder ex) < MAX_KEYWORD_LEN.

(** The retriable errors, with the keyword condition left open. *)
Definition retriable_with `{UnicodeDB} (keyword_condition : JSONDecodeError -> Prop)
  (ex : JSONDecodeError) : Prop :=
  match kind_of (ex_msg ex) with
  | Some unterminated_string => True
  | Some k =>
      at_end_of_buffer ex \/ point_at_end_of_buffer ex
      \/ (k = expecting_value /\ keyword_condition ex)
  | None => False
  end.

(** A record of the error [Expecting value] at the start of the buffer
    [null]; the decoder raises no such error, it reads the keyword. *)
Definition whole_keyword_error : JSONDecodeError :=
  new_JSONDecodeError (lit "Expecting value") (lit "null") 0.

(** The error [Expecting value] raised at the start of the buffer [nul]. *)
Definition cut_keyword_error : JSONDecodeError :=
  new_JSONDecodeError (lit "Expecting value") (lit "nul") 0.

(** ** The separator policy in the words of the specification *)

(** The separator text occurs in the document starting exactly at [pos]. *)
Definition occurs_at (separator document : str) (pos : nat) : Prop :=
  exists before after,
    document = before ++ separator ++ after /\ length before = pos.

(** ** The source in the words of the specification *)

(** "Read up to N units, or fewer if exhausted": a read returns no more
    than it was asked for. *)
Definition bounded_reads (file : Type) `{TextIO file} : Prop :=
  forall (f : file) (n : Z),
    (0 <= n)%Z -> (Z.of_nat (length (fst (read f n))) <= n)%Z.

Arguments bounded_reads file {_}.

(** A text between double quotes. *)
Definition quoted (s : string) : str := [34%N] ++ lit s ++ [34%N].

(** The stream decoder of the buffer-bound test, after it has yielded
    ['tiny']: six characters buffered, one character per read, a bound of
    six. *)
Definition tiny_stream : @DecodeStream pyvalue CPython_objects str :=
  {| stream := lit " " ++ quoted "some very long string";
     decoder := default_decoder;
     next_pos_helper := fst (get_first_pos_and_next_pos_func None);
     bufsize := 1; max_bufsize := Some 6%Z; pos := Some 6;
     partial_doc := quoted "tiny"; stream_offset := 0;
     number_types := (cls_int, cls_float) |}.

(** A stream decoder that has buffered [12] of the text [123 4], reading
    two characters at a time. *)
Definition split_number_stream : @DecodeStream pyvalue CPython_objects str :=
  {| stream := lit "3 4";
     decoder := default_decoder;
     next_pos_helper := fst (get_first_pos_and_next_pos_func None);
     bufsize := 2; max_bufsize := None; pos := Some 0;
     partial_doc := lit "12"; stream_offset := 0;
     number_types := (cls_int, cls_float) |}.

(** The same decoder after one refill from its cursor: [123 ] buffered. *)
Definition split_number_stream_refilled : @DecodeStream pyvalue CPython_objects str :=
  {| stream := lit "4";
     decoder := default_decoder;
     next_pos_helper := fst (get_first_pos_and_next_pos_func None);
     bufsize := 2; max_bufsize := None; pos := Some 0;
     partial_doc := lit "123 "; stream_offset := 0;
     number_types := (cls_int, cls_float) |}.

(** The text of the whitespace-only test: space, tab, newline, space. *)
Definition whitespace_text : str := [32; 9; 10; 32]%N.


(** ** The stream offset in the words of the specification *)

(** The buffer of a decoder that reads [text] from a [StringIO] is a window
    on the text: the text is what was dropped, then the buffer, then what
    is still unread, and the stream offset counts what was dropped, from
    the offset [start] the session began with. *)
Definition window (text : str) (start : Z) {value : Type} `{PyObject value}
  (self : @DecodeStream value _ str) : Prop :=
  exists dropped : str,
    text = dropped ++ partial_doc self ++ stream self
    /\ stream_offset self = (start + Z.of_nat (length dropped))%Z.

(** The stream decoder reading [[],,[]] two characters at a time, with the
    separator [,], at the top of its loop after the first separator: the
    buffer holds the two commas and the cursor stands on the second. *)
Definition stray_comma_stream : @DecodeStream pyvalue CPython_objects str :=
  {| stream := lit "[]";
     decoder := default_decoder;
     next_pos_helper := next_position_by_separator (lit ",");
     bufsize := 2; max_bufsize := None; pos := Some 1;
     partial_doc := lit ",,"; stream_offset := 2;
     number_types := (cls_int, cls_float) |}.

(** ** The loaders of the repository's tests *)

(** [loads], [load] with the default [bufsize], and [load] with
    [bufsize=1], each run to the end of its input. *)
Definition LOADERS (s : str) (separator : option str) : list (list pyvalue * ending) :=
  [list_loads default_decoder 64 (a_str s) separator;
   list_load 64 s default_decoder None None separator 1048576 None 0;
   list_load 64 s default_decoder None None separator 1 None 0].

(** [cm.value.msg] of a failed run. *)
Definition msg_of (run : list pyvalue * ending) : option str :=
  match snd run with
  | Raised (DecodeError ex) => Some (ex_msg ex)
  | _ => None
  end.

(** [cm.value.pos + getattr(cm.value, 'stream_offset', 0)] of a failed run. *)
Definition global_pos_of (run : list pyvalue * ending) : option Z :=
  match snd run with
  | Raised (DecodeError ex) =>
      Some (Z.of_nat (ex_pos ex)
            + match ex_stream_offset ex with Some k => k | None => 0 end)%Z
  | _ => None
  end.

(** ** What a stream decoder has still to decode *)

(** The text a stream decoder over a [StringIO] has not passed yet: the
    buffer from the cursor on, then what the source still holds. *)
Definition unread {value : Type} `{PyObject value} (self : @DecodeStream value _ str)
  : str :=
  skipn (cursor self) (partial_doc self) ++ stream self.

(** The stream decoder of the overfull-buffer test when it searches for
    the first document: ['"small"'] after fourteen spaces, one character
    per read, a bound of seven characters. *)
Definition padded_stream : @DecodeStream pyvalue CPython_objects str :=
  {| stream := lit "              " ++ quoted "small";
     decoder := default_decoder;
     next_pos_helper := fst (get_first_pos_and_next_pos_func None);
     bufsize := 1; max_bufsize := Some 7%Z; pos := Some 0;
     partial_doc := []; stream_offset := 0;
     number_types := (cls_int, cls_float) |}.

(** ** Reading the whole text at once *)

(** The types [__init__] records for the numbers: [int] and [float], or
    the types of what the hooks make of ['0']. *)
Definition hook_number_types {value : Type} `{PyObject value}
  (parse_int parse_float : option (str -> value)) : pytype * pytype :=
  (match parse_int with None => int_ | Some f => type_ (f (lit "0")) end,
   match parse_float with None => float_ | Some f => type_ (f (lit "0")) end).

(** [isinstance(obj, self.number_types)] for a decoder that [load] built
    with these hooks. *)
Definition counts_as_number {value : Type} `{PyObject value}
  (parse_int parse_float : option (str -> value)) (obj : value) : bool :=
  isinstance obj (fst (hook_number_types parse_int parse_float))
  || isinstance obj (snd (hook_number_types parse_int parse_float)).

(** Two iterations end alike: both return, both raise the same exception,
    or both are cut short; a [JSONDecodeError] of the second is the one of
    the first with a stream offset added to it and to its message. *)
Definition same_ending (a b : ending) : Prop :=
  match a, b with
  | Exhausted, Exhausted => True
  | OutOfFuel, OutOfFuel => True
  | Raised (DecodeError ex), Raised (DecodeError ex') =>
      ex_msg ex' = ex_msg ex /\ ex_doc ex' = ex_doc ex /\ ex_pos ex' = ex_pos ex
      /\ exists k : Z,
          ex_stream_offset ex' = Some k
          /\ ex_args0 ex' = ex_args0 ex ++ lit " (stream offset " ++ str_of_Z k ++ lit ")"
  | Raised e, Raised e' => e = e'
  | _, _ => False
  end.

Definition same_run {value : Type} (a b : list value * ending) : Prop :=
  fst a = fst b /\ same_ending (snd a) (snd b).

(** A stream decoder over a [StringIO] that has been read to its end. *)
Definition drained {value : Type} `{PyObject value} (decoder : JSONDecoder value)
  (next_pos : next_pos_func) (bufsize : Z) (max_bufsize : option Z)
  (number_types : pytype * pytype) (partial_doc : str) (pos : nat) (stream_offset : Z)
  : @DecodeStream value _ str :=
  {| stream := []; decoder := decoder; next_pos_helper := next_pos;
     bufsize := bufsize; max_bufsize := max_bufsize; pos := Some pos;
     partial_doc := partial_doc; stream_offset := stream_offset;
     number_types := number_types |}.

(** A list, then a number that ends the text. *)
Definition list_then_number : str := lit "[1] 23".

(** ** A document that spans several reads *)

(** Whether the loop, with [doc] in its buffer and its cursor at the
    start, asks the source for more: the decoder fails with an error that
    [_match_error] accepts, or it returns a number that ends in the last
    character of the buffer or the one before it. *)
Definition wants_more `{UnicodeDB} {value : Type} `{PyObject value}
  (decoder : JSONDecoder value) (parse_int parse_float : option (str -> value))
  (doc : str) : bool :=
  match raw_decode decoder doc 0 with
  | Return (obj, new_pos) =>
      (Z.of_nat new_pos >=? Z.of_nat (length doc) - 1)%Z
      && counts_as_number parse_int parse_float obj
  | Raise (DecodeError ex) => _match_error ex
  | _ => false
  end.

(** A stream decoder that holds the first [n] characters of [text] in its
    buffer, with its cursor at the start and the rest of [text] in its
    source. *)
Definition reading {value : Type} `{PyObject value} (text : str)
  (decoder : JSONDecoder value) (next_pos : next_pos_func) (bufsize : Z)
  (max_bufsize : option Z) (number_types : pytype * pytype) (n : nat)
  (stream_offset : Z) : @DecodeStream value _ str :=
  {| stream := skipn n text; decoder := decoder; next_pos_helper := next_pos;
     bufsize := bufsize; max_bufsize := max_bufsize; pos := Some 0;
     partial_doc := firstn n text; stream_offset := stream_offset;
     number_types := number_types |}.

(** An object that holds a list, as a text. *)
Definition nested_document : str := lit "{" ++ quoted "a" ++ lit ": [1, 20]}".

(** ** What is left to do *)

(** A bound on the work left to a stream decoder over a [StringIO]:
    three units for each character of the source, one for each character
    of the buffer from the cursor on, and one more. *)
Definition work_left {value : Type} `{PyObject value} (self : @DecodeStream value _ str)
  : nat :=
  3 * length (stream self) + (length (partial_doc self) + 1 - cursor self).

(** ** A decoding error as [load] passes it on *)

(** [ex'] is the decoding error [ex] after [_update_error]: the same
    message, document and position, with the stream offset [k] as an
    attribute and at the end of the formatted message. *)
Definition with_stream_offset (ex ex' : JSONDecodeError) (k : Z) : Prop :=
  ex_msg ex' = ex_msg ex /\ ex_doc ex' = ex_doc ex /\ ex_pos ex' = ex_pos ex
  /\ ex_stream_offset ex' = Some k
  /\ ex_args0 ex' = ex_args0 ex ++ lit " (stream offset " ++ str_of_Z k ++ lit ")".

(** A list with a missing comma, as a text. *)
Definition missing_comma : str := lit "[1 2]".

(** The stream decoder of the separator test after its first value: the
    text [[1,2],[3, 4]] with the separator [,], five characters per read. *)
Definition comma_stream : @DecodeStream pyvalue CPython_objects str :=
  {| stream := lit ",[3, 4]";
     decoder := default_decoder;
     next_pos_helper := next_position_by_separator (lit ",");
     bufsize := 5; max_bufsize := None; pos := Some 5;
     partial_doc := lit "[1,2]"; stream_offset := 0;
     number_types := (cls_int, cls_float) |}.

(** An object cut off after its first key, as a text. *)
Definition truncated_document : str := lit "{" ++ quoted "a".

(** ** The same session from another stream offset *)

(** The stream decoder [self] with its stream offset moved by [d]. *)
Definition moved_by {value : Type} `{PyObject value} {file : Type} (d : Z)
  (self : @DecodeStream value _ file) : @DecodeStream value _ file :=
  {| stream := stream self; decoder := decoder self;
     next_pos_helper := next_pos_helper self; bufsize := bufsize self;
     max_bufsize := max_bufsize self; pos := pos self;
     partial_doc := partial_doc self;
     stream_offset := (stream_offset self + d)%Z;
     number_types := number_types self |}.

(** A separator policy that raises no decoding error: what the two
    policies of the module raise is a [ValueError]. *)
Definition raises_no_decode_error (policy : next_pos_func) : Prop :=
  forall (document : str) (p : nat) (ex : JSONDecodeError),
    policy document p <> Raise (DecodeError ex).

(** The exception [e'] is [e] as the session raises it from a stream
    offset moved by [d]: for a decoding error, both are the same error of
    the decoder passed through [_update_error], at stream offsets that
    differ by [d]; any other exception is the same in both. *)
Definition same_error_moved_by (d : Z) (e e' : exn) : Prop :=
  match e with
  | DecodeError ex0 =>
      exists (ex ex1 : JSONDecodeError) (k : Z),
        e' = DecodeError ex1
        /\ with_stream_offset ex ex0 k /\ with_stream_offset ex ex1 (k + d)
  | _ => e' = e
  end.

Definition same_ending_moved_by (d : Z) (a b : ending) : Prop :=
  match a, b with
  | Exhausted, Exhausted => True
  | OutOfFuel, OutOfFuel => True
  | Raised e, Raised e' => same_error_moved_by d e e'
  | _, _ => False
  end.

(** What [next] gives from the moved state: the same value and the state
    moved, or the same end. *)
Definition step_moved_by {value : Type} `{PyObject value} {file : Type} (d : Z)
  (a b : step value (stream_pc * @DecodeStream value _ file)) : Prop :=
  match a, b with
  | Yield obj (pc, self), Yield obj' (pc', self') =>
      obj' = obj /\ pc' = pc /\ self' = moved_by d self
  | StopIteration, StopIteration => True
  | Throw e, Throw e' => same_error_moved_by d e e'
  | Starved, Starved => True
  | _, _ => False
  end.

(** ** A text of several documents *)

(** The part of [text] from index [a] up to index [b]: what a buffer
    holds that began at [a] and has been filled up to [b]. *)
Definition slice (text : str) (a b : nat) : str := firstn (b - a) (skipn a text).

(** The decoder fails on [doc] from [p] with an error that [_match_error]
    accepts. *)
Definition fails_for_now `{UnicodeDB} {value : Type} (decoder : JSONDecoder value)
  (doc : str) (p : nat) : bool :=
  match raw_decode decoder doc p with
  | Raise (DecodeError ex) => _match_error ex
  | _ => false
  end.

(** The documents of [text] from [from] on, under the whitespace policy:
    each is given by the index of its first character, the index after
    its last, and its value; the first starts at the first character from
    [from] on that is no whitespace, the next one is looked for from the
    end of the first, and after the last one only whitespace is left. *)
Fixpoint laid_out `{UnicodeDB} {value : Type} (text : str) (from : nat)
  (docs : list (nat * nat * value)) : Prop :=
  match docs with
  | [] => next_position_by_non_whitespace text from = None
  | (s, e, _) :: docs' =>
      next_position_by_non_whitespace text from = Some s
      /\ s < e <= length text
      /\ laid_out text e docs'
  end.

(** The decoder reads the document from [s] to [e] as [v] in every buffer
    that holds all of it, and fails for now in every buffer that holds
    its start but not its end; [v] does not count as a number. *)
Definition decodes_in_every_buffer `{UnicodeDB} {value : Type} `{PyObject value}
  (decoder : JSONDecoder value) (parse_int parse_float : option (str -> value))
  (text : str) (doc : nat * nat * value) : Prop :=
  let '(s, e, v) := doc in
  counts_as_number parse_int parse_float v = false
  /\ (forall a b, a <= s -> e <= b <= length text ->
                  raw_decode decoder (slice text a b) (s - a) = Return (v, e - a))
  /\ (forall a b, a <= s < b -> b < e ->
                  fails_for_now decoder (slice text a b) (s - a) = true).

(** A list and an object, as a text. *)
Definition two_documents : str := lit "[1] {" ++ quoted "a" ++ lit ": 2}".

(** A stream decoder as [load] configures it, with no bound on the
    buffer. *)
Definition configured {value : Type} `{UnicodeDB} `{PyObject value}
  (separator : option str) (decoder0 : JSONDecoder value)
  (parse_int parse_float : option (str -> value))
  (size : Z) (self : @DecodeStream value _ str) : Prop :=
  next_pos_helper self = fst (get_first_pos_and_next_pos_func separator)
  /\ decoder self = decoder0
  /\ bufsize self = size
  /\ max_bufsize self = None
  /\ number_types self = hook_number_types parse_int parse_float.

(** The stream decoder reads [text] and its cursor stands for the index
    [g] of the text: the text is what was dropped, then the buffer, then
    what the source still holds, and the cursor lies in the buffer or at
    its end. *)
Definition stands_at {value : Type} `{PyObject value} (text : str) (g : nat)
  (self : @DecodeStream value _ str) : Prop :=
  exists dropped : str,
    text = dropped ++ partial_doc self ++ stream self
    /\ length dropped + cursor self = g
    /\ cursor self <= length (partial_doc self).

(** The documents of [text] under a separator of one character [x]:
    after a document that ends at [e] the text ends, or the separator
    stands at [e] and the next document starts right after it. *)
Fixpoint continues {value : Type} (x : N) (text : str) (e : nat)
  (docs : list (nat * nat * value)) : Prop :=
  match docs with
  | [] => e = length text
  | (s, e', _) :: docs' =>
      nth_error text e = Some x /\ s = S e /\ s < e' <= length text
      /\ continues x text e' docs'
  end.

(** The first document starts the text; a text with no document is
    empty. *)
Definition separated_by {value : Type} (x : N) (text : str)
  (docs : list (nat * nat * value)) : Prop :=
  match docs with
  | [] => text = []
  | (s, e, _) :: docs' => s = 0 /\ 0 < e <= length text /\ continues x text e docs'
  end.

(** The decoder fails for now in every buffer that ends where the
    document starts. *)
Definition fails_on_an_empty_rest `{UnicodeDB} {value : Type}
  (decoder : JSONDecoder value) (text : str) (doc : nat * nat * value) : Prop :=
  let '(s, _, _) := doc in
  forall a, a <= s -> fails_for_now decoder (slice text a s) (s - a) = true.

(** Two lists on two lines, as a text. *)
Definition two_lines : str := lit "[1]" ++ [10%N] ++ lit "[2, 3]".

(** ** What the scanner leaves when it finds no value *)

(** No keyword stands at the head of [rest]. *)
Definition starts_no_keyword (rest : str) : bool :=
  forallb (fun kw => negb (is_prefix kw rest)) KEYWORDS.

(** Where the scanner stops with [StopIteration] no keyword stands, and
    a decoding error that it raises itself is none of the kind
    [Expecting value]. *)
Definition found_no_value {A : Type} (s : str) (r : scan A) : Prop :=
  match r with
  | Stop i => starts_no_keyword (skipn i s) = true
  | Fail (DecodeError ex) => kind_of (ex_msg ex) <> Some expecting_value
  | _ => True
  end.

(** ** An empty value between two separators, in any buffer *)





(** * Properties *)

(** ** The repository's tests on the embedding *)

Example test_loaders :
  LOADERS (lit "[] {} [1, 2]") None
  = repeat ([PyList []; PyDict []; PyList [PyInt 1; PyInt 2]], Exhausted) 3
  /\ LOADERS (lit "null true false") None
     = repeat ([PyNone; PyBool true; PyBool false], Exhausted) 3
  /\ LOADERS (lit "Infinity -Infinity") None
     = repeat ([PyFloat (lit "Infinity"); PyFloat (lit "-Infinity")], Exhausted) 3
  /\ LOADERS (lit "1 234") None = repeat ([PyInt 1; PyInt 234], Exhausted) 3
  /\ LOADERS (lit "[1.5] 0.5") None
     = repeat ([PyList [PyFloat (lit "1.5")]; PyFloat (lit "0.5")], Exhausted) 3
  /\ LOADERS (quoted "some string") None
     = repeat ([PyStr (lit "some string")], Exhausted) 3
  /\ LOADERS (lit "NaN") None = repeat ([PyFloat (lit "NaN")], Exhausted) 3.
Proof. repeat split; vm_compute; reflexivity. Qed.

Example test_failed_decodes :
  map msg_of (LOADERS (lit "{" ++ quoted "a") None)
  = repeat (Some (lit "Expecting ':' delimiter")) 3
  /\ map msg_of (LOADERS (lit "{") None)
     = repeat (Some (lit "Expecting property name enclosed in double quotes")) 3
  /\ map msg_of (LOADERS (34%N :: lit "a") None)
     = repeat (Some (lit "Unterminated string starting at")) 3
  /\ map msg_of (LOADERS (lit "nul") None) = repeat (Some (lit "Expecting value")) 3
  /\ map msg_of (LOADERS (lit "[,1]") None) = repeat (Some (lit "Expecting value")) 3
  /\ map msg_of (LOADERS (lit "[1 2]") None)
     = repeat (Some (lit "Expecting ',' delimiter")) 3
  /\ map msg_of (LOADERS (lit "1.") None) = repeat (Some (lit "Expecting value")) 3.
Proof. repeat split; vm_compute; reflexivity. Qed.

Example test_load_buffer_maxed_out :
  list_load 64 (quoted "tiny" ++ lit " " ++ quoted "some very long string")
    default_decoder None None None 1 (Some 6%Z) 0
  = ([PyStr (lit "tiny")], Raised (ValueError max_buffer_size_exceeded)).
Proof. vm_compute. reflexivity. Qed.

Example test_preceding_whitespace_discarded_when_buffer_overfull :
  list_load 64 (repeat 32%N 14 ++ quoted "small")
    default_decoder None None None 1 (Some 7%Z) 0
  = ([PyStr (lit "small")], Exhausted).
Proof. vm_compute. reflexivity. Qed.

Example test_stream_offset_in_error :
  exists ex : JSONDecodeError,
    list_load 64 (repeat 32%N 10 ++ lit "cannot_decode")
      default_decoder None None None 1 None 0
    = ([], Raised (DecodeError ex))
    /\ ex_stream_offset ex = Some 10%Z
    /\ ex_args0 ex = lit "Expecting value: line 1 column 1 (char 0) (stream offset 10)".
Proof. eexists. split; [vm_compute; reflexivity|]. split; reflexivity. Qed.

Example test_parse_number_hooks :
  list_loads Decimal_int_decoder 64 (a_str (lit "123 5.67")) None
  = ([PyDecimal (lit "123"); PyFloat (lit "5.67")], Exhausted)
  /\ list_load 64 (lit "123 5.67") Decimal_int_decoder (Some PyDecimal) None None
       1 None 0
     = ([PyDecimal (lit "123"); PyFloat (lit "5.67")], Exhausted).
Proof. split; vm_compute; reflexivity. Qed.

Example test_custom_delimiter :
  LOADERS (lit "[1,2],[3, 4]") (Some (lit ","))
  = repeat ([PyList [PyInt 1; PyInt 2]; PyList [PyInt 3; PyInt 4]], Exhausted) 3
  /\ LOADERS (lit "[1,2],[3, 4]") (Some (lit "/"))
     = repeat ([PyList [PyInt 1; PyInt 2]],
               Raised (ValueError (Expected_delimiter (lit "/")))) 3
  /\ map msg_of (LOADERS (lit "[],,[]") (Some (lit ",")))
     = repeat (Some (lit "Expecting value")) 3
  /\ map global_pos_of (LOADERS (lit "[],,[]") (Some (lit ",")))
     = repeat (Some 3%Z) 3.
Proof. repeat split; vm_compute; reflexivity. Qed.

Example test_empty_document :
  LOADERS (lit "") None = repeat ([], Exhausted) 3
  /\ LOADERS (lit "") (Some (lit ",")) = repeat ([], Exhausted) 3
  /\ LOADERS whitespace_text None = repeat ([], Exhausted) 3.
Proof. repeat split; vm_compute; reflexivity. Qed.

(** ** Text *)

Lemma is_prefix_spec (p s : str) : is_prefix p s = true <-> prefix_of p s.
Proof.
  revert s; induction p as [|x p IH]; intros s; simpl.
  - split; [intros _; now exists s | reflexivity].
  - destruct s as [|y s].
    + split; [discriminate | intros [t Ht]; discriminate].
    + rewrite andb_true_iff, N.eqb_eq, IH. split.
      * intros [-> [t ->]]. now exists t.
      * intros [t Ht]. injection Ht as -> ->. split; [reflexivity | now exists t].
Qed.

Lemma is_prefix_app (p q s : str) :
  is_prefix (p ++ q) s = true -> is_prefix p s = true.
Proof.
  rewrite !is_prefix_spec. intros [t ->]. exists (q ++ t). now rewrite app_assoc.
Qed.

Lemma is_prefix_head (x y : N) (p q s : str) :
  x <> y -> is_prefix (x :: p) s = true -> is_prefix (y :: q) s = false.
Proof.
  intros Hxy. destruct s as [|c s]; simpl; [discriminate|].
  rewrite andb_true_iff, N.eqb_eq. intros [<- _].
  destruct (N.eqb_spec y x) as [->|_]; [now elim Hxy | reflexivity].
Qed.

Lemma startswith_0 (s p : str) : startswith s p 0 = is_prefix p s.
Proof. reflexivity. Qed.

Lemma getitem_nat (s : str) (i : nat) : getitem s (Z.of_nat i) = nth_error s i.
Proof.
  unfold getitem. destruct (Z.ltb_spec (Z.of_nat i) 0); [lia|].
  rewrite Nat2Z.id.
  destruct (Z.leb_spec 0 (Z.of_nat i)); [|lia]. simpl.
  destruct (Z.ltb_spec (Z.of_nat i) (Z.of_nat (length s))); [reflexivity|].
  symmetry. apply nth_error_None. lia.
Qed.

Lemma getitem_last (s : str) :
  s <> [] -> getitem s (-1) = nth_error s (length s - 1).
Proof.
  intros Hs. unfold getitem.
  assert (0 < length s) by (destruct s; simpl; [congruence | lia]).
  change (-1 <? 0)%Z with true. cbv iota.
  destruct (Z.leb_spec 0 (-1 + Z.of_nat (length s))); [|lia].
  destruct (Z.ltb_spec (-1 + Z.of_nat (length s)) (Z.of_nat (length s))); [|lia].
  cbn [andb]. f_equal. lia.
Qed.

(** ** The retry classifier *)

Lemma re_match_kind (m : str) :
  re_match_error_message_pattern m
  = match kind_of m with Some _ => true | None => false end.
Proof.
  unfold re_match_error_message_pattern, kind_of.
  repeat match goal with
         | |- context [is_prefix ?p m] => destruct (is_prefix p m)
         end; reflexivity.
Qed.

Lemma expecting_prefix (m : str) :
  re_match_error_message_pattern m && startswith m (lit "Expecting") 0
  = match kind_of m with
    | Some unterminated_string | None => false
    | Some _ => true
    end.
Proof.
  rewrite re_match_kind, startswith_0. unfold kind_of.
  destruct (is_prefix (lit "Unterminated string starting at") m) eqn:U.
  - change (lit "Unterminated string starting at")
      with (85%N :: lit "nterminated string starting at") in U.
    change (lit "Expecting") with (69%N :: lit "xpecting").
    rewrite (@is_prefix_head 85 69 (lit "nterminated string starting at")
               (lit "xpecting") m); [reflexivity | easy | exact U].
  - destruct (is_prefix (lit "Expecting value") m) eqn:V.
    { now rewrite (@is_prefix_app (lit "Expecting") (lit " value") m V). }
    destruct (is_prefix (lit "Expecting property name enclosed in double quotes") m) eqn:P.
    { now rewrite (@is_prefix_app (lit "Expecting")
                     (lit " property name enclosed in double quotes") m P). }
    destruct (is_prefix (lit "Expecting ',' delimiter") m) eqn:C.
    { now rewrite (@is_prefix_app (lit "Expecting") (lit " ',' delimiter") m C). }
    destruct (is_prefix (lit "Expecting ':' delimiter") m) eqn:D; [|reflexivity].
    now rewrite (@is_prefix_app (lit "Expecting") (lit " ':' delimiter") m D).
Qed.

Lemma expecting_value_prefix (m : str) (k : error_kind) :
  kind_of m = Some k -> k <> unterminated_string ->
  (startswith m (lit "Expecting value") 0 = true <-> k = expecting_value).
Proof.
  rewrite startswith_0. unfold kind_of.
  destruct (is_prefix (lit "Unterminated string starting at") m).
  { intros [= <-] Hk. now elim Hk. }
  destruct (is_prefix (lit "Expecting value") m).
  { intros [= <-] _. easy. }
  destruct (is_prefix (lit "Expecting property name enclosed in double quotes") m).
  { intros [= <-] _. easy. }
  destruct (_ || _); [|discriminate].
  intros [= <-] _. easy.
Qed.

Lemma at_end_test (ex : JSONDecodeError) :
  (Z.of_nat (ex_pos ex) =? Z.of_nat (length (ex_doc ex)))%Z = true
  <-> at_end_of_buffer ex.
Proof. unfold at_end_of_buffer. rewrite Z.eqb_eq. lia. Qed.

Lemma point_at_end_test `{UnicodeDB} (ex : JSONDecodeError) :
  isdigit (ch ".") = false ->
  (Z.of_nat (ex_pos ex) =? Z.of_nat (length (ex_doc ex)) - 1)%Z
  && char_is (getitem (ex_doc ex) (Z.of_nat (ex_pos ex))) (N.eqb (ch "."))
  && char_is (getitem (ex_doc ex) (Z.of_nat (ex_pos ex) - 1)) isdigit = true
  <-> point_at_end_of_buffer ex.
Proof.
  intros Hpoint. unfold point_at_end_of_buffer.
  destruct ex as [m d p a o]; simpl.
  rewrite !andb_true_iff, Z.eqb_eq, getitem_nat. split.
  - intros [[Hlen Hdot] Hdig].
    destruct (nth_error d p) as [c|] eqn:Hc; [|discriminate].
    cbn [char_is] in Hdot. apply N.eqb_eq in Hdot. subst c.
    split; [lia|]. split; [reflexivity|].
    destruct p as [|p'].
    + assert (Hd : d <> []) by (intros ->; discriminate).
      change (Z.of_nat 0 - 1)%Z with (-1)%Z in Hdig.
      rewrite (@getitem_last d Hd) in Hdig.
      replace (length d - 1) with 0 in Hdig by lia.
      rewrite Hc in Hdig. cbn [char_is] in Hdig.
      change (isdigit (ch ".") = true) in Hdig. congruence.
    + replace (Z.of_nat (S p') - 1)%Z with (Z.of_nat p') in Hdig by lia.
      rewrite getitem_nat in Hdig.
      destruct (nth_error d p') as [c'|] eqn:Hc'; [|discriminate].
      now exists p', c'.
  - intros [Hlen [Hdot [p' [c' [-> [Hc' Hdig]]]]]].
    rewrite Hdot. cbn [char_is]. rewrite N.eqb_refl.
    replace (Z.of_nat (S p') - 1)%Z with (Z.of_nat p') by lia.
    rewrite getitem_nat, Hc'. cbn [char_is]. repeat split; [lia | exact Hdig].
Qed.

Lemma short_keyword_prefix_test (ex : JSONDecodeError) :
  (Z.of_nat (length (ex_doc ex)) - Z.of_nat (ex_pos ex) <? Z.of_nat MAX_KEYWORD_LEN)%Z
  && existsb (fun kw => startswith kw (skipn (ex_pos ex) (ex_doc ex)) 0) KEYWORDS = true
  <-> short_keyword_prefix ex.
Proof.
  unfold short_keyword_prefix, remainder.
  rewrite andb_true_iff, Z.ltb_lt, existsb_exists, length_skipn. split.
  - intros [Hlen [kw [Hin Hkw]]]. exists kw.
    rewrite startswith_0, is_prefix_spec in Hkw.
    split; [exact Hin | split; [exact Hkw |]].
    assert (0 < MAX_KEYWORD_LEN) by (vm_compute; lia). lia.
  - intros [kw [Hin [Hkw Hlen]]].
    split; [lia|]. exists kw.
    now rewrite startswith_0, is_prefix_spec.
Qed.

Section Classifier.
Context `{UnicodeDB} {value : Type} `{PyObject value} {file : Type} `{TextIO file}.

(** One turn of the loop. *)
Lemma decode_loop_turn (fuel : nat) (self : DecodeStream) :
  decode_loop (S fuel) self
  = match raw_decode (decoder self) (partial_doc self) (cursor self) with
    | Raise (DecodeError ex) =>
        if _match_error ex then
          match _try_read self (skipn (cursor self) (partial_doc self)) with
          | Return (true, self') => decode_loop fuel self'
          | Return (false, self') => Throw (DecodeError (_update_error self' ex))
          | Raise e => Throw e
          | NoFuel => Starved
          end
        else Throw (DecodeError (_update_error self ex))
    | Raise e => Throw e
    | NoFuel => Starved
    | Return (obj, new_pos) =>
        if (Z.of_nat new_pos >=? Z.of_nat (length (partial_doc self)) - 1)%Z
           && is_number self obj
        then
          match _try_read self (skipn (cursor self) (partial_doc self)) with
          | Return (true, self') => decode_loop fuel self'
          | Return (false, self') => Yield obj (pc_yielded, set_pos self' new_pos)
          | Raise e => Throw e
          | NoFuel => Starved
          end
        else Yield obj (pc_yielded, set_pos self new_pos)
    end.
Proof. reflexivity. Qed.

(** The generator is only ever suspended with [self.pos] set, so
    [cursor] never stands for a [None]. *)
Lemma yielded_state_has_a_position (fuel : nat) :
  forall (self self' : DecodeStream) (obj : value) (pc : stream_pc),
    decode_loop fuel self = Yield obj (pc, self') ->
    pc = pc_yielded /\ exists p, pos self' = Some p.
Proof.
  induction fuel as [|fuel IH]; intros self self' obj pc; [discriminate|].
  rewrite decode_loop_turn.
  destruct (raw_decode (decoder self) (partial_doc self) (cursor self))
    as [[o new_pos]| [ex| | | |] |]; try discriminate.
  - destruct (_ && _).
    + destruct (_try_read self (skipn (cursor self) (partial_doc self)))
        as [[[|] s1]| |]; try discriminate.
      * apply IH.
      * intros [= _ <- <-]. split; [reflexivity | now exists new_pos].
    + intros [= _ <- <-]. split; [reflexivity | now exists new_pos].
  - destruct (_match_error ex); [|discriminate].
    destruct (_try_read self (skipn (cursor self) (partial_doc self)))
      as [[[|] s1]| |]; try discriminate.
    apply IH.
Qed.

(** A decode error the classifier does not match ends the iteration: it is
    raised, with the stream offset added, and nothing is read. *)
Lemma unmatched_error_is_terminal (fuel : nat) (self : DecodeStream)
  (ex : JSONDecodeError) :
  raw_decode (decoder self) (partial_doc self) (cursor self) = Raise (DecodeError ex) ->
  _match_error ex = false ->
  decode_loop (S fuel) self = Throw (DecodeError (_update_error self ex)).
Proof. intros Hdec Hno. simpl. now rewrite Hdec, Hno. Qed.

(** The classifier on any record of an error, in the terms of the code:
    [_match_error ex] is true precisely when the kind of [ex] is
    unterminated-string, or is one of the three expecting kinds and (i)
    [ex.pos] is the end of the buffered document, or (ii) [ex.pos] is one
    before the end, with a decimal point as last buffered character and a
    digit just before it, or (iii) the kind is expecting-a-value and the
    remainder [ex.doc[ex.pos:]] is a prefix of a known keyword, shorter
    than the longest known keyword.  When it is false the generator
    raises the error without reading. *)
Lemma match_error_characterised (ex : JSONDecodeError) :
  isdigit (ch ".") = false ->
  (_match_error ex = true <-> retriable_with short_keyword_prefix ex)
  /\ (_match_error ex = false ->
      forall (fuel : nat) (self : DecodeStream),
        raw_decode (decoder self) (partial_doc self) (cursor self)
        = Raise (DecodeError ex) ->
        decode_loop (S fuel) self = Throw (DecodeError (_update_error self ex))).
Proof.
  intros Hpoint. split.
  - unfold _match_error, retriable_with. cbv zeta.
    rewrite expecting_prefix, re_match_kind.
    destruct (kind_of (ex_msg ex)) as [k|] eqn:K; [|easy].
    destruct k; [easy | | |];
      rewrite !orb_true_iff, at_end_test, (point_at_end_test ex Hpoint),
        <- andb_assoc, andb_true_iff, short_keyword_prefix_test,
        (@expecting_value_prefix _ _ K) by discriminate;
      tauto.
  - intros Hno fuel self Hdec. now apply unmatched_error_is_terminal.
Qed.

End Classifier.

(** On a record that holds a whole keyword as its remainder the test of
    the code and the wording of the specification part: the classifier
    answers true, and the remainder is a strict prefix of no keyword.  The
    decoder raises no such error: where it stops no keyword starts. *)
Remark match_error_accepts_whole_keyword :
  _match_error whole_keyword_error = true
  /\ ~ retriable_with strict_keyword_prefix whole_keyword_error.
Proof.
  split; [reflexivity|].
  unfold retriable_with.
  change (kind_of (ex_msg whole_keyword_error)) with (Some expecting_value).
  intros [Hend | [[Hlen _] | [_ [kw [Hin [[t [Ht E]] _]]]]]].
  - discriminate Hend.
  - discriminate Hlen.
  - simpl in Hin.
    repeat (destruct Hin as [<- | Hin]; [vm_compute in E; try discriminate E|]);
      [|contradiction].
    injection E as <-. now elim Ht.
Qed.

(** ** The separator policies *)

Lemma startswith_occurs (separator document : str) (pos : nat) :
  startswith document separator pos = true <-> occurs_at separator document pos.
Proof.
  unfold startswith, occurs_at.
  rewrite andb_true_iff, Nat.leb_le, is_prefix_spec. split.
  - intros [Hle [after Hafter]].
    exists (firstn pos document), after. split.
    + now rewrite <- Hafter, firstn_skipn.
    + apply firstn_length_le, Hle.
  - intros [before [after [-> <-]]]. split.
    + rewrite !length_app. lia.
    + exists after. rewrite skipn_app, skipn_all, Nat.sub_diag. reflexivity.
Qed.

(** C6.  [next_position_by_separator] is a function of the separator, the
    document and the position alone: it gives [pos + len(separator)] when
    the separator occurs in the document exactly at [pos]; otherwise [None]
    when [pos] is the length of the document; otherwise it raises the
    delimiter-expected error.  Used by the method [next_pos] of a stream
    decoder, a position it finds changes [self.pos] and nothing else. *)
Theorem next_position_by_separator_cases (separator document : str) (pos : nat) :
  (occurs_at separator document pos ->
   next_position_by_separator separator document pos
   = Return (Some (pos + length separator)))
  /\ (~ occurs_at separator document pos -> pos = length document ->
      next_position_by_separator separator document pos = Return None)
  /\ (~ occurs_at separator document pos -> pos <> length document ->
      next_position_by_separator separator document pos
      = Raise (ValueError (Expected_delimiter separator)))
  /\ (forall (value : Type) (objects : PyObject value) (file : Type) (io : TextIO file)
        (self : DecodeStream) (fuel new_pos : nat),
        next_pos_helper self = next_position_by_separator separator ->
        next_position_by_separator separator (partial_doc self) (cursor self)
        = Return (Some new_pos) ->
        next_pos (S fuel) self = Return (true, set_pos self new_pos)
        /\ partial_doc (set_pos self new_pos) = partial_doc self
        /\ stream (set_pos self new_pos) = stream self
        /\ stream_offset (set_pos self new_pos) = stream_offset self).
Proof.
  assert (Hengine :
    forall (value : Type) (objects : PyObject value) (file : Type) (io : TextIO file)
      (self : DecodeStream) (fuel new_pos : nat),
      next_pos_helper self = next_position_by_separator separator ->
      next_position_by_separator separator (partial_doc self) (cursor self)
      = Return (Some new_pos) ->
      next_pos (S fuel) self = Return (true, set_pos self new_pos)
      /\ partial_doc (set_pos self new_pos) = partial_doc self
      /\ stream (set_pos self new_pos) = stream self
      /\ stream_offset (set_pos self new_pos) = stream_offset self).
  { intros * Hh Hp. simpl. now rewrite Hh, Hp. }
  unfold next_position_by_separator in *.
  destruct (startswith document separator pos) eqn:Hs.
  - apply startswith_occurs in Hs.
    split; [easy | split; [easy | split; [easy | exact Hengine]]].
  - assert (Hno : ~ occurs_at separator document pos)
      by (rewrite <- startswith_occurs, Hs; discriminate).
    split; [easy | split; [| split; [| exact Hengine]]].
    + intros _ ->. now rewrite Nat.eqb_refl.
    + intros _ Hne. apply Nat.eqb_neq in Hne. now rewrite Hne.
Qed.

(** ** The checks of [loads] and of the constructor *)

(** C9.  [loads] rejects a [str] that begins with the byte order mark
    U+FEFF with a decode error whose message names [utf-8-sig], and an
    argument that is no [str], [bytes] or [bytearray] with a type error;
    both are raised by the call itself, whatever the decoder, so no value
    has been parsed.  [bytes] and [bytearray] are decoded as UTF-8 and the
    generator runs over the decoded text. *)
Theorem loads_checks_its_argument `{UnicodeDB} (value : Type)
  (decoder : JSONDecoder value) (separator : option str) :
  (forall s : str,
      loads decoder (a_str (BOM :: s)) separator
      = Raise (DecodeError
                 (new_JSONDecodeError
                    (lit "Unexpected UTF-8 BOM (decode using utf-8-sig)") (BOM :: s) 0)))
  /\ (forall class_name : str,
         loads decoder (a_other class_name) separator
         = Raise (TypeError
                    (lit "the JSON object must be str, bytes or bytearray, not "
                       ++ class_name)))
  /\ (forall (b : list Byte.byte),
         loads decoder (a_bytearray b) separator = loads decoder (a_bytes b) separator
         /\ (utf8 (map Byte.to_N b) = None ->
             loads decoder (a_bytes b) separator = Raise UnicodeDecodeError)
         /\ (forall s : str,
                utf8 (map Byte.to_N b) = Some s ->
                loads decoder (a_bytes b) separator
                = Return (s, fst (get_first_pos_and_next_pos_func separator),
                          decode_stacked s decoder
                            (fst (get_first_pos_and_next_pos_func separator))
                            (snd (get_first_pos_and_next_pos_func separator))))).
Proof.
  split; [|split].
  - intros s. reflexivity.
  - reflexivity.
  - intros b. split; [reflexivity|]. split.
    + intros Hb. simpl. now rewrite Hb.
    + intros s Hs. simpl. rewrite Hs.
      now destruct (get_first_pos_and_next_pos_func separator).
Qed.

(** The bytes of the text ["$$$ != £££"], quotes included, decode to one
    string of ten characters. *)
Example loads_decodes_bytes :
  list_loads default_decoder 4
    (a_bytes (map (fun n => match Byte.of_N n with Some b => b | None => Byte.x00 end)
                [34; 36; 36; 36; 32; 33; 61; 32; 194; 163; 194; 163; 194; 163; 34]%N))
    None
  = ([PyStr [36; 36; 36; 32; 33; 61; 32; 163; 163; 163]%N], Exhausted).
Proof. vm_compute. reflexivity. Qed.

(** C10.  Constructing a [DecodeStream], and so calling [load], with a
    [bufsize] below 1 raises [ValueError]; with a [bufsize] of at least 1
    it succeeds, and the object holds the source as it was given, an empty
    buffer and the given stream offset.  Neither [__init__] nor [load]
    takes the [read] operation of the source, so neither can read. *)
Theorem bufsize_is_checked_by_the_constructor `{UnicodeDB} (value : Type)
  (objects : PyObject value) (file : Type) (fp : file) (decoder : JSONDecoder value)
  (next_pos : next_pos_func) (pos : option nat)
  (parse_int parse_float : option (str -> value)) (separator : option str)
  (bufsize : Z) (max_bufsize : option Z) (offset : Z) :
  ((bufsize < 1)%Z ->
   __init__ fp decoder next_pos pos parse_int parse_float
            bufsize max_bufsize offset
   = Raise (ValueError expect_positive_value_for_bufsize)
   /\ load fp decoder parse_int parse_float separator bufsize max_bufsize offset
      = Raise (ValueError expect_positive_value_for_bufsize))
  /\ ((1 <= bufsize)%Z ->
      (exists self : DecodeStream,
          __init__ fp decoder next_pos pos parse_int parse_float
                   bufsize max_bufsize offset = Return self
          /\ stream self = fp /\ partial_doc self = []
          /\ stream_offset self = offset)
      /\ (exists self : DecodeStream,
             load fp decoder parse_int parse_float separator
                  bufsize max_bufsize offset = Return (pc_start, self)
             /\ stream self = fp /\ partial_doc self = []
             /\ stream_offset self = offset)).
Proof.
  unfold load, __init__.
  destruct (get_first_pos_and_next_pos_func separator) as [np p0].
  split.
  - intros Hlt. apply Z.ltb_lt in Hlt. now rewrite Hlt.
  - intros Hge. apply Z.ltb_ge in Hge. rewrite Hge.
    split; eexists; (split; [reflexivity | easy]).
Qed.

(** ** Refilling the buffer *)

Lemma StringIO_bounded_reads : bounded_reads str.
Proof.
  intros s n Hn. simpl.
  destruct (Z.ltb_spec n 0); [lia|]. simpl.
  rewrite length_firstn. lia.
Qed.

Section Refill.
Context `{UnicodeDB} {value : Type} `{PyObject value} {file : Type} `{TextIO file}.

(** What a refill that returns leaves behind. *)
Lemma try_read_returns (self self' : DecodeStream) (remaining_buffer : str)
  (new_data : bool) :
  _try_read self remaining_buffer = Return (new_data, self') ->
  exists (n : Z) (new : str),
    to_read self remaining_buffer = Return n
    /\ read (stream self) n = (new, stream self')
    /\ new_data = match new with [] => false | _ :: _ => true end
    /\ partial_doc self' = remaining_buffer ++ new
    /\ pos self' = Some 0
    /\ stream_offset self'
       = (stream_offset self + (Z.of_nat (length (partial_doc self))
                                - Z.of_nat (length remaining_buffer)))%Z
    /\ bufsize self' = bufsize self /\ max_bufsize self' = max_bufsize self
    /\ next_pos_helper self' = next_pos_helper self
    /\ decoder self' = decoder self /\ number_types self' = number_types self.
Proof.
  unfold _try_read.
  destruct (to_read self remaining_buffer) as [n| |]; [|discriminate..].
  destruct (read (stream self) n) as [new stream'] eqn:Hread.
  intros [= <- <-]. exists n, new. simpl. repeat split; try reflexivity. exact Hread.
Qed.

(** A refill that raises ends the iteration at once, from either place
    the loop refills and from the search for the next document. *)
Lemma refill_error_is_fatal (fuel : nat) (self : DecodeStream) (e : exn) :
  (forall ex,
      raw_decode (decoder self) (partial_doc self) (cursor self) = Raise (DecodeError ex) ->
      _match_error ex = true ->
      _try_read self (skipn (cursor self) (partial_doc self)) = Raise e ->
      decode_loop (S fuel) self = Throw e)
  /\ (forall obj new_pos,
         raw_decode (decoder self) (partial_doc self) (cursor self)
         = Return (obj, new_pos) ->
         (Z.of_nat new_pos >=? Z.of_nat (length (partial_doc self)) - 1)%Z
         && is_number self obj = true ->
         _try_read self (skipn (cursor self) (partial_doc self)) = Raise e ->
         decode_loop (S fuel) self = Throw e)
  /\ (next_pos_helper self (partial_doc self) (cursor self) = Return None ->
      _try_read self [] = Raise e ->
      next_pos (S fuel) self = Raise e
      /\ _decode_stream_generator (S fuel) (pc_yielded, self) = Throw e
      /\ consume (_decode_stream_generator (S fuel)) (S fuel) (pc_yielded, self)
         = ([], Raised e)).
Proof.
  split; [|split].
  - intros ex Hdec Hm Hr. simpl. now rewrite Hdec, Hm, Hr.
  - intros obj new_pos Hdec Hc Hr. simpl. now rewrite Hdec, Hc, Hr.
  - intros Hh Hr.
    assert (Hnext : next_pos (S fuel) self = Raise e) by (simpl; now rewrite Hh, Hr).
    split; [exact Hnext|].
    unfold consume, _decode_stream_generator. now rewrite Hnext.
Qed.

(** C4.  With a bound [max_bufsize], a refill that returns leaves a buffer
    no longer than the bound: a request that would overflow it is shrunk
    to what is left of the bound, and when nothing is left the refill
    raises the buffer-size error without reading, which ends the
    iteration. *)
Theorem refill_respects_max_bufsize (self : DecodeStream) (remaining_buffer : str)
  (bound : Z) :
  bounded_reads file ->
  (1 <= bufsize self)%Z ->
  max_bufsize self = Some bound ->
  let len_rem := Z.of_nat (length remaining_buffer) in
  (forall new_data self',
      _try_read self remaining_buffer = Return (new_data, self') ->
      (Z.of_nat (length (partial_doc self')) <= bound)%Z)
  /\ ((len_rem + bufsize self <= bound)%Z ->
      to_read self remaining_buffer = Return (bufsize self))
  /\ ((len_rem + bufsize self > bound)%Z -> (len_rem < bound)%Z ->
      to_read self remaining_buffer = Return (bound - len_rem)%Z)
  /\ ((bound <= len_rem)%Z ->
      _try_read self remaining_buffer = Raise (ValueError max_buffer_size_exceeded))
  /\ (forall fuel,
         remaining_buffer = skipn (cursor self) (partial_doc self) ->
         (bound <= len_rem)%Z ->
         (forall ex,
             raw_decode (decoder self) (partial_doc self) (cursor self)
             = Raise (DecodeError ex) ->
             _match_error ex = true ->
             decode_loop (S fuel) self = Throw (ValueError max_buffer_size_exceeded))
         /\ (forall obj new_pos,
                raw_decode (decoder self) (partial_doc self) (cursor self)
                = Return (obj, new_pos) ->
                (Z.of_nat new_pos >=? Z.of_nat (length (partial_doc self)) - 1)%Z
                && is_number self obj = true ->
                decode_loop (S fuel) self
                = Throw (ValueError max_buffer_size_exceeded))).
Proof.
  intros Hread Hbuf Hmax len_rem.
  assert (Hshrink : (len_rem + bufsize self > bound)%Z -> (len_rem < bound)%Z ->
                    to_read self remaining_buffer = Return (bound - len_rem)%Z).
  { intros Hover Hroom. unfold to_read. rewrite Hmax. fold len_rem.
    destruct (Z.gtb_spec (len_rem + bufsize self) bound); [|lia].
    destruct (Z.leb_spec (bound - len_rem) 0); [lia | reflexivity]. }
  assert (Hplain : (len_rem + bufsize self <= bound)%Z ->
                   to_read self remaining_buffer = Return (bufsize self)).
  { intros Hfit. unfold to_read. rewrite Hmax. fold len_rem.
    destruct (Z.gtb_spec (len_rem + bufsize self) bound); [lia | reflexivity]. }
  assert (Hfull : (bound <= len_rem)%Z ->
                  _try_read self remaining_buffer
                  = Raise (ValueError max_buffer_size_exceeded)).
  { intros Hfull. unfold _try_read, to_read. rewrite Hmax. fold len_rem.
    destruct (Z.gtb_spec (len_rem + bufsize self) bound); [|lia].
    destruct (Z.leb_spec (bound - len_rem) 0); [reflexivity | lia]. }
  split; [|split; [exact Hplain | split; [exact Hshrink | split; [exact Hfull|]]]].
  - intros new_data self' Hret.
    destruct (try_read_returns _ _ Hret) as (n & new & Hn & Hr & _ & Hdoc & _).
    rewrite Hdoc, length_app, Nat2Z.inj_add. fold len_rem.
    assert (Hnew : (Z.of_nat (length new) <= n)%Z /\ (len_rem + n <= bound)%Z).
    { destruct (Z.le_gt_cases (len_rem + bufsize self) bound) as [Hfit | Hover].
      - rewrite (Hplain Hfit) in Hn. injection Hn as <-.
        specialize (Hread (stream self) (bufsize self)). rewrite Hr in Hread.
        simpl in Hread. lia.
      - destruct (Z.le_gt_cases bound len_rem) as [Hnone | Hroom].
        + rewrite (Hfull Hnone) in Hret. discriminate.
        + rewrite Hshrink in Hn by lia. injection Hn as <-.
          specialize (Hread (stream self) (bound - len_rem)%Z). rewrite Hr in Hread.
          simpl in Hread. lia. }
    lia.
  - intros fuel Htail Hnone. specialize (Hfull Hnone). rewrite Htail in Hfull.
    destruct (refill_error_is_fatal fuel self (ValueError max_buffer_size_exceeded))
      as (Herr & Hnum & _).
    split.
    + intros ex Hdec Hm. now apply (Herr ex).
    + intros obj new_pos Hdec Hc. now apply (Hnum obj new_pos).
Qed.

End Refill.

(** The bound at the decoder of the buffer-bound test: a refill that keeps
    the six buffered characters raises, one that keeps none stays within
    the bound. *)
Lemma refill_respects_max_bufsize_witness :
  bounded_reads str
  /\ (1 <= bufsize tiny_stream)%Z
  /\ max_bufsize tiny_stream = Some 6%Z
  /\ _try_read tiny_stream (quoted "tiny") = Raise (ValueError max_buffer_size_exceeded)
  /\ (forall new_data self',
         _try_read tiny_stream [] = Return (new_data, self') ->
         (Z.of_nat (length (partial_doc self')) <= 6)%Z).
Proof.
  assert (Hone : (1 <= bufsize tiny_stream)%Z) by (vm_compute; discriminate).
  assert (Hmax : max_bufsize tiny_stream = Some 6%Z) by reflexivity.
  split; [exact StringIO_bounded_reads|]. split; [exact Hone|]. split; [exact Hmax|].
  split.
  - apply (@refill_respects_max_bufsize CPython_ucd pyvalue CPython_objects str StringIO
             tiny_stream (quoted "tiny") 6 StringIO_bounded_reads Hone Hmax).
    vm_compute. discriminate.
  - apply (@refill_respects_max_bufsize CPython_ucd pyvalue CPython_objects str StringIO
             tiny_stream [] 6 StringIO_bounded_reads Hone Hmax).
Defined.

(** ** The truncated-number check *)

Section TruncatedNumber.
Context `{UnicodeDB} {value : Type} `{PyObject value} {file : Type} `{TextIO file}.

(** A value that is no number, or that ends two or more characters before
    the end of the buffer, is yielded without a read. *)
Lemma value_inside_buffer_is_yielded (fuel : nat) (self : DecodeStream)
  (obj : value) (new_pos : nat) :
  raw_decode (decoder self) (partial_doc self) (cursor self) = Return (obj, new_pos) ->
  (Z.of_nat new_pos < Z.of_nat (length (partial_doc self)) - 1)%Z
  \/ is_number self obj = false ->
  decode_loop (S fuel) self = Yield obj (pc_yielded, set_pos self new_pos).
Proof.
  intros Hdec Hno. simpl. rewrite Hdec.
  destruct Hno as [Hin | Hnum].
  - destruct (Z.geb_spec (Z.of_nat new_pos) (Z.of_nat (length (partial_doc self)) - 1));
      [lia | reflexivity].
  - now rewrite Hnum, andb_false_r.
Qed.

(** C3.  When a parse succeeds with an end position at, or one before, the
    end of the buffer and the value is an instance of the configured
    number types, the loop refills once from the tail at the cursor.  If
    new data arrives, the result is dropped and the loop parses again at
    position 0 of the new buffer, which is the tail followed by the new
    data; if none arrives, the value is yielded as decoded; if the refill
    raises, the error ends the iteration. *)
Theorem number_at_end_of_buffer_refills (fuel : nat) (self : DecodeStream)
  (obj : value) (new_pos : nat) :
  raw_decode (decoder self) (partial_doc self) (cursor self) = Return (obj, new_pos) ->
  (Z.of_nat (length (partial_doc self)) - 1 <= Z.of_nat new_pos)%Z ->
  is_number self obj = true ->
  let tail := skipn (cursor self) (partial_doc self) in
  (forall self',
      _try_read self tail = Return (true, self') ->
      (exists n new,
          to_read self tail = Return n /\ read (stream self) n = (new, stream self')
          /\ new <> [] /\ partial_doc self' = tail ++ new)
      /\ pos self' = Some 0
      /\ decode_loop (S fuel) self = decode_loop fuel self')
  /\ (forall self',
         _try_read self tail = Return (false, self') ->
         (exists n,
             to_read self tail = Return n /\ read (stream self) n = ([], stream self'))
         /\ partial_doc self' = tail
         /\ decode_loop (S fuel) self = Yield obj (pc_yielded, set_pos self' new_pos))
  /\ (forall e,
         _try_read self tail = Raise e -> decode_loop (S fuel) self = Throw e).
Proof.
  intros Hdec Hend Hnum tail.
  assert (Hcond : (Z.of_nat new_pos >=? Z.of_nat (length (partial_doc self)) - 1)%Z
                  && is_number self obj = true).
  { rewrite Hnum, andb_true_r. apply Z.geb_le. exact Hend. }
  split; [|split].
  - intros self' Hr.
    destruct (try_read_returns _ _ Hr) as (n & new & Hn & Hread & Hnew & Hdoc & Hpos & _).
    split; [|split; [exact Hpos|]].
    + exists n, new. repeat split; try assumption.
      intros ->. discriminate Hnew.
    + simpl. rewrite Hdec, Hcond. fold tail. now rewrite Hr.
  - intros self' Hr.
    destruct (try_read_returns _ _ Hr) as (n & new & Hn & Hread & Hnew & Hdoc & _).
    destruct new as [|c new]; [|discriminate Hnew].
    split; [|split].
    + now exists n.
    + now rewrite Hdoc, app_nil_r.
    + simpl. rewrite Hdec, Hcond. fold tail. now rewrite Hr.
  - intros e Hr. simpl. rewrite Hdec, Hcond. fold tail. now rewrite Hr.
Qed.

End TruncatedNumber.

(** The check at a decoder that has buffered [12] of [123 4]: the refill
    brings new data and the loop parses again over [123 ]. *)
Lemma number_at_end_of_buffer_refills_witness :
  raw_decode (decoder split_number_stream) (partial_doc split_number_stream)
    (cursor split_number_stream) = Return (PyInt 12, 2)
  /\ (Z.of_nat (length (partial_doc split_number_stream)) - 1 <= Z.of_nat 2)%Z
  /\ is_number split_number_stream (PyInt 12) = true
  /\ _try_read split_number_stream (lit "12") = Return (true, split_number_stream_refilled)
  /\ decode_loop 2 split_number_stream = decode_loop 1 split_number_stream_refilled.
Proof.
  assert (Hdec : raw_decode (decoder split_number_stream)
                   (partial_doc split_number_stream) (cursor split_number_stream)
                 = Return (PyInt 12, 2)) by reflexivity.
  assert (Hend : (Z.of_nat (length (partial_doc split_number_stream)) - 1
                  <= Z.of_nat 2)%Z) by (vm_compute; discriminate).
  assert (Hnum : is_number split_number_stream (PyInt 12) = true) by reflexivity.
  assert (Hr : _try_read split_number_stream (lit "12")
               = Return (true, split_number_stream_refilled)) by reflexivity.
  split; [exact Hdec|]. split; [exact Hend|]. split; [exact Hnum|]. split; [exact Hr|].
  apply (@number_at_end_of_buffer_refills CPython_ucd pyvalue CPython_objects str StringIO
           1 split_number_stream (PyInt 12) 2 Hdec Hend Hnum).
  exact Hr.
Defined.

(** ** Input that holds no document *)

Lemma forallb_firstn {A : Type} (p : A -> bool) (n : nat) (l : list A) :
  forallb p l = true -> forallb p (firstn n l) = true.
Proof.
  revert n; induction l as [|a l IH]; intros [|n]; simpl; try reflexivity.
  rewrite !andb_true_iff. intros [Ha Hl]. split; [exact Ha | now apply IH].
Qed.

Lemma forallb_skipn {A : Type} (p : A -> bool) (n : nat) (l : list A) :
  forallb p l = true -> forallb p (skipn n l) = true.
Proof.
  revert n; induction l as [|a l IH]; intros [|n]; simpl; try reflexivity.
  - trivial.
  - rewrite andb_true_iff. intros [_ Hl]. now apply IH.
Qed.

Section NoDocument.
Context `{UnicodeDB} {value : Type} `{PyObject value}.

Lemma search_not_whitespace_none (s : str) (i : nat) :
  forallb isspace s = true -> search_not_whitespace s i = None.
Proof.
  revert i; induction s as [|c s IH]; intros i; simpl; [reflexivity|].
  rewrite andb_true_iff. intros [-> Hs]. now apply IH.
Qed.

Lemma next_position_by_non_whitespace_none (document : str) (pos : nat) :
  forallb isspace document = true ->
  next_position_by_non_whitespace document pos = None.
Proof.
  intros Hws. apply search_not_whitespace_none. now apply forallb_skipn.
Qed.

(** The size of a read into an empty tail is at least one. *)
Lemma to_read_positive (self : @DecodeStream value _ str) :
  (1 <= bufsize self)%Z ->
  (forall m, max_bufsize self = Some m -> (1 <= m)%Z) ->
  exists n, to_read self [] = Return n /\ (1 <= n)%Z.
Proof.
  intros Hbuf Hmax. unfold to_read. simpl length.
  destruct (max_bufsize self) as [m|]; [|now exists (bufsize self)].
  specialize (Hmax m eq_refl).
  destruct (Z.gtb_spec (Z.of_nat 0 + bufsize self) m).
  - destruct (Z.leb_spec (m - Z.of_nat 0) 0); [lia|].
    exists (m - Z.of_nat 0)%Z. split; [reflexivity | lia].
  - now exists (bufsize self).
Qed.

(** At the end of the source a refill brings nothing. *)
Lemma try_read_at_end_of_source (self : @DecodeStream value _ str) :
  stream self = [] ->
  (1 <= bufsize self)%Z ->
  (forall m, max_bufsize self = Some m -> (1 <= m)%Z) ->
  exists self', _try_read self [] = Return (false, self').
Proof.
  intros Hs Hbuf Hmax.
  destruct (@to_read_positive self Hbuf Hmax) as (k & Hk & Hk1).
  unfold _try_read. rewrite Hk, Hs. simpl read.
  destruct (Z.ltb_spec k 0); [lia|]. rewrite firstn_nil. eexists. reflexivity.
Qed.

(** Searching for the first document in whitespace reads the source to
    its end and finds nothing. *)
Lemma next_pos_whitespace_only (n : nat) :
  forall (self : @DecodeStream value _ str) (fuel : nat),
    length (stream self) <= n -> n < fuel ->
    next_pos_helper self = fst (get_first_pos_and_next_pos_func None) ->
    forallb isspace (partial_doc self) = true ->
    forallb isspace (stream self) = true ->
    (1 <= bufsize self)%Z ->
    (forall m, max_bufsize self = Some m -> (1 <= m)%Z) ->
    exists self', next_pos fuel self = Return (false, self').
Proof.
  induction n as [|n IH]; intros self fuel Hlen Hfuel Hhelper Hdoc Hsrc Hbuf Hmax;
    (destruct fuel as [|fuel]; [lia|]);
    simpl next_pos; rewrite Hhelper; simpl fst;
    rewrite next_position_by_non_whitespace_none by exact Hdoc;
    destruct (@to_read_positive self Hbuf Hmax) as (k & Hk & Hk1);
    unfold _try_read; rewrite Hk; simpl read;
    (destruct (Z.ltb_spec k 0); [lia|]).
  - destruct (stream self) as [|c rest]; [|simpl in Hlen; lia].
    rewrite firstn_nil. eexists. reflexivity.
  - destruct (stream self) as [|c rest] eqn:Hs.
    + rewrite firstn_nil. eexists. reflexivity.
    + destruct (Z.to_nat k) as [|k'] eqn:Hk'; [lia|].
      rewrite firstn_cons, skipn_cons. cbv iota.
      apply IH; simpl.
      * rewrite length_skipn. simpl in Hlen. lia.
      * lia.
      * exact Hhelper.
      * simpl in Hsrc. apply andb_true_iff in Hsrc as [Hc Hrest].
        rewrite Hc. now apply forallb_firstn.
      * simpl in Hsrc. apply andb_true_iff in Hsrc as [_ Hrest].
        now apply forallb_skipn.
      * exact Hbuf.
      * exact Hmax.
Qed.

(** C8.  An input that consists of whitespace only, the empty input
    included, yields nothing and raises nothing, from [loads] and from
    [load] at every [bufsize] of at least 1 (with no bound on the buffer,
    or a bound of at least 1); the empty input does so under a literal
    separator as well. *)
Theorem whitespace_only_input_yields_nothing (decoder : JSONDecoder value) (s : str)
  (parse_int parse_float : option (str -> value)) (bufsize : Z)
  (max_bufsize : option Z) (offset : Z) (fuel rounds : nat) :
  isspace BOM = false ->
  forallb isspace s = true ->
  (1 <= bufsize)%Z ->
  (forall m, max_bufsize = Some m -> (1 <= m)%Z) ->
  length s < fuel ->
  0 < rounds ->
  list_loads decoder rounds (a_str s) None = ([], Exhausted)
  /\ list_load fuel s decoder parse_int parse_float None bufsize max_bufsize offset
     = ([], Exhausted)
  /\ (forall separator,
         list_loads decoder rounds (a_str (lit "")) separator = ([], Exhausted)
         /\ list_load fuel (lit "") decoder parse_int parse_float separator
                      bufsize max_bufsize offset = ([], Exhausted)).
Proof.
  intros Hbom Hws Hbuf Hmax Hfuel Hrounds.
  destruct rounds as [|rounds]; [lia|].
  destruct fuel as [|fuel]; [lia|].
  assert (Hlt : (bufsize <? 1)%Z = false) by now apply Z.ltb_ge.
  split; [|split].
  - unfold list_loads, loads.
    assert (Hstart : startswith s [BOM] 0 = false).
    { destruct s as [|c s']; [reflexivity|]. unfold startswith.
      cbn [skipn is_prefix].
      simpl in Hws. apply andb_true_iff in Hws as [Hc _].
      destruct (N.eqb_spec BOM c) as [<-|_]; [congruence | reflexivity]. }
    rewrite Hstart. simpl.
    destruct s as [|c s']; [reflexivity|].
    now rewrite next_position_by_non_whitespace_none by exact Hws.
  - unfold list_load, load, __init__. simpl get_first_pos_and_next_pos_func.
    cbv iota beta. rewrite Hlt.
    unfold consume, _decode_stream_generator. simpl pos.
    match goal with
    | |- context [next_pos _ ?st] =>
        destruct (@next_pos_whitespace_only (length s) st (S fuel)) as [self' Hn];
        try (simpl; easy); try lia
    end.
    now rewrite Hn.
  - intros separator. change (lit "") with (@nil N : str). split.
    + unfold list_loads, loads. simpl.
      now destruct (get_first_pos_and_next_pos_func separator).
    + unfold list_load, load, __init__.
      destruct separator as [sep|].
      * simpl get_first_pos_and_next_pos_func. cbv iota beta. rewrite Hlt.
        unfold consume, _decode_stream_generator. simpl pos. simpl partial_doc.
        match goal with
        | |- context [_try_read ?st []] =>
            destruct (@try_read_at_end_of_source st) as [self' Hr]; try (simpl; easy)
        end.
        now rewrite Hr.
      * simpl get_first_pos_and_next_pos_func. cbv iota beta. rewrite Hlt.
        unfold consume, _decode_stream_generator. simpl pos.
        match goal with
        | |- context [next_pos _ ?st] =>
            destruct (@next_pos_whitespace_only 0 st (S fuel)) as [self' Hn];
            try (simpl; easy); try lia
        end.
        now rewrite Hn.
Qed.

End NoDocument.

(** The whitespace-only text of the tests, read one character at a time. *)
Lemma whitespace_only_input_yields_nothing_witness :
  forallb isspace whitespace_text = true
  /\ list_loads default_decoder 1 (a_str whitespace_text) None = ([], Exhausted)
  /\ list_load 5 whitespace_text default_decoder None None None 1 None 0
     = ([], Exhausted).
Proof.
  split; [reflexivity|].
  assert (Hfuel : length whitespace_text < 5) by (vm_compute; lia).
  assert (Hmax : forall m : Z, @None Z = Some m -> (1 <= m)%Z) by discriminate.
  destruct (@whitespace_only_input_yields_nothing CPython_ucd pyvalue CPython_objects
              default_decoder whitespace_text None None 1 None 0 5 1
              eq_refl eq_refl (Z.le_refl 1) Hmax Hfuel (Nat.lt_0_succ 0))
    as (Hloads & Hload & _).
  split; assumption.
Defined.

(** ** The decoder on a character that starts no value *)

Lemma skipn_nth_error {A : Type} (l : list A) (n : nat) (a : A) :
  nth_error l n = Some a -> exists rest, skipn n l = a :: rest.
Proof.
  revert n; induction l as [|x l IH]; intros [|n]; simpl; try discriminate.
  - intros [= ->]. now exists l.
  - apply IH.
Qed.











(** ** Where the stream decoder and the string decoder part ways *)

(** C1 fails on the code.  The document [[1e5]] is well formed and [loads]
    decodes it; [load] reading one character at a time stops at the buffer
    [[1e], where the decoder reports [Expecting ',' delimiter] one before
    the end of the buffer, an error the retry classifier takes for final
    because the last buffered character is no decimal point. *)
Theorem load_rejects_a_split_exponent :
  list_loads default_decoder 2 (a_str (lit "[1e5]")) None
  = ([PyList [PyFloat (lit "1e5")]], Exhausted)
  /\ list_load 8 (lit "[1e5]") default_decoder None None None 1048576 None 0
     = ([PyList [PyFloat (lit "1e5")]], Exhausted)
  /\ exists ex : JSONDecodeError,
      list_load 8 (lit "[1e5]") default_decoder None None None 1 None 0
      = ([], Raised (DecodeError ex))
      /\ ex_msg ex = lit "Expecting ',' delimiter"
      /\ ex_doc ex = lit "[1e"
      /\ ex_pos ex = 2.
Proof.
  split; [vm_compute; reflexivity|]. split; [vm_compute; reflexivity|].
  eexists. split; [vm_compute; reflexivity|]. repeat split.
Qed.

(** Two more inputs on which [load] and [loads] differ.  A separator of
    two characters that a refill cuts in half is reported as missing; and
    after a number that ends the source, the position of the old buffer is
    kept for the new one, so the end of the input is not recognised. *)
Example load_rejects_a_split_separator :
  list_loads default_decoder 3 (a_str (lit "[]ab[]")) (Some (lit "ab"))
  = ([PyList []; PyList []], Exhausted)
  /\ list_load 8 (lit "[]ab[]") default_decoder None None (Some (lit "ab")) 1 None 0
     = ([PyList []], Raised (ValueError (Expected_delimiter (lit "ab")))).
Proof. split; vm_compute; reflexivity. Qed.

Example load_rejects_a_final_number :
  list_loads default_decoder 3 (a_str (lit "1,2")) (Some (lit ","))
  = ([PyInt 1; PyInt 2], Exhausted)
  /\ list_load 8 (lit "1,2") default_decoder None None (Some (lit ",")) 1048576 None 0
     = ([PyInt 1; PyInt 2], Raised (ValueError (Expected_delimiter (lit ",")))).
Proof. split; vm_compute; reflexivity. Qed.

(** ** The stream offset *)

(** C5 fails on the code.  On the input [1.], [loads] reports
    [Expecting value] at position 1.  [load] reports position 1 as well,
    but with stream offset 1: the classifier asks for a refill, the refill
    finds the source at its end and drops the one character before the
    cursor, and the error, whose position still refers to the buffer
    before that refill, is given the stream offset after it.  Position
    plus stream offset is 2, beyond the last character of the input. *)
Theorem stream_offset_after_a_failed_refill :
  list_loads default_decoder 3 (a_str (lit "1.")) None
  = ([PyInt 1],
     Raised (DecodeError (new_JSONDecodeError (lit "Expecting value") (lit "1.") 1)))
  /\ exists ex : JSONDecodeError,
      list_load 8 (lit "1.") default_decoder None None None 1048576 None 0
      = ([PyInt 1], Raised (DecodeError ex))
      /\ ex_msg ex = lit "Expecting value"
      /\ ex_doc ex = lit "1."
      /\ ex_pos ex = 1
      /\ ex_stream_offset ex = Some 1%Z.
Proof.
  split; [vm_compute; reflexivity|].
  eexists. split; [vm_compute; reflexivity|]. repeat split.
Qed.

Section Offset.
Context `{UnicodeDB} {value : Type} `{PyObject value} {file : Type} `{TextIO file}.

(** A refill from a tail of the buffer advances the stream offset by the
    number of characters in front of the tail. *)
Lemma try_read_tail_offset (self self' : DecodeStream) (n : nat) (new_data : bool) :
  _try_read self (skipn n (partial_doc self)) = Return (new_data, self') ->
  stream_offset self'
  = (stream_offset self + Z.of_nat (Nat.min n (length (partial_doc self))))%Z.
Proof.
  intros Hr. destruct (try_read_returns _ _ Hr) as (_ & _ & _ & _ & _ & _ & _ & Hoff & _).
  rewrite Hoff, length_skipn. lia.
Qed.

Lemma try_read_empty_offset (self self' : DecodeStream) (new_data : bool) :
  _try_read self [] = Return (new_data, self') ->
  stream_offset self'
  = (stream_offset self + Z.of_nat (length (partial_doc self)))%Z.
Proof.
  intros Hr. destruct (try_read_returns _ _ Hr) as (_ & _ & _ & _ & _ & _ & _ & Hoff & _).
  rewrite Hoff. simpl. lia.
Qed.

Lemma next_pos_offset (fuel : nat) :
  forall (self self' : DecodeStream) (found : bool),
    next_pos fuel self = Return (found, self') ->
    (stream_offset self <= stream_offset self')%Z.
Proof.
  induction fuel as [|fuel IH]; intros self self' found; simpl; [discriminate|].
  destruct (next_pos_helper self (partial_doc self) (cursor self)) as [[p|]| |];
    try discriminate.
  - intros [= _ <-]. simpl. lia.
  - destruct (_try_read self []) as [[[|] s1]| |] eqn:Hr; try discriminate.
    + intros Hn. apply IH in Hn. apply try_read_empty_offset in Hr. lia.
    + intros [= _ <-]. apply try_read_empty_offset in Hr. lia.
Qed.

Lemma decode_loop_offset (fuel : nat) :
  forall (self self' : DecodeStream) (obj : value) (pc : stream_pc),
    decode_loop fuel self = Yield obj (pc, self') ->
    (stream_offset self <= stream_offset self')%Z.
Proof.
  induction fuel as [|fuel IH]; intros self self' obj pc; [discriminate|].
  rewrite decode_loop_turn.
  destruct (raw_decode (decoder self) (partial_doc self) (cursor self))
    as [[o new_pos]| [ex| | | |] |]; try discriminate.
  - destruct (_ && _).
    + destruct (_try_read self (skipn (cursor self) (partial_doc self)))
        as [[[|] s1]| |] eqn:Hr; try discriminate.
      * intros Hl. apply IH in Hl. apply try_read_tail_offset in Hr. lia.
      * intros [= _ _ <-]. apply try_read_tail_offset in Hr. simpl. lia.
    + intros [= _ _ <-]. simpl. lia.
  - destruct (_match_error ex); [|discriminate].
    destruct (_try_read self (skipn (cursor self) (partial_doc self)))
      as [[[|] s1]| |] eqn:Hr; try discriminate.
    intros Hl. apply IH in Hl. apply try_read_tail_offset in Hr. lia.
Qed.

(** X1.  Each refill advances [stream_offset] by the length of the old
    buffer less the length of the tail that is kept, and between two values that
    the generator yields the stream offset does not decrease. *)
Theorem stream_offset_never_decreases :
  (forall (self self' : DecodeStream) (remaining_buffer : str) (new_data : bool),
      _try_read self remaining_buffer = Return (new_data, self') ->
      stream_offset self'
      = (stream_offset self + (Z.of_nat (length (partial_doc self))
                               - Z.of_nat (length remaining_buffer)))%Z)
  /\ (forall (fuel : nat) (pc pc' : stream_pc) (self self' : DecodeStream) (obj : value),
         _decode_stream_generator fuel (pc, self) = Yield obj (pc', self') ->
         (stream_offset self <= stream_offset self')%Z).
Proof.
  split.
  - intros self self' remaining_buffer new_data Hr.
    now destruct (try_read_returns _ _ Hr) as (_ & _ & _ & _ & _ & _ & _ & Hoff & _).
  - intros fuel pc pc' self self' obj. unfold _decode_stream_generator.
    assert (Henter :
      forall (s0 : @DecodeStream value _ file)
             (r : res (bool * @DecodeStream value _ file)),
        (forall found s1, r = Return (found, s1) ->
                                     (stream_offset s0 <= stream_offset s1)%Z) ->
                   enter_loop fuel r = Yield obj (pc', self') ->
                   (stream_offset s0 <= stream_offset self')%Z).
    { intros s0 r Hr. unfold enter_loop.
      destruct r as [[[|] s1]| |]; try discriminate.
      intros Hl. apply decode_loop_offset in Hl.
      specialize (Hr true s1 eq_refl). lia. }
    destruct pc; [| |discriminate].
    + destruct (pos self).
      * apply Henter. intros found s1 Hr.
        change (partial_doc self) with (skipn 0 (partial_doc self)) in Hr.
        apply try_read_tail_offset in Hr. lia.
      * apply Henter. intros found s1 Hr. apply next_pos_offset in Hr. exact Hr.
    + apply Henter. intros found s1 Hr. now apply next_pos_offset in Hr.
Qed.

End Offset.

Section Window.
Context `{UnicodeDB} {value : Type} `{PyObject value}.

Lemma StringIO_read_splits (s : str) (n : Z) :
  fst (read s n) ++ snd (read s n) = s.
Proof.
  simpl. destruct (n <? 0)%Z; simpl; [apply app_nil_r | apply firstn_skipn].
Qed.

Lemma try_read_window (text : str) (start : Z) (self self' : @DecodeStream value _ str)
  (n : nat) (new_data : bool) :
  window text start self ->
  _try_read self (skipn n (partial_doc self)) = Return (new_data, self') ->
  window text start self'.
Proof.
  intros (dropped & Htext & Hoff) Hr.
  destruct (try_read_returns _ _ Hr)
    as (k & new & _ & Hread & _ & Hdoc & _ & Hoff' & _).
  exists (dropped ++ firstn n (partial_doc self)). split.
  - rewrite Hdoc, Htext, <- !app_assoc. f_equal.
    rewrite <- (firstn_skipn n (partial_doc self)) at 1. rewrite <- !app_assoc.
    do 2 f_equal.
    pose proof (StringIO_read_splits (stream self) k) as Hsplit.
    rewrite Hread in Hsplit. simpl in Hsplit. now symmetry.
  - rewrite Hoff', Hoff, length_app, length_firstn, length_skipn. lia.
Qed.

Lemma next_pos_window (text : str) (start : Z) (fuel : nat) :
  forall (self self' : @DecodeStream value _ str) (found : bool),
    window text start self ->
    next_pos fuel self = Return (found, self') ->
    window text start self'.
Proof.
  induction fuel as [|fuel IH]; intros self self' found Hw; simpl; [discriminate|].
  destruct (next_pos_helper self (partial_doc self) (cursor self)) as [[p|]| |];
    try discriminate.
  - intros [= _ <-]. exact Hw.
  - destruct (_try_read self []) as [[[|] s1]| |] eqn:Hr; try discriminate.
    all: rewrite <- (skipn_all (partial_doc self)) in Hr;
      eapply try_read_window in Hr; [|exact Hw].
    + now apply IH.
    + now intros [= _ <-].
Qed.

Lemma decode_loop_window (text : str) (start : Z) (fuel : nat) :
  forall (self self' : @DecodeStream value _ str) (obj : value) (pc : stream_pc),
    window text start self ->
    decode_loop fuel self = Yield obj (pc, self') ->
    window text start self'.
Proof.
  induction fuel as [|fuel IH]; intros self self' obj pc Hw; [discriminate|].
  rewrite decode_loop_turn.
  destruct (raw_decode (decoder self) (partial_doc self) (cursor self))
    as [[o new_pos]| [ex| | | |] |]; try discriminate.
  - destruct (_ && _).
    + destruct (_try_read self (skipn (cursor self) (partial_doc self)))
        as [[[|] s1]| |] eqn:Hr; try discriminate;
        (eapply try_read_window in Hr; [|exact Hw]).
      * now apply IH.
      * now intros [= _ _ <-].
    + now intros [= _ _ <-].
  - destruct (_match_error ex); [|discriminate].
    destruct (_try_read self (skipn (cursor self) (partial_doc self)))
      as [[[|] s1]| |] eqn:Hr; try discriminate.
    eapply try_read_window in Hr; [|exact Hw]. now apply IH.
Qed.

(** X2.  The stream decoder that [load] builds over a [StringIO] holding
    [text] starts with a window on [text], and every state in which the
    generator is suspended after a value has one: the characters of the
    buffer are those of the text from [stream_offset - start] on. *)
Theorem buffer_is_a_window (text : str) (start : Z) :
  (forall (decoder : JSONDecoder value) (parse_int parse_float : option (str -> value))
          (separator : option str) (size : Z) (bound : option Z)
          (g : stream_pc * @DecodeStream value _ str),
      load text decoder parse_int parse_float separator size bound start = Return g ->
      fst g = pc_start /\ window text start (snd g))
  /\ (forall (fuel : nat) (pc pc' : stream_pc) (self self' : @DecodeStream value _ str)
             (obj : value),
         window text start self ->
         _decode_stream_generator fuel (pc, self) = Yield obj (pc', self') ->
         window text start self').
Proof.
  split.
  - intros decoder parse_int parse_float separator size bound g.
    unfold load, __init__.
    destruct (get_first_pos_and_next_pos_func separator) as [np p0].
    destruct (size <? 1)%Z; [discriminate|].
    intros [= <-]. split; [reflexivity|].
    exists []. simpl. split; [reflexivity | lia].
  - intros fuel pc pc' self self' obj Hw. unfold _decode_stream_generator.
    assert (Henter :
      forall (r : res (bool * @DecodeStream value _ str)),
        (forall found s1, r = Return (found, s1) -> window text start s1) ->
        enter_loop fuel r = Yield obj (pc', self') -> window text start self').
    { intros r Hr. unfold enter_loop.
      destruct r as [[[|] s1]| |]; try discriminate.
      intros Hl. eapply decode_loop_window in Hl; [exact Hl|].
      now apply (Hr true s1). }
    destruct pc; [| |discriminate].
    + destruct (pos self).
      * apply Henter. intros found s1 Hr.
        change (partial_doc self) with (skipn 0 (partial_doc self)) in Hr.
        eapply try_read_window in Hr; [exact Hr | exact Hw].
      * apply Henter. intros found s1 Hr.
        apply (@next_pos_window text start fuel (set_pos self 0) s1 found); [|exact Hr].
        exact Hw.
    + apply Henter. intros found s1 Hr.
      eapply next_pos_window in Hr; [exact Hr | exact Hw].
Qed.

(** X3.  An error of the decoder that the classifier takes for final is
    raised with a position and a stream offset that add up to its place in the
    text: the character the error points at in the buffer is the
    character of the text at position plus stream offset. *)
Theorem final_error_points_into_the_text (text : str) (start : Z) (fuel : nat)
  (self : @DecodeStream value _ str) (ex : JSONDecodeError) :
  window text start self ->
  raw_decode (decoder self) (partial_doc self) (cursor self) = Raise (DecodeError ex) ->
  ex_doc ex = partial_doc self ->
  _match_error ex = false ->
  exists (ex' : JSONDecodeError) (k : Z),
    decode_loop (S fuel) self = Throw (DecodeError ex')
    /\ ex_msg ex' = ex_msg ex /\ ex_pos ex' = ex_pos ex
    /\ ex_stream_offset ex' = Some k
    /\ (start <= k)%Z
    /\ forall c : N,
        nth_error (ex_doc ex') (ex_pos ex') = Some c ->
        nth_error text (Z.to_nat (Z.of_nat (ex_pos ex') + k - start)) = Some c.
Proof.
  intros (dropped & Htext & Hoff) Hdec Hdoc Hno.
  exists (_update_error self ex), (stream_offset self).
  split; [now apply unmatched_error_is_terminal|].
  simpl. repeat split; try lia.
  intros c Hc. rewrite Hdoc in Hc.
  assert (Hlt : ex_pos ex < length (partial_doc self))
    by (apply nth_error_Some; congruence).
  replace (Z.to_nat (Z.of_nat (ex_pos ex) + stream_offset self - start))
    with (length dropped + ex_pos ex) by lia.
  rewrite Htext, nth_error_app2 by lia.
  replace (length dropped + ex_pos ex - length dropped) with (ex_pos ex) by lia.
  now rewrite nth_error_app1.
Qed.

End Window.

(** The second comma of [[],,[]], met in a buffer that starts at offset 2. *)
Lemma final_error_points_into_the_text_witness :
  window (lit "[],,[]") 0 stray_comma_stream
  /\ exists (ex' : JSONDecodeError) (k : Z),
      decode_loop 1 stray_comma_stream = Throw (DecodeError ex')
      /\ ex_msg ex' = lit "Expecting value" /\ ex_pos ex' = 1
      /\ ex_stream_offset ex' = Some k
      /\ (0 <= k)%Z
      /\ forall c : N,
          nth_error (ex_doc ex') (ex_pos ex') = Some c ->
          nth_error (lit "[],,[]") (Z.to_nat (Z.of_nat (ex_pos ex') + k - 0)) = Some c.
Proof.
  assert (Hw : window (lit "[],,[]") 0 stray_comma_stream).
  { exists (lit "[]"). split; reflexivity. }
  split; [exact Hw|].
  exact (@final_error_points_into_the_text CPython_ucd pyvalue CPython_objects
           (lit "[],,[]") 0 0 stray_comma_stream
           (new_JSONDecodeError (lit "Expecting value") (lit ",,") 1)
           Hw eq_refl eq_refl eq_refl).
Defined.

(** ** The whitespace policy *)

Section WhitespacePolicy.
Context `{UnicodeDB}.

(** The search splits the text at the first character that is no
    whitespace. *)
Lemma search_not_whitespace_split (s : str) (i : nat) :
  match search_not_whitespace s i with
  | Some p =>
      exists (skipped : str) (c : N) (tail : str),
        s = skipped ++ c :: tail /\ forallb isspace skipped = true
        /\ isspace c = false /\ p = i + length skipped
  | None => forallb isspace s = true
  end.
Proof.
  revert i; induction s as [|c s IH]; intros i; simpl; [reflexivity|].
  destruct (isspace c) eqn:Hc.
  - specialize (IH (S i)). destruct (search_not_whitespace s (S i)) as [p|].
    + destruct IH as (skipped & c' & tail & -> & Hws & Hc' & ->).
      exists (c :: skipped), c', tail. simpl. rewrite Hc, Hws.
      repeat split; try assumption. lia.
    + exact IH.
  - exists [], c, s. simpl. repeat split; try assumption. lia.
Qed.

Lemma forallb_nth_error {A : Type} (p : A -> bool) (l : list A) (i : nat) (a : A) :
  forallb p l = true -> nth_error l i = Some a -> p a = true.
Proof.
  intros Hall Hi. apply nth_error_In in Hi.
  rewrite forallb_forall in Hall. now apply Hall.
Qed.

(** X4.  [next_position_by_non_whitespace] gives the first index from [pos]
    on that holds a character other than whitespace, an index inside the
    document, and [None] exactly when every character from [pos] on is
    whitespace (so also when [pos] is at or beyond the end). *)
Theorem next_position_by_non_whitespace_is_first (document : str) (pos : nat) :
  match next_position_by_non_whitespace document pos with
  | Some p =>
      pos <= p < length document
      /\ (exists c, nth_error document p = Some c /\ isspace c = false)
      /\ (forall i c, pos <= i < p -> nth_error document i = Some c -> isspace c = true)
  | None =>
      forall i c, pos <= i -> nth_error document i = Some c -> isspace c = true
  end.
Proof.
  unfold next_position_by_non_whitespace.
  pose proof (search_not_whitespace_split (skipn pos document) pos) as Hsplit.
  destruct (search_not_whitespace (skipn pos document) pos) as [p|].
  - destruct Hsplit as (skipped & c & tail & Hs & Hws & Hc & ->).
    assert (Hat : forall k, nth_error document (pos + k)
                            = nth_error (skipped ++ c :: tail) k)
      by (intros k; now rewrite <- Hs, nth_error_skipn).
    assert (Hc' : nth_error document (pos + length skipped) = Some c)
      by (rewrite Hat, nth_error_app2, Nat.sub_diag by lia; reflexivity).
    split; [|split].
    + split; [lia|]. apply nth_error_Some. congruence.
    + now exists c.
    + intros i c' Hi Hi'. replace i with (pos + (i - pos)) in Hi' by lia.
      rewrite Hat, nth_error_app1 in Hi' by lia.
      now apply (forallb_nth_error _ _ _ Hws Hi').
  - intros i c Hi Hc. replace i with (pos + (i - pos)) in Hc by lia.
    rewrite <- nth_error_skipn in Hc.
    now apply (forallb_nth_error _ _ _ Hsplit Hc).
Qed.

End WhitespacePolicy.
(** ** The search for the next document in a stream *)

Section NextDocument.
Context `{UnicodeDB} {value : Type} `{PyObject value}.

Lemma next_pos_skips_whitespace_upto (n : nat) :
  forall (self : @DecodeStream value _ str) (fuel : nat),
    length (stream self) <= n -> n < fuel ->
    next_pos_helper self = fst (get_first_pos_and_next_pos_func None) ->
    (1 <= bufsize self)%Z ->
    (forall m, max_bufsize self = Some m -> (1 <= m)%Z) ->
    (exists (skipped : str) (c : N) (tail : str) (self' : @DecodeStream value _ str),
        unread self = skipped ++ c :: tail
        /\ forallb isspace skipped = true /\ isspace c = false
        /\ next_pos fuel self = Return (true, self')
        /\ unread self' = c :: tail)
    \/ (forallb isspace (unread self) = true
        /\ exists self' : @DecodeStream value _ str,
            next_pos fuel self = Return (false, self') /\ unread self' = []).
Proof.
  induction n as [|n IH]; intros self fuel Hlen Hfuel Hhelper Hbuf Hmax;
    (destruct fuel as [|fuel]; [lia|]);
    simpl next_pos; rewrite Hhelper; simpl fst;
    unfold next_position_by_non_whitespace;
    pose proof (search_not_whitespace_split (skipn (cursor self) (partial_doc self))
                  (cursor self)) as Hsplit;
    destruct (search_not_whitespace (skipn (cursor self) (partial_doc self)) (cursor self))
      as [p|].
  1, 3: destruct Hsplit as (skipped & c & tail & Hrem & Hws & Hc & ->);
    left; exists skipped, c, (tail ++ stream self), (set_pos self (cursor self + length skipped));
    unfold unread; rewrite Hrem, <- app_assoc; simpl;
    repeat split; try assumption;
    change (cursor (set_pos self (cursor self + length skipped)))
      with (cursor self + length skipped);
    rewrite Nat.add_comm, <- skipn_skipn, Hrem, skipn_app, skipn_all, Nat.sub_diag;
    reflexivity.
  all: destruct (to_read_positive _ Hbuf Hmax) as (k & Hk & Hk1);
    unfold _try_read; rewrite Hk; simpl read;
    (destruct (Z.ltb_spec k 0); [lia|]).
  - destruct (stream self) as [|c rest] eqn:Hs; [|simpl in Hlen; lia].
    rewrite firstn_nil. right. unfold unread. rewrite Hs, app_nil_r.
    split; [exact Hsplit|]. eexists. split; [reflexivity|]. simpl. apply skipn_nil.
  - destruct (stream self) as [|c rest] eqn:Hs.
    + rewrite firstn_nil. right. unfold unread. rewrite Hs, app_nil_r.
      split; [exact Hsplit|]. eexists. split; [reflexivity|]. simpl. apply skipn_nil.
    + destruct (Z.to_nat k) as [|k'] eqn:Hk'; [lia|].
      rewrite firstn_cons, skipn_cons. cbv iota.
      match goal with
      | |- context [next_pos fuel ?st] =>
          destruct (IH st fuel) as
            [(skipped & c1 & tail & self' & Hun & Hws & Hc1 & Hn & Hun')
            |(Hws & self' & Hn & Hun')];
          [simpl; rewrite length_skipn; simpl in Hlen; lia | lia
          | exact Hhelper | exact Hbuf | exact Hmax | |];
          assert (Hst : unread st = c :: rest)
            by (unfold unread; simpl; now rewrite firstn_skipn)
      end.
      * left. exists (skipn (cursor self) (partial_doc self) ++ skipped), c1, tail, self'.
        unfold unread at 1. rewrite Hs, <- Hst, Hun, <- app_assoc.
        rewrite forallb_app, Hsplit, Hws. repeat split; assumption.
      * right. unfold unread at 1. rewrite Hs, <- Hst, forallb_app, Hsplit, Hws.
        split; [reflexivity|]. now exists self'.
Qed.

(** X5.  Over a [StringIO], with the whitespace policy, a read size of at
    least 1 and no bound on the buffer below 1, the search for the next
    document never raises: it drops exactly the whitespace at the head of
    the unread text.  Either the unread text has a first character that
    is no whitespace and the search returns true with the cursor on it
    and nothing else dropped; or the unread text is whitespace only and
    the search returns false with all of it read. *)
Theorem next_pos_skips_whitespace (self : @DecodeStream value _ str) (fuel : nat) :
  next_pos_helper self = fst (get_first_pos_and_next_pos_func None) ->
  (1 <= bufsize self)%Z ->
  (forall m, max_bufsize self = Some m -> (1 <= m)%Z) ->
  length (stream self) < fuel ->
  (exists (skipped : str) (c : N) (tail : str) (self' : @DecodeStream value _ str),
      unread self = skipped ++ c :: tail
      /\ forallb isspace skipped = true /\ isspace c = false
      /\ next_pos fuel self = Return (true, self')
      /\ unread self' = c :: tail)
  \/ (forallb isspace (unread self) = true
      /\ exists self' : @DecodeStream value _ str,
          next_pos fuel self = Return (false, self') /\ unread self' = []).
Proof.
  intros Hhelper Hbuf Hmax Hfuel.
  now apply (@next_pos_skips_whitespace_upto (length (stream self))).
Qed.

End NextDocument.

(** The fourteen spaces in front of ['"small"'] are dropped one read at a
    time under a bound of seven characters. *)
Lemma next_pos_skips_whitespace_witness :
  (1 <= bufsize padded_stream)%Z
  /\ length (stream padded_stream) < 22
  /\ ((exists (skipped : str) (c : N) (tail : str)
              (self' : @DecodeStream pyvalue CPython_objects str),
          unread padded_stream = skipped ++ c :: tail
          /\ forallb isspace skipped = true /\ isspace c = false
          /\ next_pos 22 padded_stream = Return (true, self')
          /\ unread self' = c :: tail)
      \/ (forallb isspace (unread padded_stream) = true
          /\ exists self' : @DecodeStream pyvalue CPython_objects str,
              next_pos 22 padded_stream = Return (false, self') /\ unread self' = [])).
Proof.
  assert (Hbuf : (1 <= bufsize padded_stream)%Z) by (simpl; lia).
  assert (Hfuel : length (stream padded_stream) < 22) by (vm_compute; lia).
  assert (Hmax : forall m : Z, max_bufsize padded_stream = Some m -> (1 <= m)%Z)
    by (intros m [= <-]; lia).
  split; [exact Hbuf|]. split; [exact Hfuel|].
  exact (@next_pos_skips_whitespace CPython_ucd pyvalue CPython_objects
           padded_stream 22 eq_refl Hbuf Hmax Hfuel).
Defined.
(** ** A text that one read takes in *)

Lemma same_run_cons {value : Type} (obj : value) (a b : list value * ending) :
  same_run a b ->
  same_run (let (objs, e) := a in (obj :: objs, e)) (let (objs, e) := b in (obj :: objs, e)).
Proof.
  destruct a as [objs e], b as [objs' e']. unfold same_run. simpl.
  intros [-> He]. now split.
Qed.

Lemma same_ending_refl_unless_decode (e : exn) :
  (forall ex, e <> DecodeError ex) -> same_ending (Raised e) (Raised e).
Proof. intros He. destruct e; simpl; try reflexivity. now destruct (He ex). Qed.

Section Policies.
Context `{UnicodeDB}.

(** What either policy can answer: no further document, a position inside
    the document or at its end, or the delimiter error. *)
Lemma policy_cases (separator : option str) (document : str) (pos : nat) :
  let next_pos := fst (get_first_pos_and_next_pos_func separator) in
  next_pos document pos = Return None
  \/ (exists p, next_pos document pos = Return (Some p) /\ pos <= p <= length document)
  \/ (exists sep, separator = Some sep
                  /\ next_pos document pos = Raise (ValueError (Expected_delimiter sep))).
Proof.
  destruct separator as [sep|]; simpl.
  - unfold next_position_by_separator, startswith.
    destruct (Nat.leb_spec pos (length document)) as [Hle|Hgt]; simpl.
    + destruct (is_prefix sep (skipn pos document)) eqn:Hp.
      * right; left. eexists. split; [reflexivity|].
        apply is_prefix_spec in Hp as [t Ht].
        apply (f_equal (@length N)) in Ht. rewrite length_skipn, length_app in Ht. lia.
      * destruct (pos =? length document); [now left|]. right; right. now exists sep.
    + destruct (Nat.eqb_spec pos (length document)); [lia|]. right; right. now exists sep.
  - unfold next_position_by_non_whitespace.
    pose proof (search_not_whitespace_split (skipn pos document) pos) as Hsplit.
    destruct (search_not_whitespace (skipn pos document) pos) as [p|]; [|now left].
    right; left. destruct Hsplit as (skipped & c & tail & Hs & _ & _ & ->).
    eexists. split; [reflexivity|].
    apply (f_equal (@length N)) in Hs.
    rewrite length_skipn, length_app in Hs. simpl in Hs. lia.
Qed.

End Policies.

Section TakesAll.
Context `{UnicodeDB} {value : Type} `{PyObject value}.

(** A read large enough for what the source still holds empties it. *)
Lemma try_read_takes_all (self : @DecodeStream value _ str) (remaining_buffer : str) :
  (1 <= bufsize self)%Z ->
  (Z.of_nat (length (stream self)) <= bufsize self)%Z ->
  (forall m, max_bufsize self = Some m ->
             (Z.of_nat (length remaining_buffer + length (stream self)) <= m)%Z
             /\ (Z.of_nat (length remaining_buffer) < m)%Z) ->
  _try_read self remaining_buffer
  = Return (match stream self with [] => false | _ :: _ => true end,
            {| stream := []; decoder := decoder self;
               next_pos_helper := next_pos_helper self; bufsize := bufsize self;
               max_bufsize := max_bufsize self; pos := Some 0;
               partial_doc := remaining_buffer ++ stream self;
               stream_offset :=
                 (stream_offset self + (Z.of_nat (length (partial_doc self))
                                        - Z.of_nat (length remaining_buffer)))%Z;
               number_types := number_types self |}).
Proof.
  intros Hbuf Hall Hmax.
  assert (Hn : exists n, to_read self remaining_buffer = Return n
                         /\ (Z.of_nat (length (stream self)) <= n)%Z).
  { unfold to_read. destruct (max_bufsize self) as [m|]; [|now exists (bufsize self)].
    destruct (Hmax m eq_refl) as [Hm1 Hm2]. rewrite Nat2Z.inj_add in Hm1.
    destruct (Z.gtb_spec (Z.of_nat (length remaining_buffer) + bufsize self) m).
    - destruct (Z.leb_spec (m - Z.of_nat (length remaining_buffer)) 0); [lia|].
      eexists. split; [reflexivity | lia].
    - now exists (bufsize self). }
  destruct Hn as (n & Hn & Hle). unfold _try_read. rewrite Hn. simpl read.
  destruct (Z.ltb_spec n 0); [lia|].
  rewrite firstn_all2, skipn_all2 by lia.
  now destruct (stream self).
Qed.

End TakesAll.

Section SingleRead.
Context `{UnicodeDB} {value : Type} `{PyObject value}.
Variables (text : str) (dec : JSONDecoder value).
Variables (parse_int parse_float : option (str -> value)).
Variables (separator : option str) (size : Z) (bound : option Z).

Hypothesis Hsize : (1 <= size)%Z.
Hypothesis Hbound : forall m, bound = Some m -> (Z.of_nat (length text) < m)%Z.
Hypothesis Hnumber :
  forall (p : nat) (obj : value) (e : nat),
    0 < p <= length text ->
    raw_decode dec text p = Return (obj, e) ->
    counts_as_number parse_int parse_float obj = true ->
    length text <= e + 1 ->
    separator = None /\ next_position_by_non_whitespace text e = None.

Local Abbreviation policy := (fst (get_first_pos_and_next_pos_func separator)).
Local Abbreviation state :=
  (drained dec policy size bound (hook_number_types parse_int parse_float)).

(** Once the source is empty a refill brings nothing. *)
Lemma try_read_drained (doc remaining_buffer : str) (p : nat) (k : Z) :
  length remaining_buffer <= length text ->
  _try_read (state doc p k) remaining_buffer
  = Return (false,
            state remaining_buffer 0
                  (k + (Z.of_nat (length doc) - Z.of_nat (length remaining_buffer)))%Z).
Proof.
  intros Hlen. rewrite try_read_takes_all.
  - simpl. unfold drained. now rewrite app_nil_r.
  - exact Hsize.
  - simpl. lia.
  - simpl. intros m Hm. apply Hbound in Hm. lia.
Qed.

(** After a refill from a cursor beyond the start that brought nothing,
    the search for the next document runs on the tail of the text with a
    position that counts from the start of the text; with only whitespace
    left it ends the iteration as [loads] does. *)
Lemma stale_cursor_stops (fuel rounds : nat) (p e : nat) (k : Z) :
  separator = None ->
  next_position_by_non_whitespace text e = None ->
  same_run
    (consume (decode_stacked_next text dec policy) rounds (stacked_yielded e))
    (consume (_decode_stream_generator (S fuel)) rounds
             (pc_yielded, state (skipn p text) e k)).
Proof.
  intros Hsep Hnone. destruct rounds as [|rounds]; [now split|].
  cbn [consume decode_stacked_next _decode_stream_generator next_pos].
  change (next_pos_helper (state (skipn p text) e k)) with policy.
  change (partial_doc (state (skipn p text) e k)) with (skipn p text).
  change (cursor (state (skipn p text) e k)) with e.
  rewrite Hsep. simpl fst. rewrite Hnone.
  assert (Hws : next_position_by_non_whitespace (skipn p text) e = None).
  { unfold next_position_by_non_whitespace in *.
    apply search_not_whitespace_none.
    pose proof (search_not_whitespace_split (skipn e text) e) as Hsplit.
    rewrite Hnone in Hsplit.
    rewrite skipn_skipn, Nat.add_comm, <- skipn_skipn. now apply forallb_skipn. }
  rewrite Hws.
  pose proof (@try_read_drained (skipn p text) [] e k) as Hr.
  rewrite Hsep in Hr. simpl fst in Hr. rewrite Hr by (simpl; lia).
  now split.
Qed.

(** One turn of either loop from the same position of the same text. *)
Lemma turns_agree (fuel rounds : nat)
  (IH : forall (e : nat) (k : Z),
      same_run
        (consume (decode_stacked_next text dec policy) rounds (stacked_yielded e))
        (consume (_decode_stream_generator (S fuel)) rounds (pc_yielded, state text e k)))
  (p : nat) (k : Z) (g : stacked_state) (g' : stream_pc * @DecodeStream value _ str) :
  p <= length text ->
  decode_stacked_next text dec policy g = decode_stacked_turn text dec p ->
  _decode_stream_generator (S fuel) g' = decode_loop (S fuel) (state text p k) ->
  same_run
    (consume (decode_stacked_next text dec policy) (S rounds) g)
    (consume (_decode_stream_generator (S fuel)) (S rounds) g').
Proof.
  intros Hp Hg Hg'. cbn [consume]. rewrite Hg, Hg', decode_loop_turn.
  unfold decode_stacked_turn.
  change (decoder (state text p k)) with dec.
  change (partial_doc (state text p k)) with text.
  change (cursor (state text p k)) with p.
  assert (Hrem : length (skipn p text) <= length text) by (rewrite length_skipn; lia).
  destruct (raw_decode dec text p) as [[obj e]| [ex| | | |] |] eqn:Hdec;
    try (now split).
  - change (is_number (state text p k) obj) with (counts_as_number parse_int parse_float obj).
    destruct ((Z.of_nat e >=? Z.of_nat (length text) - 1)%Z
              && counts_as_number parse_int parse_float obj) eqn:Hc.
    + rewrite try_read_drained by exact Hrem.
      apply andb_true_iff in Hc as [He Hnum].
      apply (same_run_cons obj).
      destruct p as [|p].
      * apply IH.
      * destruct (@Hnumber (S p) obj e) as [Hsep Hnone];
          [lia | exact Hdec | exact Hnum | |].
        { destruct (Z.geb_spec (Z.of_nat e) (Z.of_nat (length text) - 1));
            [lia | discriminate]. }
        now apply stale_cursor_stops.
    + apply (same_run_cons obj). apply IH.
  - destruct (_match_error ex).
    + rewrite try_read_drained by exact Hrem.
      split; [reflexivity|]. simpl. repeat split. eexists. split; reflexivity.
    + split; [reflexivity|]. simpl. repeat split. eexists. split; reflexivity.
Qed.

(** The iterations agree from any position at which both are suspended. *)
Lemma suspended_runs_agree (fuel rounds : nat) :
  forall (e : nat) (k : Z),
    same_run
      (consume (decode_stacked_next text dec policy) rounds (stacked_yielded e))
      (consume (_decode_stream_generator (S fuel)) rounds (pc_yielded, state text e k)).
Proof.
  induction rounds as [|rounds IH]; intros e k; [now split|].
  destruct (policy_cases separator text e) as [Hn|[(p & Hn & Hp)|(sep & Hsep & Hn)]].
  - cbn [consume decode_stacked_next _decode_stream_generator next_pos].
    change (next_pos_helper (state text e k)) with policy.
    change (partial_doc (state text e k)) with text.
    change (cursor (state text e k)) with e.
    rewrite Hn, try_read_drained by (simpl; lia). now split.
  - apply (@turns_agree fuel rounds IH p k); [lia| |].
    + cbn [decode_stacked_next]. now rewrite Hn.
    + cbn [_decode_stream_generator next_pos].
      change (next_pos_helper (state text e k)) with policy.
      change (partial_doc (state text e k)) with text.
      change (cursor (state text e k)) with e.
      now rewrite Hn.
  - cbn [consume decode_stacked_next _decode_stream_generator next_pos].
    change (next_pos_helper (state text e k)) with policy.
    change (partial_doc (state text e k)) with text.
    change (cursor (state text e k)) with e.
    rewrite Hn. now split.
Qed.

End SingleRead.

Lemma consume_turn {value state : Type} (next : state -> step value state)
  (rounds : nat) (g : state) :
  consume next (S rounds) g
  = match next g with
    | Yield obj g' => let (objs, e) := consume next rounds g' in (obj :: objs, e)
    | StopIteration => ([], Exhausted)
    | Throw e => ([], Raised e)
    | Starved => ([], OutOfFuel)
    end.
Proof. reflexivity. Qed.

(** X6.  When one read takes in the whole text, [load] over a [StringIO]
    yields what [loads] yields from the text and ends as [loads] ends; a
    [JSONDecodeError] is the one [loads] raises, with a stream offset
    added.  The read size is at least the length of the text, any bound
    on the buffer is larger than the text, the text does not start with a
    byte order mark (which only [loads] rejects), and no number that
    starts after the first character reaches the last character of the
    text or the one before it, unless the policy is whitespace and only
    whitespace follows the number. *)
Theorem load_agrees_with_loads_on_a_single_read `{UnicodeDB} {value : Type}
  `{PyObject value} (text : str) (decoder : JSONDecoder value)
  (parse_int parse_float : option (str -> value)) (separator : option str)
  (size : Z) (bound : option Z) (offset : Z) (fuel : nat) :
  startswith text [BOM] 0 = false ->
  (1 <= size)%Z ->
  (Z.of_nat (length text) <= size)%Z ->
  (forall m, bound = Some m -> (Z.of_nat (length text) < m)%Z) ->
  (forall (p : nat) (obj : value) (e : nat),
      0 < p <= length text ->
      raw_decode decoder text p = Return (obj, e) ->
      counts_as_number parse_int parse_float obj = true ->
      length text <= e + 1 ->
      separator = None /\ next_position_by_non_whitespace text e = None) ->
  2 <= fuel ->
  same_run (list_loads decoder fuel (a_str text) separator)
           (list_load fuel text decoder parse_int parse_float separator size bound offset).
Proof.
  intros Hbom Hsize Hlen Hbound Hnumber Hfuel.
  destruct fuel as [|[|fuel]]; try lia.
  assert (Hlt : (size <? 1)%Z = false) by now apply Z.ltb_ge.
  pose proof (@suspended_runs_agree _ _ _ text decoder parse_int parse_float separator
                size bound Hsize Hbound Hnumber (S fuel) (S fuel)) as IH.
  unfold list_loads, loads, list_load, load, __init__. rewrite Hbom.
  destruct separator as [sep|]; simpl get_first_pos_and_next_pos_func;
    cbv iota beta; rewrite Hlt.
  - destruct text as [|c t] eqn:Ht.
    + cbn [consume decode_stacked_next decode_stacked _decode_stream_generator pos
           partial_doc].
      rewrite try_read_takes_all
        by (simpl in *; try lia; intros m Hm; apply Hbound in Hm; lia).
      now split.
    + eapply (@turns_agree _ _ _ (c :: t) decoder parse_int parse_float (Some sep)
               size bound Hsize Hbound Hnumber (S fuel) (S fuel) IH 0).
      * lia.
      * reflexivity.
      * cbn [_decode_stream_generator pos partial_doc].
        rewrite try_read_takes_all
          by (simpl in *; try lia; intros m Hm; apply Hbound in Hm; lia).
        reflexivity.
  - set (init := {| stream := text; decoder := decoder;
                    next_pos_helper := fst (get_first_pos_and_next_pos_func None);
                    bufsize := size; max_bufsize := bound; pos := None;
                    partial_doc := []; stream_offset := offset;
                    number_types := hook_number_types parse_int parse_float |}).
    change (same_run
              (consume (decode_stacked_next text decoder
                          (fst (get_first_pos_and_next_pos_func None)))
                       (S (S fuel)) (stacked_start None))
              (consume (_decode_stream_generator (S (S fuel))) (S (S fuel))
                       (pc_start, init))).
    assert (Hsearch :
      next_pos (S (S fuel)) (set_pos init 0)
      = match text with
        | [] => Return (false, drained decoder (fst (get_first_pos_and_next_pos_func None))
                                       size bound (hook_number_types parse_int parse_float)
                                       [] 0 (offset + (0 - 0))%Z)
        | _ :: _ =>
            next_pos (S fuel)
                     (drained decoder (fst (get_first_pos_and_next_pos_func None))
                              size bound (hook_number_types parse_int parse_float)
                              text 0 (offset + (0 - 0))%Z)
        end).
    { change (next_pos (S (S fuel)) (set_pos init 0))
        with (match _try_read (set_pos init 0) [] with
              | Return (true, self') => next_pos (S fuel) self'
              | Return (false, self') => Return (false, self')
              | Raise e => Raise e
              | NoFuel => NoFuel
              end).
      rewrite try_read_takes_all
        by (simpl in *; try lia; intros m Hm; apply Hbound in Hm; lia).
      simpl stream. now destruct text. }
    destruct text as [|c t] eqn:Ht.
    + rewrite !consume_turn. cbn [decode_stacked_next _decode_stream_generator].
      change (pos init) with (@None nat). cbv iota. now rewrite Hsearch.
    + destruct (policy_cases None (c :: t) 0) as [Hn|[(p & Hn & Hp)|(sep & Hsep & _)]];
        [| |discriminate].
      * rewrite !consume_turn. cbn [decode_stacked_next _decode_stream_generator].
        change (pos init) with (@None nat). cbv iota. rewrite Hsearch, Hn.
        cbn [next_pos].
        change (next_pos_helper (drained ?d ?np ?s ?b ?ty ?doc ?q ?k)) with np.
        change (partial_doc (drained ?d ?np ?s ?b ?ty ?doc ?q ?k)) with doc.
        change (cursor (drained ?d ?np ?s ?b ?ty ?doc ?q ?k)) with q.
        rewrite Hn.
        rewrite (@try_read_drained _ _ _ (c :: t) decoder parse_int parse_float None
                   size bound Hsize Hbound) by (simpl; lia).
        now split.
      * eapply (@turns_agree _ _ _ (c :: t) decoder parse_int parse_float None
                  size bound Hsize Hbound Hnumber (S fuel) (S fuel) IH p).
        -- lia.
        -- cbn [decode_stacked_next]. now rewrite Hn.
        -- cbn [_decode_stream_generator].
           change (pos init) with (@None nat). cbv iota. rewrite Hsearch.
           cbn [next_pos].
           change (next_pos_helper (drained ?d ?np ?s ?b ?ty ?doc ?q ?k)) with np.
           change (partial_doc (drained ?d ?np ?s ?b ?ty ?doc ?q ?k)) with doc.
           change (cursor (drained ?d ?np ?s ?b ?ty ?doc ?q ?k)) with q.
           rewrite Hn. reflexivity.
Qed.

(** The text [[1] 23], read in one piece of up to 64 characters. *)
Lemma load_agrees_with_loads_on_a_single_read_witness :
  startswith list_then_number [BOM] 0 = false
  /\ (Z.of_nat (length list_then_number) <= 64)%Z
  /\ same_run (list_loads default_decoder 4 (a_str list_then_number) None)
              (list_load 4 list_then_number default_decoder None None None 64 None 0).
Proof.
  assert (Hlen : (Z.of_nat (length list_then_number) <= 64)%Z) by (vm_compute; discriminate).
  assert (Hbound : forall m : Z, @None Z = Some m -> (Z.of_nat (length list_then_number) < m)%Z)
    by discriminate.
  assert (Hnumber :
    forall (p : nat) (obj : pyvalue) (e : nat),
      0 < p <= length list_then_number ->
      raw_decode default_decoder list_then_number p = Return (obj, e) ->
      counts_as_number None None obj = true ->
      length list_then_number <= e + 1 ->
      @None str = None /\ next_position_by_non_whitespace list_then_number e = None).
  { intros p obj e Hp Hdec _ He.
    do 7 (destruct p as [|p];
          [try lia; vm_compute in Hdec; try discriminate;
           injection Hdec as <- <-;
           first [split; reflexivity | vm_compute in He; lia] |]).
    vm_compute in Hp. lia. }
  assert (Hsize : (1 <= 64)%Z) by lia.
  split; [reflexivity|]. split; [exact Hlen|].
  exact (@load_agrees_with_loads_on_a_single_read CPython_ucd pyvalue CPython_objects
           list_then_number default_decoder None None None 64 None 0 4
           eq_refl Hsize Hlen Hbound Hnumber
           (le_S _ _ (le_S _ _ (le_n 2)))).
Defined.

(** ** A document that spans several reads *)

Lemma firstn_add {A : Type} (n m : nat) (l : list A) :
  firstn (n + m) l = firstn n l ++ firstn m (skipn n l).
Proof.
  revert l; induction n as [|n IH]; intros l; [reflexivity|].
  destruct l as [|a l]; simpl.
  - now rewrite firstn_nil.
  - now rewrite IH.
Qed.

Section Reassembly.
Context `{UnicodeDB} {value : Type} `{PyObject value}.
Variables (text : str) (dec : JSONDecoder value).
Variables (parse_int parse_float : option (str -> value)).
Variables (separator : option str) (size : Z) (bound : option Z).

Hypothesis Hsize : (1 <= size)%Z.

Local Abbreviation policy := (fst (get_first_pos_and_next_pos_func separator)).
Local Abbreviation types := (hook_number_types parse_int parse_float).
Local Abbreviation buffered := (reading text dec policy size bound types).

(** The size of a read when the tail leaves room under the bound. *)
Lemma to_read_with_room (n : nat) (k : Z) (remaining_buffer : str) :
  (forall m, bound = Some m -> (Z.of_nat (length remaining_buffer) < m)%Z) ->
  exists r : nat,
    to_read (buffered n k) remaining_buffer = Return (Z.of_nat r) /\ 0 < r
    /\ (forall m, bound = Some m -> (Z.of_nat (length remaining_buffer + r) <= m)%Z).
Proof.
  intros Hroom. unfold to_read. simpl.
  destruct bound as [m|].
  - specialize (Hroom m eq_refl).
    destruct (Z.gtb_spec (Z.of_nat (length remaining_buffer) + size) m).
    + destruct (Z.leb_spec (m - Z.of_nat (length remaining_buffer)) 0); [lia|].
      exists (Z.to_nat (m - Z.of_nat (length remaining_buffer))).
      rewrite Z2Nat.id by lia. split; [reflexivity|]. split; [lia|].
      intros m' [= <-]. lia.
    + exists (Z.to_nat size). rewrite Z2Nat.id by lia. split; [reflexivity|].
      split; [lia|]. intros m' [= <-]. lia.
  - exists (Z.to_nat size). rewrite Z2Nat.id by lia. split; [reflexivity|].
    split; [lia|]. discriminate.
Qed.

(** A refill of the whole buffer while the source still holds text: the
    buffer grows by what was read. *)
Lemma refill_grows_the_buffer (n : nat) (k : Z) :
  n < length text ->
  (forall m, bound = Some m -> (Z.of_nat n < m)%Z) ->
  exists (r : nat) (k' : Z),
    0 < r
    /\ (forall m, bound = Some m -> (Z.of_nat (n + r) <= m)%Z)
    /\ _try_read (buffered n k) (skipn 0 (partial_doc (buffered n k)))
       = Return (true, buffered (n + r) k').
Proof.
  intros Hn Hroom.
  assert (Hlen : length (firstn n text) = n) by (rewrite length_firstn; lia).
  destruct (@to_read_with_room n k (firstn n text)) as (r & Hr & Hr0 & Hrm).
  { now rewrite Hlen. }
  exists r. eexists. split; [exact Hr0|]. split.
  { intros m Hm. apply Hrm in Hm. now rewrite Hlen in Hm. }
  unfold _try_read. simpl skipn. simpl partial_doc. rewrite Hr. simpl read.
  destruct (Z.ltb_spec (Z.of_nat r) 0); [lia|]. rewrite Nat2Z.id.
  destruct (firstn r (skipn n text)) as [|c new] eqn:Hnew.
  { apply (f_equal (@length N)) in Hnew.
    rewrite length_firstn, length_skipn in Hnew. simpl in Hnew. lia. }
  rewrite <- Hnew. unfold reading. simpl.
  rewrite skipn_skipn, (Nat.add_comm r n), <- firstn_add. reflexivity.
Qed.

(** While the buffer is a proper part of the text the loop refills; once
    it holds the text the loop yields the value. *)
Lemma loop_reassembles (obj : value) (e : nat)
  (Hpartial : forall n, 0 < n < length text ->
                        wants_more dec parse_int parse_float (firstn n text) = true)
  (Hwhole : raw_decode dec text 0 = Return (obj, e))
  (Hbound : forall m, bound = Some m ->
                      (Z.of_nat (length text) <= m)%Z
                      /\ (wants_more dec parse_int parse_float text = true ->
                          (Z.of_nat (length text) < m)%Z))
  (j : nat) :
  forall (n : nat) (k : Z) (fuel : nat),
    0 < n -> length text - n <= j -> j < fuel ->
    exists k' : Z,
      decode_loop fuel (buffered n k)
      = Yield obj (pc_yielded, drained dec policy size bound types text e k').
Proof.
  induction j as [|j IH]; intros n k fuel Hn Hj Hfuel;
    (destruct fuel as [|fuel]; [lia|]); rewrite decode_loop_turn;
    change (cursor (buffered n k)) with 0;
    change (decoder (buffered n k)) with dec;
    (destruct (Nat.lt_ge_cases n (length text)) as [Hlt|Hge]; [try lia|]).
  2: { pose proof (Hpartial n (conj Hn Hlt)) as Hmore. unfold wants_more in Hmore.
       destruct (@refill_grows_the_buffer n k Hlt) as (r & k' & Hr0 & _ & Hr).
       { intros m Hm. apply Hbound in Hm. lia. }
       rewrite Hr.
       assert (Hnext : exists k'', decode_loop fuel (buffered (n + r) k')
                                   = Yield obj (pc_yielded,
                                                drained dec policy size bound types text e k''))
         by (apply IH; lia).
       change (partial_doc (buffered n k)) with (firstn n text).
       change (is_number (buffered n k)) with (counts_as_number parse_int parse_float).
       destruct (raw_decode dec (firstn n text) 0) as [[o q]| [ex| | | |] |];
         try discriminate; rewrite Hmore; exact Hnext. }
  all: change (partial_doc (buffered n k)) with (firstn n text);
    change (is_number (buffered n k)) with (counts_as_number parse_int parse_float);
    rewrite firstn_all2 by lia; rewrite Hwhole;
    (destruct ((Z.of_nat e >=? Z.of_nat (length text) - 1)%Z
               && counts_as_number parse_int parse_float obj) eqn:Hc;
     [|eexists; unfold reading, drained, set_pos; simpl;
       rewrite firstn_all2, skipn_all2 by lia; reflexivity]);
    rewrite try_read_takes_all;
    [ simpl stream; rewrite skipn_all2 by lia; eexists;
      unfold drained, set_pos; simpl; rewrite app_nil_r; reflexivity
    | exact Hsize
    | simpl; rewrite skipn_all2 by lia; simpl; lia
    | simpl; rewrite skipn_all2 by lia; simpl; intros m Hm;
      apply Hbound in Hm as [Hm1 Hm2];
      unfold wants_more in Hm2; rewrite Hwhole, Hc in Hm2; lia ].
Qed.

(** With the buffer at the bound a refill of the whole buffer raises. *)
Lemma refill_at_the_bound (n : nat) (k : Z) :
  n <= length text ->
  bound = Some (Z.of_nat n) ->
  _try_read (buffered n k) (skipn 0 (partial_doc (buffered n k)))
  = Raise (ValueError max_buffer_size_exceeded).
Proof.
  intros Hn Hb. unfold _try_read, to_read. simpl. rewrite Hb, length_firstn.
  replace (Nat.min n (length text)) with n by lia.
  destruct (Z.gtb_spec (Z.of_nat n + size) (Z.of_nat n)); [|lia].
  destruct (Z.leb_spec (Z.of_nat n - Z.of_nat n) 0); [reflexivity | lia].
Qed.

(** While the buffer is a proper part of a text that is larger than the
    bound the loop refills, until the buffer is full and the refill
    raises. *)
Lemma loop_overflows (m : nat)
  (Hb : bound = Some (Z.of_nat m)) (Hm : m < length text)
  (Hpartial : forall n, 0 < n <= m ->
                        wants_more dec parse_int parse_float (firstn n text) = true)
  (j : nat) :
  forall (n : nat) (k : Z) (fuel : nat),
    0 < n <= m -> m - n <= j -> j < fuel ->
    decode_loop fuel (buffered n k) = Throw (ValueError max_buffer_size_exceeded).
Proof.
  induction j as [|j IH]; intros n k fuel Hn Hj Hfuel;
    (destruct fuel as [|fuel]; [lia|]); rewrite decode_loop_turn;
    change (cursor (buffered n k)) with 0;
    change (decoder (buffered n k)) with dec;
    pose proof (Hpartial n Hn) as Hmore; unfold wants_more in Hmore;
    (destruct (Nat.eq_dec n m) as [->|Hne]; [|try lia]).
  1, 2: rewrite refill_at_the_bound by (lia || exact Hb);
    change (partial_doc (buffered m k)) with (firstn m text);
    change (is_number (buffered m k)) with (counts_as_number parse_int parse_float);
    destruct (raw_decode dec (firstn m text) 0) as [[o q]| [ex| | | |] |];
    try discriminate; rewrite Hmore; reflexivity.
  destruct (@refill_grows_the_buffer n k) as (r & k' & Hr0 & Hrm & Hr); [lia| |].
  { intros m' Hm'. rewrite Hb in Hm'. injection Hm' as <-. lia. }
  rewrite Hr. specialize (Hrm _ Hb).
  assert (Hnext : decode_loop fuel (buffered (n + r) k')
                  = Throw (ValueError max_buffer_size_exceeded))
    by (apply IH; lia).
  change (partial_doc (buffered n k)) with (firstn n text).
  change (is_number (buffered n k)) with (counts_as_number parse_int parse_float).
  destruct (raw_decode dec (firstn n text) 0) as [[o q]| [ex| | | |] |];
    try discriminate; rewrite Hmore; exact Hnext.
Qed.

End Reassembly.

(** The first [next]: one read, and under the whitespace policy a search
    that stops at the first character. *)
Lemma generator_starts `{UnicodeDB} {value : Type} `{PyObject value}
  (text : str) (dec : JSONDecoder value) (parse_int parse_float : option (str -> value))
  (separator : option str) (size : Z) (bound : option Z) (offset : Z) (fuel : nat)
  (c : N) (t : str) :
  (1 <= size)%Z ->
  text = c :: t ->
  (separator = None -> isspace c = false) ->
  (forall m, bound = Some m -> (0 < m)%Z) ->
  exists (r : nat) (k : Z),
    k = offset
    /\ 0 < r
    /\ (forall m, bound = Some m -> (Z.of_nat r <= m)%Z)
    /\ _decode_stream_generator (S (S fuel))
         (pc_start,
          {| stream := text; decoder := dec;
             next_pos_helper := fst (get_first_pos_and_next_pos_func separator);
             bufsize := size; max_bufsize := bound;
             pos := snd (get_first_pos_and_next_pos_func separator);
             partial_doc := []; stream_offset := offset;
             number_types := hook_number_types parse_int parse_float |})
       = decode_loop (S (S fuel))
           (reading text dec (fst (get_first_pos_and_next_pos_func separator)) size bound
                    (hook_number_types parse_int parse_float) r k).
Proof.
  intros Hsize Ht Hc Hroom.
  destruct (@refill_grows_the_buffer _ _ _ text dec parse_int parse_float separator
              size bound Hsize 0 offset) as (r & k & Hr0 & Hrm & Hr).
  { rewrite Ht. simpl. lia. }
  { exact Hroom. }
  exists r, k. split.
  { pose proof (try_read_tail_offset _ _ Hr) as Hoff. simpl in Hoff. lia. }
  split; [exact Hr0|]. split; [exact Hrm|].
  simpl Nat.add in Hr.
  destruct separator as [sep|].
  - cbn [_decode_stream_generator get_first_pos_and_next_pos_func snd pos partial_doc].
    exact (f_equal (enter_loop (S (S fuel))) Hr).
  - cbn [_decode_stream_generator get_first_pos_and_next_pos_func snd pos].
    match goal with
    | |- enter_loop _ (next_pos _ ?st) = _ =>
        change (next_pos (S (S fuel)) st)
          with (match _try_read st [] with
                | Return (true, self') => next_pos (S fuel) self'
                | Return (false, self') => Return (false, self')
                | Raise e => Raise e
                | NoFuel => NoFuel
                end);
        change (_try_read st [] = Return (true,
                   reading text dec (fst (get_first_pos_and_next_pos_func None)) size bound
                           (hook_number_types parse_int parse_float) r k)) in Hr
    end.
    rewrite Hr. cbn [next_pos].
    change (next_pos_helper (reading ?tx ?d ?np ?s ?b ?ty ?n ?o)) with np.
    change (partial_doc (reading ?tx ?d ?np ?s ?b ?ty ?n ?o)) with (firstn n tx).
    change (cursor (reading ?tx ?d ?np ?s ?b ?ty ?n ?o)) with 0.
    destruct r as [|r]; [lia|]. rewrite Ht. simpl.
    unfold next_position_by_non_whitespace. simpl.
    now rewrite (Hc eq_refl).
Qed.

(** With nothing left of the bound a refill raises. *)
Lemma try_read_without_room `{UnicodeDB} {value : Type} `{PyObject value}
  {file : Type} `{TextIO file} (self : DecodeStream) (remaining_buffer : str) (m : Z) :
  (1 <= bufsize self)%Z ->
  max_bufsize self = Some m ->
  (m <= Z.of_nat (length remaining_buffer))%Z ->
  _try_read self remaining_buffer = Raise (ValueError max_buffer_size_exceeded).
Proof.
  intros Hbuf Hmax Hm. unfold _try_read, to_read. rewrite Hmax.
  destruct (Z.gtb_spec (Z.of_nat (length remaining_buffer) + bufsize self) m); [|lia].
  destruct (Z.leb_spec (m - Z.of_nat (length remaining_buffer)) 0); [reflexivity | lia].
Qed.

(** X7.  A document that spans several reads is put together again.
    The text is one document at the start of a [StringIO]; on every
    proper part of it taken from the start the loop asks for more (the
    decoder fails with an error that [_match_error] accepts, or returns a
    number that reaches the end of the buffer); the policy finds nothing
    after the document; and a bound on the buffer is no smaller than the
    text (larger, if the loop asks for more on the whole text too).  Then
    [load] yields the value of the whole text, once, and returns, at
    every read size. *)
Theorem load_reassembles_a_split_document `{UnicodeDB} {value : Type} `{PyObject value}
  (text : str) (decoder : JSONDecoder value)
  (parse_int parse_float : option (str -> value)) (separator : option str)
  (size : Z) (bound : option Z) (offset : Z) (fuel : nat)
  (c : N) (t : str) (obj : value) (e : nat) :
  (1 <= size)%Z ->
  text = c :: t ->
  (separator = None -> isspace c = false) ->
  (forall n, 0 < n < length text ->
             wants_more decoder parse_int parse_float (firstn n text) = true) ->
  raw_decode decoder text 0 = Return (obj, e) ->
  fst (get_first_pos_and_next_pos_func separator) text e = Return None ->
  (forall m, bound = Some m ->
             (Z.of_nat (length text) <= m)%Z
             /\ (wants_more decoder parse_int parse_float text = true ->
                 (Z.of_nat (length text) < m)%Z)) ->
  length text < fuel ->
  list_load fuel text decoder parse_int parse_float separator size bound offset
  = ([obj], Exhausted).
Proof.
  intros Hsize Ht Hc Hpartial Hwhole Hend Hbound Hfuel.
  assert (Hlen : 0 < length text) by (rewrite Ht; simpl; lia).
  destruct fuel as [|[|fuel]]; try lia.
  assert (Hroom : forall m, bound = Some m -> (0 < m)%Z)
    by (intros m Hm; apply Hbound in Hm; lia).
  destruct (@generator_starts _ _ _ text decoder parse_int parse_float separator
              size bound offset fuel c t Hsize Ht Hc Hroom)
    as (r & k & _ & Hr0 & _ & Hstart).
  destruct (@loop_reassembles _ _ _ text decoder parse_int parse_float separator
              size bound Hsize obj e Hpartial Hwhole Hbound
              (length text - r) r k (S (S fuel))) as [k' Hloop]; try lia.
  unfold list_load, load, __init__.
  destruct (get_first_pos_and_next_pos_func separator) as [np p0] eqn:Hpolicy.
  simpl fst in *. simpl snd in *.
  assert (Hlt : (size <? 1)%Z = false) by now apply Z.ltb_ge.
  rewrite Hlt, consume_turn.
  change (match parse_int with Some f => type_ (f (lit "0")) | None => int_ end,
          match parse_float with Some f => type_ (f (lit "0")) | None => float_ end)
    with (hook_number_types parse_int parse_float).
  rewrite Hstart, Hloop, consume_turn.
  cbn [_decode_stream_generator next_pos].
  change (next_pos_helper (drained ?d ?n ?s ?b ?ty ?doc ?q ?o)) with n.
  change (partial_doc (drained ?d ?n ?s ?b ?ty ?doc ?q ?o)) with doc.
  change (cursor (drained ?d ?n ?s ?b ?ty ?doc ?q ?o)) with q.
  rewrite Hend, try_read_takes_all; [reflexivity | exact Hsize | simpl; lia |].
  simpl. intros m Hm. apply Hroom in Hm. lia.
Qed.

(** X8.  A document larger than the bound on the buffer is never yielded.
    With the text and the decoder as for a document that spans several
    reads and [max_bufsize] less than the length of the text, [load]
    yields nothing and raises the buffer-size [ValueError], at every read
    size. *)
Theorem load_fails_on_a_document_larger_than_the_bound `{UnicodeDB} {value : Type}
  `{PyObject value} (text : str) (decoder : JSONDecoder value)
  (parse_int parse_float : option (str -> value)) (separator : option str)
  (size m offset : Z) (fuel : nat) (c : N) (t : str) :
  (1 <= size)%Z ->
  text = c :: t ->
  (separator = None -> isspace c = false) ->
  (forall n, 0 < n -> (Z.of_nat n <= m)%Z ->
             wants_more decoder parse_int parse_float (firstn n text) = true) ->
  (m < Z.of_nat (length text))%Z ->
  length text < fuel ->
  list_load fuel text decoder parse_int parse_float separator size (Some m) offset
  = ([], Raised (ValueError max_buffer_size_exceeded)).
Proof.
  intros Hsize Ht Hc Hpartial Hm Hfuel.
  assert (Hlen : 0 < length text) by (rewrite Ht; simpl; lia).
  destruct fuel as [|[|fuel]]; try lia.
  assert (Hlt : (size <? 1)%Z = false) by now apply Z.ltb_ge.
  destruct (Z.le_gt_cases m 0) as [Hle|Hpos].
  - unfold list_load, load, __init__.
    destruct separator as [sep|]; simpl get_first_pos_and_next_pos_func;
      cbv iota beta; rewrite Hlt, consume_turn;
      cbn [_decode_stream_generator pos partial_doc next_pos set_pos
           next_pos_helper cursor];
      [|change (next_position_by_non_whitespace [] 0) with (@None nat)];
      rewrite (@try_read_without_room _ _ _ _ _ _ [] m) by (simpl; lia || reflexivity);
      reflexivity.
  - assert (Hroom : forall m', Some m = Some m' -> (0 < m')%Z)
      by (intros m' [= <-]; lia).
    destruct (@generator_starts _ _ _ text decoder parse_int parse_float separator
                size (Some m) offset fuel c t Hsize Ht Hc Hroom)
      as (r & k & _ & Hr0 & Hrm & Hstart).
    specialize (Hrm m eq_refl).
    assert (Hb : Some m = Some (Z.of_nat (Z.to_nat m))) by (rewrite Z2Nat.id; [reflexivity | lia]).
    assert (Hloop :
      decode_loop (S (S fuel))
        (reading text decoder (fst (get_first_pos_and_next_pos_func separator)) size
                 (Some m) (hook_number_types parse_int parse_float) r k)
      = Throw (ValueError max_buffer_size_exceeded)).
    { rewrite Hb.
      apply (@loop_overflows _ _ _ text decoder parse_int parse_float separator
               size (Some (Z.of_nat (Z.to_nat m))) Hsize (Z.to_nat m) eq_refl)
        with (j := Z.to_nat m - r); try lia.
      intros n Hn. apply Hpartial; lia. }
    unfold list_load, load, __init__.
    destruct (get_first_pos_and_next_pos_func separator) as [np p0] eqn:Hpolicy.
    simpl fst in *. simpl snd in *.
    rewrite Hlt, consume_turn.
    change (match parse_int with Some f => type_ (f (lit "0")) | None => int_ end,
            match parse_float with Some f => type_ (f (lit "0")) | None => float_ end)
      with (hook_number_types parse_int parse_float).
    now rewrite Hstart, Hloop.
Qed.

(** The document [{"a": [1, 20]}] read three characters at a time. *)
Lemma load_reassembles_a_split_document_witness :
  (forall n, 0 < n < length nested_document ->
             wants_more default_decoder None None (firstn n nested_document) = true)
  /\ raw_decode default_decoder nested_document 0
     = Return (PyDict [(lit "a", PyList [PyInt 1; PyInt 20])], 14)
  /\ list_load 15 nested_document default_decoder None None None 3 None 0
     = ([PyDict [(lit "a", PyList [PyInt 1; PyInt 20])]], Exhausted).
Proof.
  assert (Hpartial : forall n, 0 < n < length nested_document ->
             wants_more default_decoder None None (firstn n nested_document) = true).
  { intros n Hn.
    do 14 (destruct n as [|n]; [try lia; vm_compute; reflexivity|]).
    vm_compute in Hn. lia. }
  assert (Hwhole : raw_decode default_decoder nested_document 0
                   = Return (PyDict [(lit "a", PyList [PyInt 1; PyInt 20])], 14))
    by (vm_compute; reflexivity).
  assert (Hsize : (1 <= 3)%Z) by lia.
  assert (Hfuel : length nested_document < 15) by (vm_compute; lia).
  assert (Hbound : forall m : Z, @None Z = Some m ->
            (Z.of_nat (length nested_document) <= m)%Z
            /\ (wants_more default_decoder None None nested_document = true ->
                (Z.of_nat (length nested_document) < m)%Z)) by discriminate.
  split; [exact Hpartial|]. split; [exact Hwhole|].
  exact (@load_reassembles_a_split_document CPython_ucd pyvalue CPython_objects
           nested_document default_decoder None None None 3 None 0 15
           (ch "{") (skipn 1 nested_document)
           (PyDict [(lit "a", PyList [PyInt 1; PyInt 20])]) 14
           Hsize eq_refl (fun _ => eq_refl) Hpartial Hwhole eq_refl Hbound Hfuel).
Defined.

(** The same document under a bound of six characters. *)
Lemma load_fails_on_a_document_larger_than_the_bound_witness :
  (6 < Z.of_nat (length nested_document))%Z
  /\ list_load 15 nested_document default_decoder None None None 3 (Some 6%Z) 0
     = ([], Raised (ValueError max_buffer_size_exceeded)).
Proof.
  assert (Hpartial : forall n, 0 < n -> (Z.of_nat n <= 6)%Z ->
             wants_more default_decoder None None (firstn n nested_document) = true).
  { intros n Hn Hn6.
    do 7 (destruct n as [|n]; [try lia; vm_compute; reflexivity|]). lia. }
  assert (Hsize : (1 <= 3)%Z) by lia.
  assert (Hm : (6 < Z.of_nat (length nested_document))%Z) by (vm_compute; reflexivity).
  assert (Hfuel : length nested_document < 15) by (vm_compute; lia).
  split; [exact Hm|].
  exact (@load_fails_on_a_document_larger_than_the_bound CPython_ucd pyvalue
           CPython_objects nested_document default_decoder None None None 3 6 0 15
           (ch "{") (skipn 1 nested_document)
           Hsize eq_refl (fun _ => eq_refl) Hpartial Hm Hfuel).
Defined.

(** ** Termination *)

Section Termination.
Context `{UnicodeDB} {value : Type} `{PyObject value}.

(** A read is asked for at least one character. *)
Lemma to_read_at_least_one (self : @DecodeStream value _ str) (remaining_buffer : str)
  (n : Z) :
  (1 <= bufsize self)%Z ->
  to_read self remaining_buffer = Return n -> (1 <= n)%Z.
Proof.
  intros Hbuf. unfold to_read.
  destruct (max_bufsize self) as [m|]; [|now intros [= <-]].
  destruct (_ >? _)%Z; [|now intros [= <-]].
  destruct (Z.leb_spec (m - Z.of_nat (length remaining_buffer)) 0); [discriminate|].
  intros [= <-]. lia.
Qed.

(** What a refill from a [StringIO] does to the source and to the buffer. *)
Lemma try_read_consumes (self self' : @DecodeStream value _ str)
  (remaining_buffer : str) (new_data : bool) :
  (1 <= bufsize self)%Z ->
  _try_read self remaining_buffer = Return (new_data, self') ->
  exists r : nat,
    0 < r
    /\ partial_doc self' = remaining_buffer ++ firstn r (stream self)
    /\ stream self' = skipn r (stream self)
    /\ (new_data = true -> stream self <> [])
    /\ (new_data = false -> stream self = [])
    /\ pos self' = Some 0
    /\ bufsize self' = bufsize self /\ max_bufsize self' = max_bufsize self
    /\ next_pos_helper self' = next_pos_helper self
    /\ decoder self' = decoder self /\ number_types self' = number_types self.
Proof.
  intros Hbuf Hr.
  destruct (try_read_returns _ _ Hr)
    as (n & new & Hn & Hread & Hnew & Hdoc & Hpos & _ & Hb & Hm & Hh & Hd & Ht).
  apply to_read_at_least_one in Hn; [|exact Hbuf].
  simpl in Hread. destruct (Z.ltb_spec n 0); [lia|]. injection Hread as <- Hs.
  exists (Z.to_nat n). split; [lia|]. split; [exact Hdoc|]. split; [now symmetry|].
  assert (Hcases : stream self = [] \/ exists c rest, stream self = c :: rest)
    by (destruct (stream self) as [|c rest]; [now left | right; now exists c, rest]).
  repeat split; try assumption.
  - intros ->. destruct Hcases as [Hnil|(c & rest & Hc)].
    + rewrite Hnil, firstn_nil in Hnew. discriminate.
    + rewrite Hc. discriminate.
  - intros ->. destruct Hcases as [Hnil|(c & rest & Hc)]; [exact Hnil|].
    rewrite Hc in Hnew. destruct (Z.to_nat n) as [|k] eqn:Hk; [lia|].
    simpl in Hnew. discriminate.
Qed.

(** A refill that brought data took at least one character from the
    source. *)
Lemma try_read_shortens (self self' : @DecodeStream value _ str)
  (remaining_buffer : str) :
  (1 <= bufsize self)%Z ->
  _try_read self remaining_buffer = Return (true, self') ->
  length (stream self') < length (stream self).
Proof.
  intros Hbuf Hr.
  destruct (try_read_consumes _ _ Hbuf Hr) as (r & Hr0 & _ & Hs & Hne & _).
  rewrite Hs, length_skipn. specialize (Hne eq_refl).
  assert (0 < length (stream self)) by (destruct (stream self); [congruence | simpl; lia]).
  lia.
Qed.

Lemma try_read_never_starves (self : @DecodeStream value _ str) (remaining_buffer : str) :
  _try_read self remaining_buffer <> NoFuel.
Proof.
  unfold _try_read. destruct (to_read self remaining_buffer) eqn:Ht; try discriminate.
  - now destruct (read (stream self) a).
  - unfold to_read in Ht. destruct (max_bufsize self); [|discriminate].
    destruct (_ >? _)%Z; [|discriminate]. destruct (_ <=? _)%Z; discriminate.
Qed.

(** The search for the next document ends within one turn per character
    of the source, and one more. *)
Lemma next_pos_ends (fuel : nat) :
  forall self : @DecodeStream value _ str,
    length (stream self) < fuel ->
    (1 <= bufsize self)%Z ->
    (forall d p, next_pos_helper self d p <> NoFuel) ->
    next_pos fuel self <> NoFuel.
Proof.
  induction fuel as [|fuel IH]; intros self Hfuel Hbuf Hhelper; [lia|]. simpl.
  specialize (Hhelper (partial_doc self) (cursor self)) as Hnow.
  destruct (next_pos_helper self (partial_doc self) (cursor self)) as [[p|]| |];
    [discriminate| |discriminate|congruence].
  pose proof (try_read_never_starves self []) as Hnf.
  destruct (_try_read self []) as [[[|] self']| |] eqn:Hr;
    [|discriminate|discriminate|congruence].
  pose proof (try_read_shortens _ _ Hbuf Hr) as Hshort.
  destruct (try_read_consumes _ _ Hbuf Hr)
    as (_ & _ & _ & _ & _ & _ & _ & Hb & _ & Hh & _).
  apply IH; [lia | now rewrite Hb | now rewrite Hh].
Qed.

(** What the search for the next document keeps. *)
Lemma next_pos_keeps (fuel : nat) :
  forall (self self' : @DecodeStream value _ str) (found : bool),
    (1 <= bufsize self)%Z ->
    next_pos fuel self = Return (found, self') ->
    length (stream self') <= length (stream self)
    /\ bufsize self' = bufsize self /\ max_bufsize self' = max_bufsize self
    /\ next_pos_helper self' = next_pos_helper self
    /\ decoder self' = decoder self /\ number_types self' = number_types self.
Proof.
  induction fuel as [|fuel IH]; intros self self' found Hbuf; simpl; [discriminate|].
  destruct (next_pos_helper self (partial_doc self) (cursor self)) as [[p|]| |];
    try discriminate.
  - intros [= _ <-]. simpl. repeat split; reflexivity || lia.
  - destruct (_try_read self []) as [[[|] s1]| |] eqn:Hr; try discriminate.
    + intros Hn.
      destruct (try_read_consumes _ _ Hbuf Hr)
        as (r & _ & _ & Hs & _ & _ & _ & Hb & Hm & Hh & Hd & Ht).
      apply IH in Hn; [|now rewrite Hb].
      destruct Hn as (Hs' & Hb' & Hm' & Hh' & Hd' & Ht').
      rewrite Hs, length_skipn in Hs'.
      repeat split; try congruence. lia.
    + intros [= _ <-].
      destruct (try_read_consumes _ _ Hbuf Hr)
        as (r & _ & _ & Hs & _ & _ & _ & Hb & Hm & Hh & Hd & Ht).
      rewrite Hs, length_skipn. repeat split; try congruence. lia.
Qed.

(** The loop ends within one turn per character of the source, and one
    more. *)
Lemma decode_loop_ends (fuel : nat) :
  forall self : @DecodeStream value _ str,
    length (stream self) < fuel ->
    (1 <= bufsize self)%Z ->
    (forall d p, raw_decode (decoder self) d p <> NoFuel) ->
    decode_loop fuel self <> Starved.
Proof.
  induction fuel as [|fuel IH]; intros self Hfuel Hbuf Hdec; [lia|].
  rewrite decode_loop_turn.
  specialize (Hdec (partial_doc self) (cursor self)) as Hnow.
  pose proof (try_read_never_starves self (skipn (cursor self) (partial_doc self))) as Hnf.
  assert (Hrefill :
    forall (on_false : @DecodeStream value _ str -> step value (stream_pc * DecodeStream)),
      (forall s, on_false s <> Starved) ->
      match _try_read self (skipn (cursor self) (partial_doc self)) with
      | Return (true, self') => decode_loop fuel self'
      | Return (false, self') => on_false self'
      | Raise e => Throw e
      | NoFuel => Starved
      end <> Starved).
  { intros on_false Hon.
    destruct (_try_read self (skipn (cursor self) (partial_doc self)))
      as [[[|] self']| |] eqn:Hr; [|apply Hon|discriminate|congruence].
    pose proof (try_read_shortens _ _ Hbuf Hr) as Hshort.
    destruct (try_read_consumes _ _ Hbuf Hr)
      as (_ & _ & _ & _ & _ & _ & _ & Hb & _ & _ & Hd & _).
    apply IH; [lia | now rewrite Hb | now rewrite Hd]. }
  destruct (raw_decode (decoder self) (partial_doc self) (cursor self))
    as [[obj new_pos]| [ex| | | |] |]; try discriminate; try congruence.
  - destruct (_ && _); [|discriminate].
    apply (Hrefill (fun s => Yield obj (pc_yielded, set_pos s new_pos))). discriminate.
  - destruct (_match_error ex); [|discriminate].
    apply (Hrefill (fun s => Throw (DecodeError (_update_error s ex)))). discriminate.
Qed.

(** X9.  Every [next] on the generator over a [StringIO] ends: it yields,
    returns or raises.  Each turn of the loops of [next_pos] and of the
    generator but the last follows a read that brought at least one
    character, so a loop makes at most one turn per character left in the
    source, and one more. *)
Theorem next_on_the_generator_ends (fuel : nat) (pc : stream_pc)
  (self : @DecodeStream value _ str) :
  (1 <= bufsize self)%Z ->
  (forall d p, raw_decode (decoder self) d p <> NoFuel) ->
  (forall d p, next_pos_helper self d p <> NoFuel) ->
  length (stream self) < fuel ->
  _decode_stream_generator fuel (pc, self) <> Starved.
Proof.
  intros Hbuf Hdec Hhelper Hfuel. unfold _decode_stream_generator.
  assert (Henter :
    forall r : res (bool * @DecodeStream value _ str),
      r <> NoFuel ->
      (forall found s1, r = Return (found, s1) ->
                        length (stream s1) <= length (stream self)
                        /\ bufsize s1 = bufsize self /\ decoder s1 = decoder self) ->
      enter_loop fuel r <> Starved).
  { intros r Hr Hkeep. unfold enter_loop.
    destruct r as [[[|] s1]| |]; try discriminate; try congruence.
    destruct (Hkeep true s1 eq_refl) as (Hs & Hb & Hd).
    apply decode_loop_ends; [lia | now rewrite Hb | now rewrite Hd]. }
  destruct pc; [| |discriminate].
  - destruct (pos self).
    + apply Henter.
      * apply try_read_never_starves.
      * intros found s1 Hr.
        destruct (try_read_consumes _ _ Hbuf Hr)
          as (r & _ & _ & Hs & _ & _ & _ & Hb & _ & _ & Hd & _).
        rewrite Hs, length_skipn. repeat split; try assumption. lia.
    + apply Henter.
      * apply next_pos_ends; simpl; assumption.
      * intros found s1 Hr. apply next_pos_keeps in Hr; [|exact Hbuf].
        simpl in Hr. tauto.
  - apply Henter.
    + apply next_pos_ends; assumption.
    + intros found s1 Hr. apply next_pos_keeps in Hr; [|exact Hbuf]. tauto.
Qed.

End Termination.

(** ** The decoder of the [json] module consumes what it decodes *)

Lemma skip_ws_from_advances (rest : str) (idx : nat) : idx <= skip_ws_from rest idx.
Proof.
  revert idx; induction rest as [|c rest IH]; intros idx; simpl; [lia|].
  destruct (is_json_ws c); [|lia]. specialize (IH (S idx)). lia.
Qed.

Lemma skip_ws_advances (s : str) (idx : nat) : idx <= skip_ws s idx.
Proof. apply skip_ws_from_advances. Qed.

Lemma match_number_not_empty (l : str) (n : nat) (is_float : bool) :
  match_number l = Some (n, is_float) -> 0 < n.
Proof.
  unfold match_number.
  destruct (match l with
            | [] => (0, l)
            | c :: l' => if (c =? ch "-")%N then (1, l') else (0, l)
            end) as [sign l1].
  destruct (match l1 with
            | [] => None
            | c :: l2 =>
                if (c =? ch "0")%N then Some 1
                else if between 49 57 c then Some (1 + span_digits l2) else None
            end) as [k|] eqn:Hk; [|discriminate].
  intros [= <- _].
  destruct l1 as [|c l2]; [discriminate|].
  destruct (c =? ch "0")%N; [injection Hk as <-; lia|].
  destruct (between 49 57 c); [injection Hk as <-; lia | discriminate].
Qed.

Lemma scanstring_from_advances (fuel : nat) :
  forall (s : str) (begin i : nat) (acc text : str) (e : nat),
    scanstring_from fuel s begin i acc = Scanned text e -> i < e.
Proof.
  induction fuel as [|fuel IH]; intros s begin i acc text e; cbn [scanstring_from];
    [discriminate|].
  destruct (skipn i s) as [|c rest]; [discriminate|].
  destruct (c =? 34)%N; [intros [= _ <-]; lia|].
  destruct (c =? 92)%N.
  - destruct rest as [|x rest2]; [discriminate|].
    destruct (x =? ch "u")%N.
    + destruct (length rest2 <? 5); [discriminate|].
      destruct (hex4 rest2) as [c1|]; [|discriminate].
      destruct (_ && _).
      * destruct (hex4 _) as [c2|]; [|discriminate].
        destruct (between 56320 57343 c2); intros Hs; apply IH in Hs; lia.
      * intros Hs; apply IH in Hs; lia.
    + destruct (backslash x); [|discriminate]. intros Hs; apply IH in Hs; lia.
  - destruct (c <=? 31)%N; [discriminate|]. intros Hs; apply IH in Hs; lia.
Qed.

Section ScannerProgress.
Variables parse_int parse_float : str -> pyvalue.

Lemma array_items_turn (fuel : nat) (s : str) (idx : nat) (acc : list pyvalue) :
  array_items parse_int parse_float (S fuel) s idx acc
  = match scan_once parse_int parse_float fuel s idx with
    | Scanned v next =>
        let idx' := skip_ws s next in
        if char_is (nth_error s idx') (N.eqb (ch "]"))
        then Scanned (PyList (rev (v :: acc))) (S idx')
        else if char_is (nth_error s idx') (N.eqb (ch ","))
        then array_items parse_int parse_float fuel s (skip_ws s (S idx')) (v :: acc)
        else Fail (json_error "Expecting ',' delimiter" s idx')
    | Stop i => Stop i
    | Fail e => Fail e
    | Deep => Deep
    end.
Proof. reflexivity. Qed.

Lemma object_items_turn (fuel : nat) (s : str) (idx : nat) (acc : list (str * pyvalue)) :
  object_items parse_int parse_float (S fuel) s idx acc
  = if negb (char_is (nth_error s idx) (N.eqb 34))
    then Fail (json_error "Expecting property name enclosed in double quotes" s idx)
    else
      match scanstring s (S idx) with
      | Scanned key next =>
          let colon := skip_ws s next in
          if negb (char_is (nth_error s colon) (N.eqb (ch ":")))
          then Fail (json_error "Expecting ':' delimiter" s colon)
          else
            match scan_once parse_int parse_float fuel s (skip_ws s (S colon)) with
            | Scanned v next' =>
                let idx' := skip_ws s next' in
                if char_is (nth_error s idx') (N.eqb (ch "}"))
                then Scanned (PyDict (dict_of_pairs (rev ((key, v) :: acc)))) (S idx')
                else if char_is (nth_error s idx') (N.eqb (ch ","))
                then object_items parse_int parse_float fuel s (skip_ws s (S idx'))
                                  ((key, v) :: acc)
                else Fail (json_error "Expecting ',' delimiter" s idx')
            | Stop i => Stop i
            | Fail e => Fail e
            | Deep => Deep
            end
      | Stop i => Stop i
      | Fail e => Fail e
      | Deep => Deep
      end.
Proof. reflexivity. Qed.

Lemma scanner_advances (fuel : nat) :
  (forall s idx v e, scan_once parse_int parse_float fuel s idx = Scanned v e -> idx < e)
  /\ (forall s idx acc v e,
         array_items parse_int parse_float fuel s idx acc = Scanned v e -> idx < e)
  /\ (forall s idx acc v e,
         object_items parse_int parse_float fuel s idx acc = Scanned v e -> idx < e).
Proof.
  induction fuel as [|fuel (IHscan & IHarray & IHobject)];
    [repeat split; intros; discriminate|].
  split; [|split].
  - intros s idx v e. cbn [scan_once].
    destruct (skipn idx s) as [|c rest]; [discriminate|].
    destruct (c =? 34)%N.
    { unfold scanstring.
      destruct (scanstring_from _ _ _ _ _) as [text end_| | |] eqn:Hs; try discriminate.
      intros [= _ <-]. apply scanstring_from_advances in Hs. lia. }
    destruct (c =? ch "{")%N.
    { pose proof (skip_ws_advances s (S idx)) as Hws.
      destruct (char_is _ _); [intros [= _ <-]; lia|].
      intros Ho. apply IHobject in Ho. lia. }
    destruct (c =? ch "[")%N.
    { pose proof (skip_ws_advances s (S idx)) as Hws.
      destruct (char_is _ _); [intros [= _ <-]; lia|].
      intros Ha. apply IHarray in Ha. lia. }
    destruct (is_prefix (lit "null") _); [intros [= _ <-]; lia|].
    destruct (is_prefix (lit "true") _); [intros [= _ <-]; lia|].
    destruct (is_prefix (lit "false") _); [intros [= _ <-]; lia|].
    destruct (match_number (c :: rest)) as [[n is_float]|] eqn:Hn.
    { apply match_number_not_empty in Hn. intros [= _ <-]. lia. }
    destruct (is_prefix (lit "NaN") _); [intros [= _ <-]; lia|].
    destruct (is_prefix (lit "Infinity") _); [intros [= _ <-]; lia|].
    destruct (is_prefix (lit "-Infinity") _); [intros [= _ <-]; lia | discriminate].
  - intros s idx acc v e. rewrite array_items_turn. cbv zeta.
    destruct (scan_once parse_int parse_float fuel s idx) as [w next| | |] eqn:Hs;
      try discriminate.
    apply IHscan in Hs. pose proof (skip_ws_advances s next) as Hws.
    destruct (char_is _ _); [intros [= _ <-]; lia|].
    destruct (char_is _ _); [|discriminate].
    pose proof (skip_ws_advances s (S (skip_ws s next))) as Hws'.
    intros Ha. apply IHarray in Ha. lia.
  - intros s idx acc v e. rewrite object_items_turn. cbv zeta.
    destruct (negb _); [discriminate|].
    unfold scanstring.
    destruct (scanstring_from _ _ _ _ _) as [key next| | |] eqn:Hk; try discriminate.
    apply scanstring_from_advances in Hk.
    pose proof (skip_ws_advances s next) as Hcolon.
    destruct (negb _); [discriminate|].
    pose proof (skip_ws_advances s (S (skip_ws s next))) as Hvalue.
    destruct (scan_once parse_int parse_float fuel s _) as [w next'| | |] eqn:Hs;
      try discriminate.
    apply IHscan in Hs. pose proof (skip_ws_advances s next') as Hws.
    destruct (char_is _ _); [intros [= _ <-]; lia|].
    destruct (char_is _ _); [|discriminate].
    pose proof (skip_ws_advances s (S (skip_ws s next'))) as Hws'.
    intros Ho. apply IHobject in Ho. lia.
Qed.

(** A value the decoder returns ends after the position it was asked to
    decode from, and the decoder always answers. *)
Lemma PyJSON_consumes (s : str) (idx : nat) (obj : pyvalue) (e : nat) :
  raw_decode (PyJSON parse_int parse_float) s idx = Return (obj, e) -> idx < e.
Proof.
  simpl. unfold PyJSON_raw_decode.
  destruct (scan_once _ _ _ _ _) as [v end_| | |] eqn:Hs; try discriminate.
  intros [= _ <-]. now apply (proj1 (scanner_advances _)) in Hs.
Qed.

Lemma PyJSON_answers (s : str) (idx : nat) :
  raw_decode (PyJSON parse_int parse_float) s idx <> NoFuel.
Proof.
  simpl. unfold PyJSON_raw_decode. now destruct (scan_once _ _ _ _ _).
Qed.

End ScannerProgress.

(** ** The errors of the decoder under the retry classifier *)

Lemma scanstring_from_found_no_value (fuel : nat) :
  forall s begin i acc, found_no_value s (scanstring_from fuel s begin i acc).
Proof.
  induction fuel as [|fuel IH]; intros s begin i acc; [exact I|].
  cbn [scanstring_from].
  destruct (skipn i s) as [|c rest]; [discriminate|].
  destruct (c =? 34)%N; [exact I|].
  destruct (c =? 92)%N.
  { destruct rest as [|e rest2]; [discriminate|].
    destruct (e =? ch "u")%N.
    - destruct (length rest2 <? 5); [discriminate|].
      destruct (hex4 rest2) as [c1|]; [|discriminate].
      destruct (_ && _).
      + destruct (hex4 _) as [c2|]; [|discriminate].
        destruct (between 56320 57343 c2); apply IH.
      + apply IH.
    - destruct (backslash e); [apply IH | discriminate]. }
  destruct (c <=? 31)%N; [discriminate | apply IH].
Qed.

Section ScannerErrors.
Variables parse_int parse_float : str -> pyvalue.

Lemma scanner_found_no_value (fuel : nat) :
  (forall s idx, found_no_value s (scan_once parse_int parse_float fuel s idx))
  /\ (forall s idx acc, found_no_value s (array_items parse_int parse_float fuel s idx acc))
  /\ (forall s idx acc, found_no_value s (object_items parse_int parse_float fuel s idx acc)).
Proof.
  induction fuel as [|fuel (IHscan & IHarray & IHobject)];
    [repeat split; intros; exact I|].
  split; [|split].
  - intros s idx. cbn [scan_once].
    destruct (skipn idx s) as [|c rest] eqn:Hrest.
    { simpl. now rewrite Hrest. }
    destruct (c =? 34)%N.
    { unfold scanstring.
      pose proof (scanstring_from_found_no_value (S (length s)) s (S idx - 1) (S idx) [])
        as Hs.
      now destruct (scanstring_from _ _ _ _ _). }
    destruct (c =? ch "{")%N.
    { destruct (char_is _ _); [exact I | apply IHobject]. }
    destruct (c =? ch "[")%N.
    { destruct (char_is _ _); [exact I | apply IHarray]. }
    destruct (is_prefix (lit "null") _) eqn:K1; [exact I|].
    destruct (is_prefix (lit "true") _) eqn:K2; [exact I|].
    destruct (is_prefix (lit "false") _) eqn:K3; [exact I|].
    destruct (match_number (c :: rest)) as [[n is_float]|]; [exact I|].
    destruct (is_prefix (lit "NaN") _) eqn:K4; [exact I|].
    destruct (is_prefix (lit "Infinity") _) eqn:K5; [exact I|].
    destruct (is_prefix (lit "-Infinity") _) eqn:K6; [exact I|].
    simpl. rewrite Hrest. unfold starts_no_keyword, KEYWORDS. cbn [forallb].
    now rewrite K1, K2, K3, K4, K5, K6.
  - intros s idx acc. rewrite array_items_turn. cbv zeta.
    pose proof (IHscan s idx) as Hs.
    destruct (scan_once parse_int parse_float fuel s idx) as [w next| | |];
      try exact Hs.
    destruct (char_is _ _); [exact I|].
    destruct (char_is _ _); [apply IHarray | discriminate].
  - intros s idx acc. rewrite object_items_turn. cbv zeta.
    destruct (negb _); [discriminate|].
    unfold scanstring.
    pose proof (scanstring_from_found_no_value (S (length s)) s (S idx - 1) (S idx) [])
      as Hk.
    destruct (scanstring_from _ _ _ _ _) as [key next| | |]; try exact Hk.
    destruct (negb _); [discriminate|].
    pose proof (IHscan s (skip_ws s (S (skip_ws s next)))) as Hs.
    destruct (scan_once parse_int parse_float fuel s _) as [w next'| | |];
      try exact Hs.
    destruct (char_is _ _); [exact I|].
    destruct (char_is _ _); [apply IHobject | discriminate].
Qed.

(** A decoding error of the decoder that is of the kind [Expecting
    value] stands where no keyword starts. *)
Lemma PyJSON_expecting_value (s : str) (idx : nat) (ex : JSONDecodeError) :
  raw_decode (PyJSON parse_int parse_float) s idx = Raise (DecodeError ex) ->
  kind_of (ex_msg ex) = Some expecting_value ->
  starts_no_keyword (remainder ex) = true.
Proof.
  simpl. unfold PyJSON_raw_decode.
  pose proof (proj1 (scanner_found_no_value (2 * length s + 2)) s idx) as Hs.
  destruct (scan_once _ _ _ _ _) as [v end_|i|e|]; try discriminate.
  - intros [= <-] _. exact Hs.
  - intros [= ->] Hk. now elim Hs.
Qed.

End ScannerErrors.

Lemma keyword_lengths (kw : str) : In kw KEYWORDS -> length kw <= MAX_KEYWORD_LEN.
Proof.
  unfold KEYWORDS. simpl.
  intros [<- | [<- | [<- | [<- | [<- | [<- | []]]]]]]; vm_compute; lia.
Qed.

(** Where no keyword starts, the keyword condition of the code and the
    one of the specification say the same. *)
Lemma keyword_conditions_agree (ex : JSONDecodeError) :
  starts_no_keyword (remainder ex) = true ->
  (short_keyword_prefix ex <-> strict_keyword_prefix ex).
Proof.
  intros Hno. unfold starts_no_keyword in Hno. rewrite forallb_forall in Hno.
  split.
  - intros (kw & Hin & (t & Ht) & Hlen). exists kw. split; [exact Hin|]. split; [|lia].
    exists t. split; [|exact Ht].
    intros ->. rewrite app_nil_r in Ht. subst kw.
    specialize (Hno _ Hin). apply negb_true_iff in Hno.
    assert (Hp : is_prefix (remainder ex) (remainder ex) = true)
      by (apply is_prefix_spec; exists []; now rewrite app_nil_r).
    congruence.
  - intros (kw & Hin & (t & Hne & Ht) & _). exists kw. split; [exact Hin|].
    split; [now exists t|].
    pose proof (keyword_lengths Hin) as Hkw.
    apply (f_equal (@length N)) in Ht. rewrite length_app in Ht.
    destruct t; [now elim Hne | simpl in Ht; lia].
Qed.

Lemma retriable_with_agree `{UnicodeDB} (P Q : JSONDecodeError -> Prop)
  (ex : JSONDecodeError) :
  (kind_of (ex_msg ex) = Some expecting_value -> (P ex <-> Q ex)) ->
  (retriable_with P ex <-> retriable_with Q ex).
Proof.
  unfold retriable_with. intros Hsame.
  destruct (kind_of (ex_msg ex)) as [[| | |]|]; try tauto;
    split; (intros [?|[?|[? _]]]; [now left | right; now left | discriminate]).
Qed.

(** C2.  For every decoding error [ex] that the decoder of the [json]
    module raises, whatever the hooks for the numbers, the document and
    the position, [_match_error ex] is true precisely when the kind of
    [ex] is unterminated-string, or is one of the three expecting kinds
    and (i) [ex.pos] is the end of the buffered document, or (ii)
    [ex.pos] is one before the end, with a decimal point as last buffered
    character and a digit just before it, or (iii) the kind is
    expecting-a-value and the remainder [ex.doc[ex.pos:]] is a strict
    prefix of a known keyword, no longer than the longest known keyword.
    For every other such error it is false, and the loop of the stream
    decoder then raises the error without reading.  The digits of the
    character database do not include the decimal point. *)
Theorem match_error_on_decoder_errors `{UnicodeDB} {file : Type} `{TextIO file}
  (parse_int parse_float : str -> pyvalue) (doc : str) (idx : nat)
  (ex : JSONDecodeError) :
  isdigit (ch ".") = false ->
  raw_decode (PyJSON parse_int parse_float) doc idx = Raise (DecodeError ex) ->
  (_match_error ex = true <-> retriable_with strict_keyword_prefix ex)
  /\ (_match_error ex = false ->
      forall (fuel : nat) (self : @DecodeStream pyvalue CPython_objects file),
        raw_decode (decoder self) (partial_doc self) (cursor self)
        = Raise (DecodeError ex) ->
        decode_loop (S fuel) self = Throw (DecodeError (_update_error self ex))).
Proof.
  intros Hpoint Hraised.
  destruct (@match_error_characterised _ pyvalue CPython_objects file _ ex Hpoint)
    as [Hcode Hfinal].
  split; [|exact Hfinal].
  rewrite Hcode. apply retriable_with_agree. intros Hkind.
  apply keyword_conditions_agree.
  exact (PyJSON_expecting_value _ _ _ _ Hraised Hkind).
Qed.

(** The error the decoder raises on the buffer [nul]. *)
Lemma match_error_on_decoder_errors_witness :
  (_match_error cut_keyword_error = true
   <-> retriable_with strict_keyword_prefix cut_keyword_error)
  /\ (_match_error cut_keyword_error = false ->
      forall (fuel : nat) (self : @DecodeStream pyvalue CPython_objects str),
        raw_decode (decoder self) (partial_doc self) (cursor self)
        = Raise (DecodeError cut_keyword_error) ->
        decode_loop (S fuel) self
        = Throw (DecodeError (_update_error self cut_keyword_error))).
Proof.
  apply (@match_error_on_decoder_errors CPython_ucd str StringIO
           (fun l => PyInt (int_of_literal l)) PyFloat (lit "nul") 0 cut_keyword_error).
  - reflexivity.
  - reflexivity.
Defined.

(** The search through fourteen spaces, one read each, and the decoding of
    ['"small"'] in seven more. *)
Lemma next_on_the_generator_ends_witness :
  length (stream padded_stream) < 22
  /\ _decode_stream_generator 22 (pc_yielded, padded_stream) <> Starved.
Proof.
  assert (Hbuf : (1 <= bufsize padded_stream)%Z) by (simpl; lia).
  assert (Hfuel : length (stream padded_stream) < 22) by (vm_compute; lia).
  assert (Hhelper : forall d p, next_pos_helper padded_stream d p <> NoFuel)
    by (intros d p; discriminate).
  split; [exact Hfuel|].
  exact (@next_on_the_generator_ends CPython_ucd pyvalue CPython_objects 22 pc_yielded
           padded_stream Hbuf (PyJSON_answers _ _) Hhelper Hfuel).
Defined.

Section Measure.
Context `{UnicodeDB} {value : Type} `{PyObject value}.
Variable separator : option str.

(** A refill that brought data leaves less to do than the source alone
    stood for, whatever the tail that was kept. *)
Lemma refill_work (self self' : @DecodeStream value _ str) (remaining_buffer : str) :
  (1 <= bufsize self)%Z ->
  _try_read self remaining_buffer = Return (true, self') ->
  work_left self' + 1 < 3 * length (stream self) + length remaining_buffer + 1
  /\ cursor self' = 0.
Proof.
  intros Hbuf Hr.
  destruct (try_read_consumes _ _ Hbuf Hr) as (r & Hr0 & Hdoc & Hs & Hne & _ & Hpos & _).
  specialize (Hne eq_refl).
  assert (Hlen : 0 < length (stream self))
    by (destruct (stream self); [congruence | simpl; lia]).
  unfold work_left, cursor. rewrite Hpos, Hdoc, Hs, length_app, length_firstn, length_skipn.
  split; [lia | reflexivity].
Qed.

Lemma next_pos_work (fuel : nat) :
  forall self self' : @DecodeStream value _ str,
    (1 <= bufsize self)%Z ->
    next_pos_helper self = fst (get_first_pos_and_next_pos_func separator) ->
    next_pos fuel self = Return (true, self') ->
    work_left self' <= work_left self /\ cursor self' <= length (partial_doc self').
Proof.
  induction fuel as [|fuel IH]; intros self self' Hbuf Hhelper; simpl; [discriminate|].
  rewrite Hhelper.
  destruct (policy_cases separator (partial_doc self) (cursor self))
    as [Hn|[(p & Hn & Hp)|(sep & _ & Hn)]]; rewrite Hn; [| |discriminate].
  - destruct (_try_read self []) as [[[|] s1]| |] eqn:Hr; try discriminate.
    intros Hnext.
    destruct (refill_work _ _ Hbuf Hr) as [Hwork Hcur].
    destruct (try_read_consumes _ _ Hbuf Hr)
      as (_ & _ & _ & _ & _ & _ & _ & Hb & _ & Hh & _).
    apply IH in Hnext; [|now rewrite Hb | now rewrite Hh, Hhelper].
    assert (3 * length (stream self) <= work_left self) by (unfold work_left; lia).
    simpl in Hwork. lia.
  - intros [= <-]. unfold work_left, cursor. simpl. fold (cursor self). lia.
Qed.

Section Decoder.
Variable dec : JSONDecoder value.
Hypothesis Hconsumes :
  forall d p obj e, raw_decode dec d p = Return (obj, e) -> p < e.

Lemma decode_loop_work (fuel : nat) :
  forall (self self' : @DecodeStream value _ str) (obj : value) (pc : stream_pc),
    (1 <= bufsize self)%Z ->
    decoder self = dec ->
    cursor self <= length (partial_doc self) ->
    decode_loop fuel self = Yield obj (pc, self') ->
    work_left self' < work_left self.
Proof.
  induction fuel as [|fuel IH]; intros self self' obj pc Hbuf Hdec Hcur; [discriminate|].
  rewrite decode_loop_turn, Hdec.
  assert (Hrefill :
    forall s1, _try_read self (skipn (cursor self) (partial_doc self)) = Return (true, s1) ->
               decode_loop fuel s1 = Yield obj (pc, self') ->
               work_left self' < work_left self).
  { intros s1 Hr Hloop.
    destruct (refill_work _ _ Hbuf Hr) as [Hwork Hcur1].
    destruct (try_read_consumes _ _ Hbuf Hr)
      as (_ & _ & _ & _ & _ & _ & _ & Hb & _ & _ & Hd & _).
    apply IH in Hloop; [|now rewrite Hb | now rewrite Hd | rewrite Hcur1; lia].
    rewrite length_skipn in Hwork.
    assert (3 * length (stream self) + (length (partial_doc self) - cursor self) + 1
            <= work_left self) by (unfold work_left; lia).
    lia. }
  destruct (raw_decode dec (partial_doc self) (cursor self))
    as [[o new_pos]| [ex| | | |] |] eqn:Hraw; try discriminate.
  - apply Hconsumes in Hraw.
    destruct (_ && _).
    + destruct (_try_read self (skipn (cursor self) (partial_doc self)))
        as [[[|] s1]| |] eqn:Hr; try discriminate.
      * now apply Hrefill.
      * intros [= _ _ <-].
        destruct (try_read_consumes _ _ Hbuf Hr)
          as (r & _ & Hdoc & Hs & _ & Hnil & _).
        specialize (Hnil eq_refl).
        unfold work_left, cursor. simpl. fold (cursor self).
        rewrite Hdoc, Hs, Hnil, firstn_nil, skipn_nil, app_nil_r, length_skipn.
        simpl. lia.
    + intros [= _ _ <-]. unfold work_left, cursor. simpl. fold (cursor self). lia.
  - destruct (_match_error ex); [|discriminate].
    destruct (_try_read self (skipn (cursor self) (partial_doc self)))
      as [[[|] s1]| |] eqn:Hr; try discriminate.
    now apply Hrefill.
Qed.

Hypothesis Hanswers : forall d p, raw_decode dec d p <> NoFuel.

(** What the loop keeps up to a value it yields. *)
Lemma decode_loop_keeps (fuel : nat) :
  forall (self self' : @DecodeStream value _ str) (obj : value) (pc : stream_pc),
    (1 <= bufsize self)%Z ->
    decode_loop fuel self = Yield obj (pc, self') ->
    pc = pc_yielded
    /\ length (stream self') <= length (stream self)
    /\ bufsize self' = bufsize self
    /\ next_pos_helper self' = next_pos_helper self
    /\ decoder self' = decoder self.
Proof.
  induction fuel as [|fuel IH]; intros self self' obj pc Hbuf; [discriminate|].
  rewrite decode_loop_turn.
  assert (Hrefill :
    forall s1, _try_read self (skipn (cursor self) (partial_doc self)) = Return (true, s1) ->
               decode_loop fuel s1 = Yield obj (pc, self') ->
               pc = pc_yielded
               /\ length (stream self') <= length (stream self)
               /\ bufsize self' = bufsize self
               /\ next_pos_helper self' = next_pos_helper self
               /\ decoder self' = decoder self).
  { intros s1 Hr Hloop.
    destruct (try_read_consumes _ _ Hbuf Hr)
      as (r & _ & _ & Hs & _ & _ & _ & Hb & _ & Hh & Hd & _).
    apply IH in Hloop; [|now rewrite Hb].
    destruct Hloop as (Hpc & Hs' & Hb' & Hh' & Hd').
    rewrite Hs, length_skipn in Hs'. repeat split; try congruence. lia. }
  destruct (raw_decode (decoder self) (partial_doc self) (cursor self))
    as [[o new_pos]| [ex| | | |] |]; try discriminate.
  - destruct (_ && _).
    + destruct (_try_read self (skipn (cursor self) (partial_doc self)))
        as [[[|] s1]| |] eqn:Hr; try discriminate.
      * now apply Hrefill.
      * intros [= _ <- <-].
        destruct (try_read_consumes _ _ Hbuf Hr)
          as (r & _ & _ & Hs & _ & _ & _ & Hb & _ & Hh & Hd & _).
        simpl. rewrite Hs, length_skipn. repeat split; try assumption. lia.
    + intros [= _ <- <-]. simpl. repeat split; reflexivity || lia.
  - destruct (_match_error ex); [|discriminate].
    destruct (_try_read self (skipn (cursor self) (partial_doc self)))
      as [[[|] s1]| |] eqn:Hr; try discriminate.
    now apply Hrefill.
Qed.

(** One [next]: it ends, and a value it yields leaves less to do. *)
Lemma generator_round (fuel : nat) (pc : stream_pc) (self : @DecodeStream value _ str) :
  (1 <= bufsize self)%Z ->
  next_pos_helper self = fst (get_first_pos_and_next_pos_func separator) ->
  decoder self = dec ->
  (pc = pc_start -> cursor self = 0) ->
  length (stream self) < fuel ->
  match _decode_stream_generator fuel (pc, self) with
  | Yield obj (pc', self') =>
      pc' = pc_yielded
      /\ work_left self' < work_left self
      /\ length (stream self') <= length (stream self)
      /\ (1 <= bufsize self')%Z
      /\ next_pos_helper self' = fst (get_first_pos_and_next_pos_func separator)
      /\ decoder self' = dec
  | Starved => False
  | _ => True
  end.
Proof.
  intros Hbuf Hhelper Hdec Hstart Hfuel.
  assert (Hpolicy : forall d p, fst (get_first_pos_and_next_pos_func separator) d p <> NoFuel).
  { intros d p.
    destruct (policy_cases separator d p) as [Hn|[(q & Hn & _)|(sep & _ & Hn)]];
      rewrite Hn; discriminate. }
  assert (Henter :
    forall r : res (bool * @DecodeStream value _ str),
      r <> NoFuel ->
      (forall s1, r = Return (true, s1) ->
                  work_left s1 <= work_left self
                  /\ cursor s1 <= length (partial_doc s1)
                  /\ length (stream s1) <= length (stream self)
                  /\ bufsize s1 = bufsize self
                  /\ next_pos_helper s1 = next_pos_helper self
                  /\ decoder s1 = decoder self) ->
      match enter_loop fuel r with
      | Yield obj (pc', self') =>
          pc' = pc_yielded
          /\ work_left self' < work_left self
          /\ length (stream self') <= length (stream self)
          /\ (1 <= bufsize self')%Z
          /\ next_pos_helper self' = fst (get_first_pos_and_next_pos_func separator)
          /\ decoder self' = dec
      | Starved => False
      | _ => True
      end).
  { intros r Hr Hkeep. unfold enter_loop.
    destruct r as [[[|] s1]| |]; try exact I; try congruence.
    destruct (Hkeep s1 eq_refl) as (Hw & Hc & Hs & Hb & Hh & Hd).
    assert (Hbuf1 : (1 <= bufsize s1)%Z) by now rewrite Hb.
    pose proof (@decode_loop_ends _ _ _ fuel s1) as Hends.
    destruct (decode_loop fuel s1) as [obj [pc' self']| | |] eqn:Hloop; try exact I.
    - pose proof (@decode_loop_work fuel s1 self' obj pc' Hbuf1 (eq_trans Hd Hdec) Hc Hloop)
        as Hless.
      destruct (@decode_loop_keeps fuel s1 self' obj pc' Hbuf1 Hloop)
        as (Hpc & Hs' & Hb' & Hh' & Hd').
      repeat split; try congruence; lia.
    - apply Hends; [lia | assumption | rewrite Hd, Hdec; exact Hanswers | reflexivity]. }
  unfold _decode_stream_generator.
  destruct pc; [| |exact I].
  - specialize (Hstart eq_refl).
    destruct (pos self) as [q|] eqn:Hpos.
    + apply Henter; [apply try_read_never_starves|].
      intros s1 Hr.
      destruct (refill_work _ _ Hbuf Hr) as [Hwork Hcur].
      destruct (try_read_consumes _ _ Hbuf Hr)
        as (r & _ & _ & Hs & _ & _ & _ & Hb & _ & Hh & Hd & _).
      rewrite Hs, length_skipn, Hcur.
      assert (work_left self = 3 * length (stream self) + (length (partial_doc self) + 1))
        by (unfold work_left; rewrite Hstart; lia).
      repeat split; try assumption; lia.
    + apply Henter.
      * apply next_pos_ends; simpl; try assumption. now rewrite Hhelper.
      * intros s1 Hr.
        assert (Hw0 : work_left (set_pos self 0) = work_left self)
          by (unfold work_left; rewrite Hstart; reflexivity).
        destruct (@next_pos_work fuel (set_pos self 0) s1 Hbuf Hhelper Hr) as [Hw Hc].
        apply next_pos_keeps in Hr; [|exact Hbuf]. simpl in Hr.
        repeat split; try tauto; lia.
  - apply Henter.
    + apply next_pos_ends; try assumption. now rewrite Hhelper.
    + intros s1 Hr.
      destruct (@next_pos_work fuel self s1 Hbuf Hhelper Hr) as [Hw Hc].
      apply next_pos_keeps in Hr; [|exact Hbuf].
      repeat split; try tauto; lia.
Qed.

(** The iteration ends within one round per unit of work. *)
Lemma iteration_ends_within (rounds : nat) :
  forall (fuel : nat) (pc : stream_pc) (self : @DecodeStream value _ str),
    (1 <= bufsize self)%Z ->
    next_pos_helper self = fst (get_first_pos_and_next_pos_func separator) ->
    decoder self = dec ->
    (pc = pc_start -> cursor self = 0) ->
    length (stream self) < fuel ->
    work_left self < rounds ->
    snd (consume (_decode_stream_generator fuel) rounds (pc, self)) <> OutOfFuel.
Proof.
  induction rounds as [|rounds IH]; intros fuel pc self Hbuf Hhelper Hdec Hstart Hfuel Hwork;
    [lia|].
  rewrite consume_turn.
  pose proof (@generator_round fuel pc self Hbuf Hhelper Hdec Hstart Hfuel) as Hround.
  destruct (_decode_stream_generator fuel (pc, self)) as [obj [pc' self']| | |];
    try discriminate; [|contradiction].
  destruct Hround as (Hpc & Hless & Hs & Hb & Hh & Hd).
  specialize (IH fuel pc' self' Hb Hh Hd).
  destruct (consume (_decode_stream_generator fuel) rounds (pc', self')) as [objs ending].
  simpl. simpl in IH. apply IH; try lia. rewrite Hpc. discriminate.
Qed.

End Decoder.

End Measure.

(** X10.  Iterating over [load] of a [StringIO] ends: it returns or raises
    after finitely many values, under either policy, at every read size
    and bound, for a decoder that always answers and whose values end
    after the position they were decoded from. *)
Theorem iteration_over_a_stream_ends `{UnicodeDB} {value : Type} `{PyObject value}
  (text : str) (decoder : JSONDecoder value)
  (parse_int parse_float : option (str -> value)) (separator : option str)
  (size : Z) (bound : option Z) (offset : Z) (fuel : nat) :
  (forall d p, raw_decode decoder d p <> NoFuel) ->
  (forall d p obj e, raw_decode decoder d p = Return (obj, e) -> p < e) ->
  3 * length text + 1 < fuel ->
  snd (list_load fuel text decoder parse_int parse_float separator size bound offset)
  <> OutOfFuel.
Proof.
  intros Hanswers Hconsumes Hfuel. unfold list_load, load, __init__.
  destruct (get_first_pos_and_next_pos_func separator) as [np p0] eqn:Hpolicy.
  destruct (Z.ltb_spec size 1); [discriminate|].
  apply (@iteration_ends_within _ _ _ separator decoder Hconsumes Hanswers);
    simpl; try lia.
  - now rewrite Hpolicy.
  - reflexivity.
  - intros _. unfold cursor. simpl.
    destruct separator; injection Hpolicy as _ <-; reflexivity.
  - unfold work_left. cbn [stream partial_doc length]. lia.
Qed.


(** The text [[1] 23] read two characters at a time. *)
Lemma iteration_over_a_stream_ends_witness :
  3 * length list_then_number + 1 < 20
  /\ snd (list_load 20 list_then_number default_decoder None None None 2 None 0)
     <> OutOfFuel.
Proof.
  assert (Hfuel : 3 * length list_then_number + 1 < 20) by (vm_compute; lia).
  split; [exact Hfuel|].
  exact (@iteration_over_a_stream_ends CPython_ucd pyvalue CPython_objects
           list_then_number default_decoder None None None 2 None 0 20
           (PyJSON_answers _ _) (PyJSON_consumes _ _) Hfuel).
Defined.

(** ** The iteration over a string ends *)

Section LoadsEnds.
Context `{UnicodeDB} {value : Type}.
Variables (s : str) (dec : JSONDecoder value) (separator : option str).

Hypothesis Hanswers : forall p, raw_decode dec s p <> NoFuel.
Hypothesis Hconsumes : forall p obj e, raw_decode dec s p = Return (obj, e) -> p < e.

Local Abbreviation policy := (fst (get_first_pos_and_next_pos_func separator)).

(** One turn of the loop from a position inside the document or at its
    end, and what follows. *)
Lemma stacked_turn_ends (rounds : nat) (p : nat) (g : stacked_state) :
  p <= length s ->
  (forall e, p < e ->
             let run := consume (decode_stacked_next s dec policy) rounds (stacked_yielded e) in
             snd run <> OutOfFuel /\ length (fst run) <= length s - p) ->
  decode_stacked_next s dec policy g = decode_stacked_turn s dec p ->
  let run := consume (decode_stacked_next s dec policy) (S rounds) g in
  snd run <> OutOfFuel /\ length (fst run) <= length s + 1 - p.
Proof.
  intros Hp Hrest Hg. cbv zeta. rewrite consume_turn, Hg. unfold decode_stacked_turn.
  pose proof (Hanswers p) as Hnow.
  destruct (raw_decode dec s p) as [[obj e]| |] eqn:Hraw; [| |congruence].
  - apply Hconsumes in Hraw. specialize (Hrest e Hraw). cbv zeta in Hrest.
    destruct (consume (decode_stacked_next s dec policy) rounds (stacked_yielded e))
      as [objs ending].
    simpl in *. split; [tauto | lia].
  - simpl. split; [discriminate | lia].
Qed.

Lemma stacked_rounds_end (rounds : nat) :
  forall e,
    length s + 1 - e < rounds ->
    let run := consume (decode_stacked_next s dec policy) rounds (stacked_yielded e) in
    snd run <> OutOfFuel /\ length (fst run) <= length s + 1 - e.
Proof.
  induction rounds as [|rounds IH]; intros e Hrounds; [lia|].
  destruct (policy_cases separator s e) as [Hn|[(p & Hn & Hp)|(sep & _ & Hn)]].
  - cbv zeta. rewrite consume_turn. cbn [decode_stacked_next]. rewrite Hn.
    simpl. split; [discriminate | lia].
  - assert (Hturn :
      let run := consume (decode_stacked_next s dec policy) (S rounds) (stacked_yielded e) in
      snd run <> OutOfFuel /\ length (fst run) <= length s + 1 - p).
    { apply stacked_turn_ends; [lia| |cbn [decode_stacked_next]; now rewrite Hn].
      intros e' He'. specialize (IH e'). cbv zeta in *.
      destruct IH as [Hend Hcount]; [lia|]. split; [exact Hend | lia]. }
    cbv zeta in *. destruct Hturn as [Hend Hcount]. split; [exact Hend | lia].
  - cbv zeta. rewrite consume_turn. cbn [decode_stacked_next]. rewrite Hn.
    simpl. split; [discriminate | lia].
Qed.

End LoadsEnds.

(** X11.  Iterating over [loads] of a string ends, and yields at most one
    value for each character of the string and one more: each value
    starts at a position of the string or at its end, and the next one
    starts after it.  The decoder always answers on the string, and the
    values it returns end after the position they were decoded from. *)
Theorem iteration_over_a_string_ends `{UnicodeDB} {value : Type}
  (s : str) (decoder : JSONDecoder value) (separator : option str) (rounds : nat) :
  (forall p, raw_decode decoder s p <> NoFuel) ->
  (forall p obj e, raw_decode decoder s p = Return (obj, e) -> p < e) ->
  length s + 1 < rounds ->
  snd (list_loads decoder rounds (a_str s) separator) <> OutOfFuel
  /\ length (fst (list_loads decoder rounds (a_str s) separator)) <= length s + 1.
Proof.
  intros Hanswers Hconsumes Hrounds. unfold list_loads, loads.
  destruct (startswith s [BOM] 0); [simpl; split; [discriminate | lia]|].
  destruct rounds as [|rounds]; [lia|].
  assert (Hrest : forall p e, p < e ->
            let run := consume (decode_stacked_next s decoder
                                  (fst (get_first_pos_and_next_pos_func separator)))
                               rounds (stacked_yielded e) in
            snd run <> OutOfFuel /\ length (fst run) <= length s - p).
  { intros p e He.
    destruct (@stacked_rounds_end _ _ s decoder separator Hanswers Hconsumes rounds e)
      as [Hend Hcount]; [lia|].
    cbv zeta. split; [exact Hend | lia]. }
  destruct (get_first_pos_and_next_pos_func separator) as [np p0] eqn:Hpolicy.
  simpl fst in Hrest. unfold decode_stacked.
  destruct s as [|c t] eqn:Hs; [simpl; split; [discriminate | lia]|]. rewrite <- Hs in *.
  assert (Hturn : forall p, p <= length s ->
            decode_stacked_next s decoder np (stacked_start p0) = decode_stacked_turn s decoder p ->
            snd (consume (decode_stacked_next s decoder np) (S rounds) (stacked_start p0))
            <> OutOfFuel
            /\ length (fst (consume (decode_stacked_next s decoder np) (S rounds)
                                    (stacked_start p0))) <= length s + 1).
  { intros p Hp Hg.
    pose proof (@stacked_turn_ends _ _ s decoder separator Hanswers Hconsumes rounds p
                  (stacked_start p0) Hp) as Hturn.
    rewrite Hpolicy in Hturn. simpl fst in Hturn. cbv zeta in Hturn.
    destruct Hturn as [Hend Hcount]; [apply Hrest | exact Hg |].
    split; [exact Hend | lia]. }
  destruct p0 as [p0|].
  - apply (Hturn p0).
    + destruct separator as [sep|]; simpl in Hpolicy; [|discriminate].
      assert (p0 = 0) by congruence. lia.
    + rewrite Hs. reflexivity.
  - assert (Hstart :
      decode_stacked_next s decoder np (stacked_start None)
      = match np s 0 with
        | Return None => StopIteration
        | Return (Some p) => decode_stacked_turn s decoder p
        | Raise e => Throw e
        | NoFuel => Starved
        end) by (rewrite Hs; reflexivity).
    destruct (policy_cases separator s 0) as [Hn|[(p & Hn & Hp)|(sep & Hsep & Hn)]];
      rewrite Hpolicy in Hn; simpl fst in Hn.
    + rewrite consume_turn, Hstart, Hn. simpl. split; [discriminate | lia].
    + apply (Hturn p); [lia|]. now rewrite Hstart, Hn.
    + rewrite consume_turn, Hstart, Hn. simpl. split; [discriminate | lia].
Qed.

(** The text [[1] 23] holds two values in its six characters. *)
Lemma iteration_over_a_string_ends_witness :
  length list_then_number + 1 < 8
  /\ snd (list_loads default_decoder 8 (a_str list_then_number) None) <> OutOfFuel
  /\ length (fst (list_loads default_decoder 8 (a_str list_then_number) None))
     <= length list_then_number + 1.
Proof.
  assert (Hrounds : length list_then_number + 1 < 8) by (vm_compute; lia).
  split; [exact Hrounds|].
  exact (@iteration_over_a_string_ends CPython_ucd pyvalue list_then_number
           default_decoder None 8
           (fun p => PyJSON_answers _ _ list_then_number p)
           (fun p obj e => @PyJSON_consumes _ _ list_then_number p obj e) Hrounds).
Defined.


(** ** The bound on the buffer over a whole session *)

Section BufferBound.
Context `{UnicodeDB} {value : Type} `{PyObject value} {file : Type} `{TextIO file}.
Hypothesis Hreads : bounded_reads file.

(** After a refill the buffer is within the bound, whatever it held
    before. *)
Lemma try_read_within_bound (self self' : DecodeStream) (remaining_buffer : str)
  (new_data : bool) (bound : Z) :
  (1 <= bufsize self)%Z ->
  max_bufsize self = Some bound ->
  _try_read self remaining_buffer = Return (new_data, self') ->
  (Z.of_nat (length (partial_doc self')) <= bound)%Z
  /\ bufsize self' = bufsize self /\ max_bufsize self' = Some bound.
Proof.
  intros Hbuf Hmax Hr.
  destruct (try_read_returns _ _ Hr)
    as (n & new & Hn & Hread & _ & Hdoc & _ & _ & Hb & Hm & _).
  split; [|split; congruence].
  unfold to_read in Hn. rewrite Hmax in Hn.
  rewrite Hdoc, length_app, Nat2Z.inj_add.
  destruct (Z.gtb_spec (Z.of_nat (length remaining_buffer) + bufsize self) bound).
  - destruct (Z.leb_spec (bound - Z.of_nat (length remaining_buffer)) 0); [discriminate|].
    injection Hn as <-.
    pose proof Hreads as Hle. unfold bounded_reads in Hle.
    specialize (Hle (stream self) (bound - Z.of_nat (length remaining_buffer))%Z).
    rewrite Hread in Hle. simpl in Hle. lia.
  - injection Hn as <-.
    pose proof Hreads as Hle. unfold bounded_reads in Hle.
    specialize (Hle (stream self) (bufsize self)).
    rewrite Hread in Hle. simpl in Hle. lia.
Qed.

Lemma next_pos_within_bound (fuel : nat) (bound : Z) :
  forall (self self' : DecodeStream) (found : bool),
    (1 <= bufsize self)%Z ->
    max_bufsize self = Some bound ->
    (Z.of_nat (length (partial_doc self)) <= bound)%Z ->
    next_pos fuel self = Return (found, self') ->
    (Z.of_nat (length (partial_doc self')) <= bound)%Z
    /\ (1 <= bufsize self')%Z /\ max_bufsize self' = Some bound.
Proof.
  induction fuel as [|fuel IH]; intros self self' found Hbuf Hmax Hlen; simpl;
    [discriminate|].
  destruct (next_pos_helper self (partial_doc self) (cursor self)) as [[p|]| |];
    try discriminate.
  - intros [= _ <-]. simpl. tauto.
  - destruct (_try_read self []) as [[[|] s1]| |] eqn:Hr; try discriminate;
      destruct (try_read_within_bound _ _ Hbuf Hmax Hr) as (Hlen1 & Hb1 & Hm1).
    + apply IH; [lia | assumption..].
    + intros [= _ <-]. repeat split; [assumption | lia | assumption].
Qed.

Lemma decode_loop_within_bound (fuel : nat) (bound : Z) :
  forall (self self' : DecodeStream) (obj : value) (pc : stream_pc),
    (1 <= bufsize self)%Z ->
    max_bufsize self = Some bound ->
    (Z.of_nat (length (partial_doc self)) <= bound)%Z ->
    decode_loop fuel self = Yield obj (pc, self') ->
    (Z.of_nat (length (partial_doc self')) <= bound)%Z
    /\ (1 <= bufsize self')%Z /\ max_bufsize self' = Some bound.
Proof.
  induction fuel as [|fuel IH]; intros self self' obj pc Hbuf Hmax Hlen; [discriminate|].
  rewrite decode_loop_turn.
  destruct (raw_decode (decoder self) (partial_doc self) (cursor self))
    as [[o new_pos]| [ex| | | |] |]; try discriminate.
  - destruct (_ && _).
    + destruct (_try_read self (skipn (cursor self) (partial_doc self)))
        as [[[|] s1]| |] eqn:Hr; try discriminate;
        destruct (try_read_within_bound _ _ Hbuf Hmax Hr) as (Hlen1 & Hb1 & Hm1).
      * apply IH; [lia | assumption..].
      * intros [= _ _ <-]. simpl. repeat split; [assumption | lia | assumption].
    + intros [= _ _ <-]. simpl. tauto.
  - destruct (_match_error ex); [|discriminate].
    destruct (_try_read self (skipn (cursor self) (partial_doc self)))
      as [[[|] s1]| |] eqn:Hr; try discriminate.
    destruct (try_read_within_bound _ _ Hbuf Hmax Hr) as (Hlen1 & Hb1 & Hm1).
    apply IH; [lia | assumption..].
Qed.

(** X12.  With a bound [max_bufsize] and a source that returns no more
    than it is asked for, the buffer is within the bound in every state
    in which the generator is suspended after a value: it is empty when
    [load] returns, every refill leaves it within the bound, and nothing
    else changes it. *)
Theorem buffer_stays_within_max_bufsize (bound : Z) :
  (forall (fp : file) (decoder : JSONDecoder value)
          (parse_int parse_float : option (str -> value)) (separator : option str)
          (size offset : Z) (g : stream_pc * DecodeStream),
      load fp decoder parse_int parse_float separator size (Some bound) offset = Return g ->
      partial_doc (snd g) = [] /\ (1 <= bufsize (snd g))%Z
      /\ max_bufsize (snd g) = Some bound)
  /\ (forall (fuel : nat) (pc pc' : stream_pc) (self self' : DecodeStream) (obj : value),
         (1 <= bufsize self)%Z ->
         max_bufsize self = Some bound ->
         (Z.of_nat (length (partial_doc self)) <= bound)%Z ->
         _decode_stream_generator fuel (pc, self) = Yield obj (pc', self') ->
         (Z.of_nat (length (partial_doc self')) <= bound)%Z
         /\ (1 <= bufsize self')%Z /\ max_bufsize self' = Some bound).
Proof.
  split.
  - intros fp decoder parse_int parse_float separator size offset g.
    unfold load, __init__.
    destruct (get_first_pos_and_next_pos_func separator) as [np p0].
    destruct (Z.ltb_spec size 1) as [|Hsize]; [discriminate|].
    intros [= <-]. simpl. repeat split. exact Hsize.
  - intros fuel pc pc' self self' obj Hbuf Hmax Hlen. unfold _decode_stream_generator.
    assert (Henter :
      forall r : res (bool * DecodeStream),
        (forall found s1, r = Return (found, s1) ->
                          (Z.of_nat (length (partial_doc s1)) <= bound)%Z
                          /\ (1 <= bufsize s1)%Z /\ max_bufsize s1 = Some bound) ->
        enter_loop fuel r = Yield obj (pc', self') ->
        (Z.of_nat (length (partial_doc self')) <= bound)%Z
        /\ (1 <= bufsize self')%Z /\ max_bufsize self' = Some bound).
    { intros r Hr. unfold enter_loop.
      destruct r as [[[|] s1]| |]; try discriminate.
      destruct (Hr true s1 eq_refl) as (Hlen1 & Hb1 & Hm1).
      now apply decode_loop_within_bound. }
    destruct pc; [| |discriminate].
    + destruct (pos self).
      * apply Henter. intros found s1 Hr.
        destruct (try_read_within_bound _ _ Hbuf Hmax Hr) as (Hlen1 & Hb1 & Hm1).
        repeat split; [assumption | lia | assumption].
      * apply Henter. intros found s1 Hr.
        now apply (@next_pos_within_bound fuel bound (set_pos self 0) s1 found).
    + apply Henter. intros found s1 Hr.
      now apply (@next_pos_within_bound fuel bound self s1 found).
Qed.

End BufferBound.

(** The first value behind fourteen spaces, under a bound of seven
    characters. *)
Lemma buffer_stays_within_max_bufsize_witness :
  _decode_stream_generator 22 (pc_yielded, padded_stream)
  = Yield (PyStr (lit "small"))
          (pc_yielded,
           drained default_decoder (fst (get_first_pos_and_next_pos_func None)) 1
                   (Some 7%Z) (cls_int, cls_float) (quoted "small") 7 14)
  /\ (Z.of_nat (length (quoted "small")) <= 7)%Z.
Proof.
  assert (Hg : _decode_stream_generator 22 (pc_yielded, padded_stream)
               = Yield (PyStr (lit "small"))
                       (pc_yielded,
                        drained default_decoder (fst (get_first_pos_and_next_pos_func None))
                                1 (Some 7%Z) (cls_int, cls_float) (quoted "small") 7 14))
    by reflexivity.
  assert (Hbuf : (1 <= bufsize padded_stream)%Z) by (simpl; lia).
  assert (Hlen : (Z.of_nat (length (partial_doc padded_stream)) <= 7)%Z) by (simpl; lia).
  split; [exact Hg|].
  exact (proj1 (proj2 (@buffer_stays_within_max_bufsize CPython_ucd pyvalue CPython_objects
                         str StringIO StringIO_bounded_reads 7)
                      22 pc_yielded pc_yielded padded_stream _ _
                      Hbuf eq_refl Hlen Hg)).
Defined.

(** ** The decoding errors that leave the stream decoder *)

Section StreamErrors.
Context `{UnicodeDB} {value : Type} `{PyObject value} {file : Type} `{TextIO file}.

(** A refill raises nothing but the buffer-size error. *)
Lemma try_read_raises (self : DecodeStream) (remaining_buffer : str) (e : exn) :
  _try_read self remaining_buffer = Raise e -> e = ValueError max_buffer_size_exceeded.
Proof.
  unfold _try_read, to_read.
  destruct (max_bufsize self) as [m|].
  - destruct (_ >? _)%Z.
    + destruct (_ <=? _)%Z; [now intros [= <-]|].
      now destruct (read (stream self) _).
    + now destruct (read (stream self) _).
  - now destruct (read (stream self) _).
Qed.

Lemma update_error_adds_the_offset (self : @DecodeStream value _ file)
  (ex : JSONDecodeError) :
  with_stream_offset ex (_update_error self ex) (stream_offset self).
Proof. repeat split. Qed.

Lemma next_pos_fields (fuel : nat) :
  forall (self self' : DecodeStream) (found : bool),
    next_pos fuel self = Return (found, self') ->
    next_pos_helper self' = next_pos_helper self /\ decoder self' = decoder self.
Proof.
  induction fuel as [|fuel IH]; intros self self' found; simpl; [discriminate|].
  destruct (next_pos_helper self (partial_doc self) (cursor self)) as [[p|]| |];
    try discriminate.
  - now intros [= _ <-].
  - destruct (_try_read self []) as [[[|] s1]| |] eqn:Hr; try discriminate;
      destruct (try_read_returns _ _ Hr) as (_ & _ & _ & _ & _ & _ & _ & _ & _ & _ & Hh & Hd & _).
    + intros Hn. apply IH in Hn. destruct Hn. split; congruence.
    + now intros [= _ <-].
Qed.

Lemma next_pos_raises (fuel : nat) :
  forall (self : DecodeStream) (e : exn),
    next_pos fuel self = Raise e ->
    e = ValueError max_buffer_size_exceeded
    \/ exists d p, next_pos_helper self d p = Raise e.
Proof.
  induction fuel as [|fuel IH]; intros self e; simpl; [discriminate|].
  destruct (next_pos_helper self (partial_doc self) (cursor self)) as [[p|]|e'|] eqn:Hh;
    try discriminate.
  - destruct (_try_read self []) as [[[|] s1]|e'|] eqn:Hr; try discriminate.
    + intros Hn. apply IH in Hn. destruct Hn as [Hn|(d & p & Hn)]; [now left|].
      destruct (try_read_returns _ _ Hr)
        as (_ & _ & _ & _ & _ & _ & _ & _ & _ & _ & Hh' & _).
      right. exists d, p. now rewrite <- Hh'.
    + intros [= <-]. left. now apply try_read_raises in Hr.
  - intros [= <-]. right. now exists (partial_doc self), (cursor self).
Qed.

Lemma decode_loop_fields (fuel : nat) :
  forall (self self' : DecodeStream) (obj : value) (pc : stream_pc),
    decode_loop fuel self = Yield obj (pc, self') ->
    pc = pc_yielded
    /\ next_pos_helper self' = next_pos_helper self /\ decoder self' = decoder self.
Proof.
  induction fuel as [|fuel IH]; intros self self' obj pc; [discriminate|].
  rewrite decode_loop_turn.
  destruct (raw_decode (decoder self) (partial_doc self) (cursor self))
    as [[o new_pos]| [ex| | | |] |]; try discriminate.
  - destruct (_ && _).
    + destruct (_try_read self (skipn (cursor self) (partial_doc self)))
        as [[[|] s1]| |] eqn:Hr; try discriminate;
        destruct (try_read_returns _ _ Hr)
          as (_ & _ & _ & _ & _ & _ & _ & _ & _ & _ & Hh & Hd & _).
      * intros Hl. apply IH in Hl. destruct Hl as (Hpc & Hh' & Hd').
        repeat split; congruence.
      * now intros [= _ <- <-].
    + now intros [= _ <- <-].
  - destruct (_match_error ex); [|discriminate].
    destruct (_try_read self (skipn (cursor self) (partial_doc self)))
      as [[[|] s1]| |] eqn:Hr; try discriminate.
    destruct (try_read_returns _ _ Hr)
      as (_ & _ & _ & _ & _ & _ & _ & _ & _ & _ & Hh & Hd & _).
    intros Hl. apply IH in Hl. destruct Hl as (Hpc & Hh' & Hd').
    repeat split; congruence.
Qed.

(** A decoding error leaves the loop only through [_update_error]. *)
Lemma decode_loop_raises (fuel : nat) :
  forall (self : DecodeStream) (ex' : JSONDecodeError),
    decode_loop fuel self = Throw (DecodeError ex') ->
    exists (ex : JSONDecodeError) (doc : str) (p : nat) (k : Z),
      raw_decode (decoder self) doc p = Raise (DecodeError ex)
      /\ with_stream_offset ex ex' k /\ (stream_offset self <= k)%Z.
Proof.
  induction fuel as [|fuel IH]; intros self ex'; [discriminate|].
  rewrite decode_loop_turn.
  assert (Hrefill :
    forall s1, _try_read self (skipn (cursor self) (partial_doc self)) = Return (true, s1) ->
               decode_loop fuel s1 = Throw (DecodeError ex') ->
               exists (ex : JSONDecodeError) (doc : str) (p : nat) (k : Z),
                 raw_decode (decoder self) doc p = Raise (DecodeError ex)
                 /\ with_stream_offset ex ex' k /\ (stream_offset self <= k)%Z).
  { intros s1 Hr Hl. apply IH in Hl. destruct Hl as (ex & doc & p & k & Hraw & Hwith & Hk).
    destruct (try_read_returns _ _ Hr)
      as (_ & _ & _ & _ & _ & _ & _ & _ & _ & _ & _ & Hd & _).
    apply try_read_tail_offset in Hr.
    exists ex, doc, p, k. rewrite <- Hd. split; [exact Hraw|]. split; [exact Hwith | lia]. }
  destruct (raw_decode (decoder self) (partial_doc self) (cursor self))
    as [[o new_pos]| [ex| | | |] |] eqn:Hraw; try discriminate.
  - destruct (_ && _); [|discriminate].
    destruct (_try_read self (skipn (cursor self) (partial_doc self)))
      as [[[|] s1]|e|] eqn:Hr; try discriminate.
    + now apply Hrefill.
    + apply try_read_raises in Hr. now subst e.
  - destruct (_match_error ex).
    + destruct (_try_read self (skipn (cursor self) (partial_doc self)))
        as [[[|] s1]|e|] eqn:Hr; try discriminate.
      * now apply Hrefill.
      * intros [= <-]. apply try_read_tail_offset in Hr.
        exists ex, (partial_doc self), (cursor self), (stream_offset s1).
        split; [exact Hraw|]. split; [apply update_error_adds_the_offset | lia].
      * apply try_read_raises in Hr. now subst e.
    + intros [= <-].
      exists ex, (partial_doc self), (cursor self), (stream_offset self).
      split; [exact Hraw|]. split; [apply update_error_adds_the_offset | lia].
Qed.

Section Session.
Variables (dec : JSONDecoder value) (separator : option str).

(** One [next] of a session that [load] started. *)
Lemma generator_passes_errors_on (fuel : nat) (pc : stream_pc) (self : DecodeStream) :
  next_pos_helper self = fst (get_first_pos_and_next_pos_func separator) ->
  decoder self = dec ->
  match _decode_stream_generator fuel (pc, self) with
  | Yield obj (pc', self') =>
      next_pos_helper self' = fst (get_first_pos_and_next_pos_func separator)
      /\ decoder self' = dec /\ (stream_offset self <= stream_offset self')%Z
  | Throw (DecodeError ex') =>
      exists (ex : JSONDecodeError) (doc : str) (p : nat) (k : Z),
        raw_decode dec doc p = Raise (DecodeError ex)
        /\ with_stream_offset ex ex' k /\ (stream_offset self <= k)%Z
  | _ => True
  end.
Proof.
  intros Hhelper Hdec.
  assert (Hpolicy : forall d p ex,
             fst (get_first_pos_and_next_pos_func separator) d p <> Raise (DecodeError ex)).
  { intros d p ex.
    destruct (policy_cases separator d p) as [Hn|[(q & Hn & _)|(sep & _ & Hn)]];
      rewrite Hn; discriminate. }
  assert (Henter :
    forall r : res (bool * DecodeStream),
      (forall ex, r <> Raise (DecodeError ex)) ->
      (forall found s1, r = Return (found, s1) ->
                        next_pos_helper s1 = next_pos_helper self
                        /\ decoder s1 = decoder self
                        /\ (stream_offset self <= stream_offset s1)%Z) ->
      match enter_loop fuel r with
      | Yield obj (pc', self') =>
          next_pos_helper self' = fst (get_first_pos_and_next_pos_func separator)
          /\ decoder self' = dec /\ (stream_offset self <= stream_offset self')%Z
      | Throw (DecodeError ex') =>
          exists (ex : JSONDecodeError) (doc : str) (p : nat) (k : Z),
            raw_decode dec doc p = Raise (DecodeError ex)
            /\ with_stream_offset ex ex' k /\ (stream_offset self <= k)%Z
      | _ => True
      end).
  { intros r Hno Hkeep. unfold enter_loop.
    destruct r as [[[|] s1]|e|]; try exact I.
    - destruct (Hkeep true s1 eq_refl) as (Hh & Hd & Hoff).
      destruct (decode_loop fuel s1) as [obj [pc' self']| |e|] eqn:Hloop; try exact I.
      + pose proof (decode_loop_offset _ _ Hloop) as Hoff'.
        apply decode_loop_fields in Hloop. destruct Hloop as (_ & Hh' & Hd').
        repeat split; try congruence. lia.
      + destruct e as [ex'| | | |]; try exact I.
        apply decode_loop_raises in Hloop.
        destruct Hloop as (ex & doc & p & k & Hraw & Hwith & Hk).
        exists ex, doc, p, k. rewrite <- Hdec, <- Hd.
        split; [exact Hraw|]. split; [exact Hwith | lia].
    - destruct e as [ex'| | | |]; try exact I. now destruct (Hno ex'). }
  unfold _decode_stream_generator.
  destruct pc; [| |exact I].
  - destruct (pos self).
    + apply Henter.
      * intros ex Hr. apply try_read_raises in Hr. discriminate.
      * intros found s1 Hr.
        destruct (try_read_returns _ _ Hr)
          as (_ & _ & _ & _ & _ & _ & _ & _ & _ & _ & Hh & Hd & _).
        change (partial_doc self) with (skipn 0 (partial_doc self)) in Hr.
        apply try_read_tail_offset in Hr. repeat split; try assumption. lia.
    + apply Henter.
      * intros ex Hr. apply next_pos_raises in Hr.
        destruct Hr as [Hr|(d & p & Hr)]; [discriminate|].
        simpl in Hr. rewrite Hhelper in Hr. now apply Hpolicy in Hr.
      * intros found s1 Hr. pose proof (next_pos_offset _ _ Hr) as Hoff.
        apply next_pos_fields in Hr. simpl in *. tauto.
  - apply Henter.
    + intros ex Hr. apply next_pos_raises in Hr.
      destruct Hr as [Hr|(d & p & Hr)]; [discriminate|].
      rewrite Hhelper in Hr. now apply Hpolicy in Hr.
    + intros found s1 Hr. pose proof (next_pos_offset _ _ Hr) as Hoff.
      apply next_pos_fields in Hr. tauto.
Qed.

Lemma session_passes_errors_on (fuel rounds : nat) :
  forall (pc : stream_pc) (self : DecodeStream) (ex' : JSONDecodeError),
    next_pos_helper self = fst (get_first_pos_and_next_pos_func separator) ->
    decoder self = dec ->
    snd (consume (_decode_stream_generator fuel) rounds (pc, self))
    = Raised (DecodeError ex') ->
    exists (ex : JSONDecodeError) (doc : str) (p : nat) (k : Z),
      raw_decode dec doc p = Raise (DecodeError ex)
      /\ with_stream_offset ex ex' k /\ (stream_offset self <= k)%Z.
Proof.
  induction rounds as [|rounds IH]; intros pc self ex' Hhelper Hdec; [discriminate|].
  rewrite consume_turn.
  pose proof (@generator_passes_errors_on fuel pc self Hhelper Hdec) as Hround.
  destruct (_decode_stream_generator fuel (pc, self)) as [obj [pc' self']| |e|];
    try discriminate.
  - destruct Hround as (Hh & Hd & Hoff).
    specialize (IH pc' self' ex' Hh Hd).
    destruct (consume (_decode_stream_generator fuel) rounds (pc', self')) as [objs ending].
    simpl. intros Hend. destruct (IH Hend) as (ex & doc & p & k & Hraw & Hwith & Hk).
    exists ex, doc, p, k. split; [exact Hraw|]. split; [exact Hwith | lia].
  - simpl. intros [= ->]. exact Hround.
Qed.

End Session.

(** X13.  A [JSONDecodeError] that ends an iteration over [load] is an
    error the decoder raised on some buffer, passed through
    [_update_error] once: its message, document and position are the
    decoder's, it has the attribute [stream_offset], of at least the
    stream offset the session began with, and its formatted message is
    the decoder's followed by the stream offset in parentheses. *)
Theorem decoding_errors_carry_the_stream_offset (fuel : nat) (fp : file)
  (decoder : JSONDecoder value) (parse_int parse_float : option (str -> value))
  (separator : option str) (size : Z) (bound : option Z) (offset : Z)
  (ex' : JSONDecodeError) :
  snd (list_load fuel fp decoder parse_int parse_float separator size bound offset)
  = Raised (DecodeError ex') ->
  exists (ex : JSONDecodeError) (doc : str) (p : nat) (k : Z),
    raw_decode decoder doc p = Raise (DecodeError ex)
    /\ with_stream_offset ex ex' k /\ (offset <= k)%Z.
Proof.
  unfold list_load, load, __init__.
  destruct (get_first_pos_and_next_pos_func separator) as [np p0] eqn:Hpolicy.
  destruct (size <? 1)%Z; [discriminate|].
  intros Hend.
  apply (@session_passes_errors_on decoder separator) in Hend;
    [exact Hend | simpl; now rewrite Hpolicy | reflexivity].
Qed.

End StreamErrors.

(** The text [[1 2]] read two characters at a time, from a stream offset
    of 100. *)
Lemma decoding_errors_carry_the_stream_offset_witness :
  exists (ex' ex : JSONDecodeError) (doc : str) (p : nat) (k : Z),
    snd (list_load 8 missing_comma default_decoder None None None 2 None 100)
    = Raised (DecodeError ex')
    /\ raw_decode default_decoder doc p = Raise (DecodeError ex)
    /\ with_stream_offset ex ex' k /\ (100 <= k)%Z.
Proof.
  assert (Hend : exists ex',
             snd (list_load 8 missing_comma default_decoder None None None 2 None 100)
             = Raised (DecodeError ex')) by (vm_compute; eauto).
  destruct Hend as (ex' & Hend).
  destruct (@decoding_errors_carry_the_stream_offset CPython_ucd pyvalue CPython_objects
              str StringIO 8 missing_comma default_decoder None None None 2 None 100
              ex' Hend) as (ex & doc & p & k & Hraw & Hwith & Hk).
  exists ex', ex, doc, p, k. split; [exact Hend|]. split; [exact Hraw|].
  split; [exact Hwith | exact Hk].
Defined.

(** ** A separator of one character *)

Section OneCharacterSeparator.
Context `{UnicodeDB} {value : Type} `{PyObject value}.

Lemma next_pos_turn (fuel : nat) (self : @DecodeStream value _ str) :
  next_pos (S fuel) self
  = match next_pos_helper self (partial_doc self) (cursor self) with
    | Return None =>
        match _try_read self [] with
        | Return (true, self') => next_pos fuel self'
        | Return (false, self') => Return (false, self')
        | Raise e => Raise e
        | NoFuel => NoFuel
        end
    | Return (Some new_pos) => Return (true, set_pos self new_pos)
    | Raise e => Raise e
    | NoFuel => NoFuel
    end.
Proof. reflexivity. Qed.

(** The separator policy for a separator of one character, at a position
    inside the document or at its end. *)
Lemma one_character_separator_at (x : N) (document : str) (p : nat) :
  p <= length document ->
  next_position_by_separator [x] document p
  = match skipn p document with
    | [] => Return None
    | c :: _ =>
        if N.eqb x c then Return (Some (p + 1))
        else Raise (ValueError (Expected_delimiter [x]))
    end.
Proof.
  intros Hp. unfold next_position_by_separator, startswith.
  destruct (Nat.leb_spec p (length document)) as [_|]; [|lia]. cbn [andb].
  destruct (skipn p document) as [|c r] eqn:Hrem;
    apply (f_equal (@length N)) in Hrem; rewrite length_skipn in Hrem; simpl in Hrem.
  - cbn [is_prefix]. replace p with (length document) by lia. now rewrite Nat.eqb_refl.
  - cbn [is_prefix]. rewrite andb_true_r. destruct (N.eqb x c); [reflexivity|].
    destruct (Nat.eqb_spec p (length document)); [lia | reflexivity].
Qed.

(** X14.  A separator of one character is never cut in two by the
    buffer.  Over a [StringIO], with the cursor inside the buffer or at
    its end, the search for the next document looks at the first
    character of the unread text, wherever the buffer ends: it returns
    false when there is none, returns true with that character dropped
    when it is the separator, and raises the delimiter error when it is
    not. *)
Theorem next_pos_with_a_separator_of_one_character (self : @DecodeStream value _ str)
  (x : N) (fuel : nat) :
  next_pos_helper self = next_position_by_separator [x] ->
  (1 <= bufsize self)%Z ->
  (forall m, max_bufsize self = Some m -> (1 <= m)%Z) ->
  cursor self <= length (partial_doc self) ->
  2 <= fuel ->
  match unread self with
  | [] =>
      exists self' : @DecodeStream value _ str,
        next_pos fuel self = Return (false, self') /\ unread self' = []
  | c :: rest =>
      if N.eqb x c
      then exists self' : @DecodeStream value _ str,
             next_pos fuel self = Return (true, self') /\ unread self' = rest
      else next_pos fuel self = Raise (ValueError (Expected_delimiter [x]))
  end.
Proof.
  intros Hhelper Hbuf Hmax Hcur Hfuel.
  destruct fuel as [|[|fuel]]; try lia.
  rewrite next_pos_turn, Hhelper, one_character_separator_at by exact Hcur.
  unfold unread at 1.
  destruct (skipn (cursor self) (partial_doc self)) as [|c r] eqn:Hrem; cbn [app].
  - destruct (to_read_positive _ Hbuf Hmax) as (k & Hk & Hk1).
    unfold _try_read. rewrite Hk. simpl read.
    destruct (Z.ltb_spec k 0); [lia|].
    destruct (Z.to_nat k) as [|k'] eqn:Hk'; [lia|].
    destruct (stream self) as [|c rest] eqn:Hs.
    + simpl. eexists. split; reflexivity.
    + cbn [app firstn skipn]. cbv iota.
      match goal with
      | |- context [next_pos _ ?st] => set (s1 := st)
      end.
      rewrite next_pos_turn.
      change (next_pos_helper s1) with (next_pos_helper self).
      change (partial_doc s1) with (c :: firstn k' rest).
      change (cursor s1) with 0.
      rewrite Hhelper, one_character_separator_at by (simpl; lia).
      cbn [skipn]. destruct (N.eqb x c); [|reflexivity].
      eexists. split; [reflexivity|]. unfold unread, s1. simpl. apply firstn_skipn.
  - destruct (N.eqb x c); [|reflexivity].
    eexists. split; [reflexivity|]. unfold unread.
    change (cursor (set_pos self (cursor self + 1))) with (cursor self + 1).
    simpl partial_doc. simpl stream.
    rewrite Nat.add_comm, <- skipn_skipn, Hrem. reflexivity.
Qed.

End OneCharacterSeparator.

(** The comma between [[1,2]] and [[3, 4]], met at the end of the buffer. *)
Lemma next_pos_with_a_separator_of_one_character_witness :
  unread comma_stream = lit ",[3, 4]"
  /\ exists self' : @DecodeStream pyvalue CPython_objects str,
      next_pos 2 comma_stream = Return (true, self') /\ unread self' = lit "[3, 4]".
Proof.
  assert (Hbuf : (1 <= bufsize comma_stream)%Z) by (simpl; lia).
  assert (Hmax : forall m : Z, max_bufsize comma_stream = Some m -> (1 <= m)%Z)
    by discriminate.
  assert (Hcur : cursor comma_stream <= length (partial_doc comma_stream))
    by (vm_compute; lia).
  split; [reflexivity|].
  exact (@next_pos_with_a_separator_of_one_character pyvalue CPython_objects
           comma_stream (ch ",") 2 eq_refl Hbuf Hmax Hcur (le_n 2)).
Defined.

(** ** A document that the source cuts off *)

Lemma update_error_at_the_offset `{UnicodeDB} {value : Type} `{PyObject value}
  {file : Type} `{TextIO file} (self : @DecodeStream value _ file)
  (ex : JSONDecodeError) (k : Z) :
  stream_offset self = k -> with_stream_offset ex (_update_error self ex) k.
Proof. intros <-. apply update_error_adds_the_offset. Qed.

Section Truncated.
Context `{UnicodeDB} {value : Type} `{PyObject value}.
Variables (text : str) (dec : JSONDecoder value).
Variables (parse_int parse_float : option (str -> value)).
Variables (separator : option str) (size : Z) (bound : option Z).

Hypothesis Hsize : (1 <= size)%Z.

Local Abbreviation policy := (fst (get_first_pos_and_next_pos_func separator)).
Local Abbreviation types := (hook_number_types parse_int parse_float).
Local Abbreviation buffered := (reading text dec policy size bound types).

(** While the buffer is a proper part of the text the loop refills; once
    it holds the text and the source is empty the error of the decoder
    is final, and the stream offset is the one the loop began with. *)
Lemma loop_reports_the_end (ex : JSONDecodeError)
  (Hpartial : forall n, 0 < n < length text ->
                        wants_more dec parse_int parse_float (firstn n text) = true)
  (Hwhole : raw_decode dec text 0 = Raise (DecodeError ex))
  (Hbound : forall m, bound = Some m ->
                      (Z.of_nat (length text) <= m)%Z
                      /\ (_match_error ex = true -> (Z.of_nat (length text) < m)%Z))
  (j : nat) :
  forall (n : nat) (k : Z) (fuel : nat),
    0 < n -> length text - n <= j -> j < fuel ->
    exists ex' : JSONDecodeError,
      decode_loop fuel (buffered n k) = Throw (DecodeError ex')
      /\ with_stream_offset ex ex' k.
Proof.
  induction j as [|j IH]; intros n k fuel Hn Hj Hfuel;
    (destruct fuel as [|fuel]; [lia|]); rewrite decode_loop_turn;
    change (cursor (buffered n k)) with 0;
    change (decoder (buffered n k)) with dec;
    (destruct (Nat.lt_ge_cases n (length text)) as [Hlt|Hge]; [try lia|]).
  2: { pose proof (Hpartial n (conj Hn Hlt)) as Hmore. unfold wants_more in Hmore.
       destruct (@refill_grows_the_buffer _ _ _ text dec parse_int parse_float separator
                   size bound Hsize n k Hlt) as (r & k' & Hr0 & _ & Hr).
       { intros m Hm. apply Hbound in Hm. lia. }
       rewrite Hr.
       assert (Hk : k' = k).
       { apply try_read_tail_offset in Hr. simpl in Hr. lia. }
       subst k'.
       assert (Hnext : exists ex', decode_loop fuel (buffered (n + r) k)
                                   = Throw (DecodeError ex')
                                   /\ with_stream_offset ex ex' k)
         by (apply IH; lia).
       change (partial_doc (buffered n k)) with (firstn n text).
       change (is_number (buffered n k)) with (counts_as_number parse_int parse_float).
       destruct (raw_decode dec (firstn n text) 0) as [[o q]| [e| | | |] |];
         try discriminate; rewrite Hmore; exact Hnext. }
  all: change (partial_doc (buffered n k)) with (firstn n text);
    rewrite firstn_all2 by lia; rewrite Hwhole;
    (destruct (_match_error ex) eqn:Hm;
     [|eexists; split; [reflexivity | apply update_error_adds_the_offset]]);
    rewrite try_read_takes_all;
    [ simpl stream; rewrite skipn_all2 by lia; eexists; split; [reflexivity|];
      apply update_error_at_the_offset; simpl; rewrite length_firstn; lia
    | exact Hsize
    | simpl; rewrite skipn_all2 by lia; simpl; lia
    | simpl; rewrite skipn_all2 by lia; simpl; intros m Hm';
      apply Hbound in Hm' as [Hm1 Hm2]; specialize (Hm2 eq_refl); lia ].
Qed.

End Truncated.

(** X15.  A document that the source cuts off is reported with the
    error of the decoder on all that was read, at the stream offset the
    session began with.  The text in a [StringIO] starts with a document
    that its end cuts off: on every proper part of the text taken from
    the start the loop asks for more, and on the whole text the decoder
    raises [ex].  Then [load] yields nothing and raises [ex] with the
    stream offset passed to [load], at every read size; a bound on the
    buffer is no smaller than the text (larger, if [_match_error] accepts
    [ex]). *)
Theorem load_reports_a_truncated_document `{UnicodeDB} {value : Type} `{PyObject value}
  (text : str) (decoder : JSONDecoder value)
  (parse_int parse_float : option (str -> value)) (separator : option str)
  (size : Z) (bound : option Z) (offset : Z) (fuel : nat)
  (c : N) (t : str) (ex : JSONDecodeError) :
  (1 <= size)%Z ->
  text = c :: t ->
  (separator = None -> isspace c = false) ->
  (forall n, 0 < n < length text ->
             wants_more decoder parse_int parse_float (firstn n text) = true) ->
  raw_decode decoder text 0 = Raise (DecodeError ex) ->
  (forall m, bound = Some m ->
             (Z.of_nat (length text) <= m)%Z
             /\ (_match_error ex = true -> (Z.of_nat (length text) < m)%Z)) ->
  length text < fuel ->
  exists ex' : JSONDecodeError,
    list_load fuel text decoder parse_int parse_float separator size bound offset
    = ([], Raised (DecodeError ex'))
    /\ with_stream_offset ex ex' offset.
Proof.
  intros Hsize Ht Hc Hpartial Hwhole Hbound Hfuel.
  assert (Hlen : 0 < length text) by (rewrite Ht; simpl; lia).
  destruct fuel as [|[|fuel]]; try lia.
  assert (Hroom : forall m, bound = Some m -> (0 < m)%Z)
    by (intros m Hm; apply Hbound in Hm; lia).
  destruct (@generator_starts _ _ _ text decoder parse_int parse_float separator
              size bound offset fuel c t Hsize Ht Hc Hroom)
    as (r & k & -> & Hr0 & _ & Hstart).
  destruct (@loop_reports_the_end _ _ _ text decoder parse_int parse_float separator
              size bound Hsize ex Hpartial Hwhole Hbound
              (length text - r) r offset (S (S fuel))) as (ex' & Hloop & Hwith); try lia.
  exists ex'. split; [|exact Hwith].
  unfold list_load, load, __init__.
  destruct (get_first_pos_and_next_pos_func separator) as [np p0] eqn:Hpolicy.
  simpl fst in *. simpl snd in *.
  assert (Hlt : (size <? 1)%Z = false) by now apply Z.ltb_ge.
  rewrite Hlt, consume_turn.
  change (match parse_int with Some f => type_ (f (lit "0")) | None => int_ end,
          match parse_float with Some f => type_ (f (lit "0")) | None => float_ end)
    with (hook_number_types parse_int parse_float).
  now rewrite Hstart, Hloop.
Qed.

(** An object cut off after its first key, read two characters at a
    time from a stream offset of 100. *)
Lemma load_reports_a_truncated_document_witness :
  raw_decode default_decoder truncated_document 0
  = Raise (DecodeError (new_JSONDecodeError (lit "Expecting ':' delimiter")
                                            truncated_document 4))
  /\ exists ex' : JSONDecodeError,
      list_load 5 truncated_document default_decoder None None None 2 None 100
      = ([], Raised (DecodeError ex'))
      /\ with_stream_offset
           (new_JSONDecodeError (lit "Expecting ':' delimiter") truncated_document 4)
           ex' 100.
Proof.
  assert (Hpartial : forall n, 0 < n < length truncated_document ->
             wants_more default_decoder None None (firstn n truncated_document) = true).
  { intros n Hn.
    do 4 (destruct n as [|n]; [try lia; vm_compute; reflexivity|]).
    vm_compute in Hn. lia. }
  assert (Hwhole : raw_decode default_decoder truncated_document 0
                   = Raise (DecodeError (new_JSONDecodeError (lit "Expecting ':' delimiter")
                                                             truncated_document 4)))
    by reflexivity.
  assert (Hsize : (1 <= 2)%Z) by lia.
  assert (Hfuel : length truncated_document < 5) by (vm_compute; lia).
  assert (Hbound : forall m : Z, @None Z = Some m ->
            (Z.of_nat (length truncated_document) <= m)%Z
            /\ (_match_error (new_JSONDecodeError (lit "Expecting ':' delimiter")
                                                  truncated_document 4) = true ->
                (Z.of_nat (length truncated_document) < m)%Z)) by discriminate.
  split; [exact Hwhole|].
  exact (@load_reports_a_truncated_document CPython_ucd pyvalue CPython_objects
           truncated_document default_decoder None None None 2 None 100 5
           (ch "{") (skipn 1 truncated_document) _
           Hsize eq_refl (fun _ => eq_refl) Hpartial Hwhole Hbound Hfuel).
Defined.

(** ** The stream offset is only reported *)

Section PoliciesRaise.
Context `{UnicodeDB}.

(** Both policies of the module raise no decoding error. *)
Lemma policies_raise_no_decode_error (separator : option str) :
  raises_no_decode_error (fst (get_first_pos_and_next_pos_func separator)).
Proof.
  intros document p ex. destruct separator as [sep|]; simpl.
  - unfold next_position_by_separator.
    destruct (startswith document sep p); [discriminate|].
    destruct (p =? length document); discriminate.
  - unfold next_position_by_non_whitespace. discriminate.
Qed.

End PoliciesRaise.

Section OffsetIndependence.
Context `{UnicodeDB} {value : Type} `{PyObject value} {file : Type} `{TextIO file}.
Variable d : Z.

Lemma try_read_moved (self : DecodeStream) (remaining_buffer : str) :
  _try_read (moved_by d self) remaining_buffer
  = match _try_read self remaining_buffer with
    | Return (new_data, self') => Return (new_data, moved_by d self')
    | Raise e => Raise e
    | NoFuel => NoFuel
    end.
Proof.
  unfold _try_read.
  change (to_read (moved_by d self) remaining_buffer) with (to_read self remaining_buffer).
  destruct (to_read self remaining_buffer) as [n| |]; try reflexivity.
  change (stream (moved_by d self)) with (stream self).
  destruct (read (stream self) n) as [new stream']. unfold moved_by. simpl.
  replace (stream_offset self + d
           + (Z.of_nat (length (partial_doc self)) - Z.of_nat (length remaining_buffer)))%Z
    with (stream_offset self
          + (Z.of_nat (length (partial_doc self)) - Z.of_nat (length remaining_buffer))
          + d)%Z by lia.
  reflexivity.
Qed.

Lemma next_pos_step (fuel : nat) (self : DecodeStream) :
  next_pos (S fuel) self
  = match next_pos_helper self (partial_doc self) (cursor self) with
    | Return None =>
        match _try_read self [] with
        | Return (true, self') => next_pos fuel self'
        | Return (false, self') => Return (false, self')
        | Raise e => Raise e
        | NoFuel => NoFuel
        end
    | Return (Some new_pos) => Return (true, set_pos self new_pos)
    | Raise e => Raise e
    | NoFuel => NoFuel
    end.
Proof. reflexivity. Qed.

Lemma next_pos_moved (fuel : nat) :
  forall self : DecodeStream,
    next_pos fuel (moved_by d self)
    = match next_pos fuel self with
      | Return (found, self') => Return (found, moved_by d self')
      | Raise e => Raise e
      | NoFuel => NoFuel
      end.
Proof.
  induction fuel as [|fuel IH]; intros self; [reflexivity|].
  rewrite !next_pos_step, try_read_moved.
  change (next_pos_helper (moved_by d self) (partial_doc (moved_by d self))
                          (cursor (moved_by d self)))
    with (next_pos_helper self (partial_doc self) (cursor self)).
  destruct (next_pos_helper self (partial_doc self) (cursor self)) as [[p|]| |];
    try reflexivity.
  destruct (_try_read self []) as [[[|] s1]| |]; try reflexivity. apply IH.
Qed.

(** The search for the next document raises no decoding error. *)
Lemma next_pos_raises_no_decode_error (fuel : nat) (self : DecodeStream) (e : exn) :
  raises_no_decode_error (next_pos_helper self) ->
  next_pos fuel self = Raise e ->
  forall ex, e <> DecodeError ex.
Proof.
  intros Hquiet Hn ex ->.
  destruct (next_pos_raises _ _ Hn) as [He | (doc & p & Hh)]; [discriminate|].
  exact (Hquiet _ _ _ Hh).
Qed.

(** An exception that is no decoding error is the same from both stream
    offsets. *)
Lemma other_error_moved (e : exn) :
  (forall ex, e <> DecodeError ex) -> same_error_moved_by d e e.
Proof. destruct e as [ex| | | |]; intros Hno; [now elim (Hno ex) | reflexivity..]. Qed.

(** A decoding error passed through [_update_error] in both sessions. *)
Lemma updated_error_moved (self : @DecodeStream value _ file) (ex : JSONDecodeError) :
  same_error_moved_by d (DecodeError (_update_error self ex))
                        (DecodeError (_update_error (moved_by d self) ex)).
Proof.
  exists ex, (_update_error (moved_by d self) ex), (stream_offset self).
  split; [reflexivity|]. split; apply update_error_adds_the_offset.
Qed.

Lemma decode_loop_moved (fuel : nat) :
  forall self : DecodeStream,
    step_moved_by d (decode_loop fuel self) (decode_loop fuel (moved_by d self)).
Proof.
  induction fuel as [|fuel IH]; intros self; [exact I|].
  rewrite !decode_loop_turn, try_read_moved.
  change (raw_decode (decoder (moved_by d self)) (partial_doc (moved_by d self))
                     (cursor (moved_by d self)))
    with (raw_decode (decoder self) (partial_doc self) (cursor self)).
  change (is_number (moved_by d self)) with (is_number self).
  change (partial_doc (moved_by d self)) with (partial_doc self).
  change (cursor (moved_by d self)) with (cursor self).
  destruct (raw_decode (decoder self) (partial_doc self) (cursor self))
    as [[obj new_pos]| e |].
  - destruct (_ && _).
    + destruct (_try_read self (skipn (cursor self) (partial_doc self)))
        as [[[|] s1]|e|] eqn:Hr; simpl.
      * apply IH.
      * repeat split.
      * now rewrite (try_read_raises _ _ Hr).
      * exact I.
    + simpl. repeat split.
  - destruct e as [ex| | | |]; try (simpl; reflexivity).
    destruct (_match_error ex).
    + destruct (_try_read self (skipn (cursor self) (partial_doc self)))
        as [[[|] s1]|e|] eqn:Hr.
      * apply IH.
      * apply updated_error_moved.
      * simpl. now rewrite (try_read_raises _ _ Hr).
      * exact I.
    + apply updated_error_moved.
  - exact I.
Qed.

Lemma generator_moved (fuel : nat) (pc : stream_pc) (self : DecodeStream) :
  raises_no_decode_error (next_pos_helper self) ->
  step_moved_by d (_decode_stream_generator fuel (pc, self))
                (_decode_stream_generator fuel (pc, moved_by d self)).
Proof.
  intros Hquiet.
  assert (Henter :
    forall r : res (bool * DecodeStream),
      (forall e, r = Raise e -> forall ex, e <> DecodeError ex) ->
      step_moved_by d
        (enter_loop fuel r)
        (enter_loop fuel match r with
                         | Return (found, self') => Return (found, moved_by d self')
                         | Raise e => Raise e
                         | NoFuel => NoFuel
                         end)).
  { intros [[[|] s1]|e|] Hr; simpl; try exact I; [apply decode_loop_moved|].
    apply other_error_moved. now apply Hr. }
  unfold _decode_stream_generator.
  destruct pc; [| |exact I].
  - change (pos (moved_by d self)) with (pos self).
    destruct (pos self).
    + change (partial_doc (moved_by d self)) with (partial_doc self).
      rewrite try_read_moved. apply Henter.
      intros e Hr ex. now rewrite (try_read_raises _ _ Hr).
    + change (set_pos (moved_by d self) 0) with (moved_by d (set_pos self 0)).
      rewrite next_pos_moved. apply Henter.
      intros e Hr. now apply (@next_pos_raises_no_decode_error fuel (set_pos self 0)).
  - rewrite next_pos_moved. apply Henter.
    intros e Hr. now apply (next_pos_raises_no_decode_error _ _ Hquiet Hr).
Qed.

Lemma generator_keeps_the_policy (fuel : nat) (pc pc' : stream_pc)
  (self self' : DecodeStream) (obj : value) :
  _decode_stream_generator fuel (pc, self) = Yield obj (pc', self') ->
  next_pos_helper self' = next_pos_helper self.
Proof.
  assert (Henter :
    forall (r : res (bool * DecodeStream)) (np : next_pos_func),
      (forall found s1, r = Return (found, s1) -> next_pos_helper s1 = np) ->
      enter_loop fuel r = Yield obj (pc', self') ->
      next_pos_helper self' = np).
  { intros [[[|] s1]|e|] np Hr; simpl; try discriminate.
    intros Hloop. destruct (decode_loop_fields _ _ Hloop) as (_ & -> & _). now apply (Hr true). }
  unfold _decode_stream_generator.
  destruct pc; [| |discriminate].
  - destruct (pos self).
    + apply Henter. intros found s1 Hr.
      now destruct (try_read_returns _ _ Hr)
        as (_ & _ & _ & _ & _ & _ & _ & _ & _ & _ & Hh & _).
    + apply Henter. intros found s1 Hr.
      now destruct (next_pos_fields _ _ Hr) as [-> _].
  - apply Henter. intros found s1 Hr.
    now destruct (next_pos_fields _ _ Hr) as [-> _].
Qed.

Lemma session_moved (fuel rounds : nat) :
  forall (pc : stream_pc) (self : DecodeStream),
    raises_no_decode_error (next_pos_helper self) ->
    fst (consume (_decode_stream_generator fuel) rounds (pc, moved_by d self))
    = fst (consume (_decode_stream_generator fuel) rounds (pc, self))
    /\ same_ending_moved_by d
         (snd (consume (_decode_stream_generator fuel) rounds (pc, self)))
         (snd (consume (_decode_stream_generator fuel) rounds (pc, moved_by d self))).
Proof.
  induction rounds as [|rounds IH]; intros pc self Hquiet; [now split|].
  rewrite !consume_turn.
  pose proof (@generator_moved fuel pc self Hquiet) as Hstep.
  pose proof (fun pc' s' o => @generator_keeps_the_policy fuel pc pc' self s' o) as Hkeep.
  destruct (_decode_stream_generator fuel (pc, self)) as [obj [pc0 s0]| |e|];
    destruct (_decode_stream_generator fuel (pc, moved_by d self))
      as [obj' [pc1 s1]| |e'|]; simpl in Hstep; try contradiction; try (now split).
  destruct Hstep as (-> & -> & ->).
  specialize (Hkeep pc0 s0 obj eq_refl).
  destruct (IH pc0 s0) as [Hvalues Hend]; [now rewrite Hkeep|].
  destruct (consume (_decode_stream_generator fuel) rounds (pc0, s0)) as [objs0 end0].
  destruct (consume (_decode_stream_generator fuel) rounds (pc0, moved_by d s0))
    as [objs1 end1].
  simpl in *. split; [now rewrite Hvalues | exact Hend].
Qed.

(** X16.  The stream offset passed to [load] is only reported: with
    another stream offset [load] yields the same values and ends the same
    way, whatever the source, the decoder, the policy and the sizes.  An
    iteration that ends with a decoding error ends with one from the
    other stream offset too: both are the same error of the decoder passed
    through [_update_error], and the stream offset in the attribute and
    in the message of the second is the one of the first moved by the
    difference of the two offsets.  Any other exception is the same. *)
Theorem stream_offset_is_only_reported (fuel : nat) (fp : file)
  (decoder : JSONDecoder value) (parse_int parse_float : option (str -> value))
  (separator : option str) (size : Z) (bound : option Z) (offset : Z) :
  fst (list_load fuel fp decoder parse_int parse_float separator size bound (offset + d))
  = fst (list_load fuel fp decoder parse_int parse_float separator size bound offset)
  /\ same_ending_moved_by d
       (snd (list_load fuel fp decoder parse_int parse_float separator size bound offset))
       (snd (list_load fuel fp decoder parse_int parse_float separator size bound
                       (offset + d))).
Proof.
  pose proof (policies_raise_no_decode_error separator) as Hquiet.
  unfold list_load, load, __init__.
  destruct (get_first_pos_and_next_pos_func separator) as [np p0].
  destruct (size <? 1)%Z; [split; reflexivity|].
  match goal with
  | |- context [consume _ _ (pc_start, ?st)] =>
      match st with
      | context [(offset + d)%Z] => fail 1
      | _ => exact (session_moved fuel fuel pc_start st Hquiet)
      end
  end.
Qed.

End OffsetIndependence.

(** ** A text of several documents, at every read size *)

Section SearchThroughTheBuffer.
Context `{UnicodeDB}.

Lemma search_not_whitespace_shift (s : str) (i k : nat) :
  search_not_whitespace s (i + k)
  = match search_not_whitespace s i with Some p => Some (p + k) | None => None end.
Proof.
  revert i; induction s as [|c s IH]; intros i; simpl; [reflexivity|].
  destruct (isspace c); [|reflexivity]. apply (IH (S i)).
Qed.

Lemma search_not_whitespace_app (s t : str) (i : nat) :
  search_not_whitespace (s ++ t) i
  = match search_not_whitespace s i with
    | Some p => Some p
    | None => search_not_whitespace t (i + length s)
    end.
Proof.
  revert i; induction s as [|c s IH]; intros i; simpl.
  - now rewrite Nat.add_0_r.
  - destruct (isspace c); [|reflexivity]. rewrite IH.
    now replace (S i + length s) with (i + S (length s)) by lia.
Qed.

(** The search in the text from the position the cursor stands for, in
    terms of the search in the buffer from the cursor. *)
Lemma search_in_the_window (text dropped buffer rest : str) (cursor : nat) :
  text = dropped ++ buffer ++ rest ->
  cursor <= length buffer ->
  next_position_by_non_whitespace text (length dropped + cursor)
  = match next_position_by_non_whitespace buffer cursor with
    | Some q => Some (length dropped + q)
    | None => next_position_by_non_whitespace text (length dropped + length buffer)
    end.
Proof.
  intros -> Hc. unfold next_position_by_non_whitespace.
  assert (Hskip : forall k, k <= length buffer ->
            skipn (length dropped + k) (dropped ++ buffer ++ rest)
            = skipn k buffer ++ rest).
  { intros k Hk. rewrite Nat.add_comm, <- skipn_skipn, skipn_app, skipn_all, Nat.sub_diag.
    simpl. rewrite skipn_app. replace (k - length buffer) with 0 by lia. reflexivity. }
  rewrite !Hskip by lia. rewrite skipn_all. simpl app.
  rewrite search_not_whitespace_app, (Nat.add_comm (length dropped) cursor).
  rewrite search_not_whitespace_shift.
  destruct (search_not_whitespace (skipn cursor buffer) cursor) as [q|].
  - f_equal. lia.
  - f_equal. rewrite length_skipn. lia.
Qed.

End SearchThroughTheBuffer.

Section Documents.
Context `{UnicodeDB} {value : Type} `{PyObject value}.
Variables (text : str) (dec : JSONDecoder value).
Variables (parse_int parse_float : option (str -> value)).
Variables (separator : option str) (size : Z).
Hypothesis Hsize : (1 <= size)%Z.

Local Abbreviation ready := (configured separator dec parse_int parse_float size).

Lemma refill_keeps_ready (self self' : @DecodeStream value _ str)
  (remaining_buffer : str) (new_data : bool) :
  ready self ->
  _try_read self remaining_buffer = Return (new_data, self') ->
  ready self'.
Proof.
  intros (Hh & Hd & Hb & Hm & Ht) Hr.
  destruct (try_read_returns _ _ Hr)
    as (_ & _ & _ & _ & _ & _ & _ & _ & Hb' & Hm' & Hh' & Hd' & Ht').
  repeat split; congruence.
Qed.

(** A refill never raises without a bound on the buffer. *)
Lemma refill_when_ready (self : @DecodeStream value _ str) (remaining_buffer : str) :
  ready self ->
  exists (new_data : bool) (self' : @DecodeStream value _ str),
    _try_read self remaining_buffer = Return (new_data, self').
Proof.
  intros (_ & _ & _ & Hm & _). unfold _try_read, to_read. rewrite Hm.
  destruct (read (stream self) (bufsize self)) as [new stream']. eauto.
Qed.

(** The search for the next document, from the index [g] of the text. *)
Lemma next_pos_finds_the_document (Hsep : separator = None) (n : nat) :
  forall (self : @DecodeStream value _ str) (fuel g : nat),
    length (stream self) <= n -> n < fuel ->
    ready self -> stands_at text g self ->
    match next_position_by_non_whitespace text g with
    | Some s =>
        exists self' : @DecodeStream value _ str,
          next_pos fuel self = Return (true, self')
          /\ ready self' /\ stands_at text s self'
          /\ cursor self' < length (partial_doc self')
          /\ length (stream self') <= length (stream self)
    | None =>
        exists self' : @DecodeStream value _ str, next_pos fuel self = Return (false, self')
    end.
Proof.
  induction n as [|n IH]; intros self fuel g Hn Hfuel Hready (dropped & Htext & Hg & Hcur);
    (destruct fuel as [|fuel]; [lia|]);
    rewrite next_pos_turn;
    pose proof Hready as (Hh & Hd & Hb & Hm & Ht);
    rewrite Hsep in Hh;
    rewrite Hh; cbn [get_first_pos_and_next_pos_func fst];
    rewrite <- Hg, (@search_in_the_window _ text dropped (partial_doc self) (stream self)
                     (cursor self) Htext Hcur);
    pose proof (search_not_whitespace_split (skipn (cursor self) (partial_doc self))
                  (cursor self)) as Hsplit;
    change (search_not_whitespace (skipn (cursor self) (partial_doc self)) (cursor self))
      with (next_position_by_non_whitespace (partial_doc self) (cursor self)) in Hsplit;
    (destruct (next_position_by_non_whitespace (partial_doc self) (cursor self)) as [q|]).
  1, 3: destruct Hsplit as (skipped & c & tail & Hrem & _ & _ & ->);
    exists (set_pos self (cursor self + length skipped));
    split; [reflexivity|]; split; [exact Hready|];
    apply (f_equal (@length N)) in Hrem;
    rewrite length_skipn, length_app in Hrem; simpl in Hrem;
    change (cursor (set_pos self ?p)) with p;
    simpl partial_doc; simpl stream;
    split; [exists dropped; change (cursor (set_pos self ?p)) with p;
            simpl partial_doc; simpl stream; split; [exact Htext | lia]|];
    split; lia.
  all: destruct (refill_when_ready [] Hready) as (new_data & s1 & Hr);
    rewrite Hr;
    pose proof (refill_keeps_ready _ Hready Hr) as Hready1;
    assert (Hbuf : (1 <= bufsize self)%Z) by (rewrite Hb; exact Hsize);
    destruct (try_read_consumes _ _ Hbuf Hr)
      as (r & Hr0 & Hdoc & Hs & Hne & Hnil & Hpos & _);
    simpl in Hdoc;
    assert (Hstand : stands_at text (length dropped + length (partial_doc self)) s1)
      by (exists (dropped ++ partial_doc self);
          rewrite Hdoc, Hs, <- app_assoc, firstn_skipn, length_app;
          unfold cursor; rewrite Hpos; repeat split; [exact Htext | lia | lia]);
    destruct new_data.
  - specialize (Hne eq_refl). destruct (stream self); [congruence | simpl in Hn; lia].
  - specialize (Hnil eq_refl).
    assert (Hend : next_position_by_non_whitespace
                     text (length dropped + length (partial_doc self)) = None).
    { unfold next_position_by_non_whitespace.
      rewrite Htext, Hnil, app_nil_r, Nat.add_comm, <- skipn_skipn, skipn_app, skipn_all,
        Nat.sub_diag. simpl. now rewrite skipn_all. }
    rewrite Hend. now exists s1.
  - specialize (Hne eq_refl).
    assert (Hshort : length (stream s1) <= n).
    { rewrite Hs, length_skipn.
      assert (0 < length (stream self))
        by (destruct (stream self); [congruence | simpl; lia]).
      lia. }
    specialize (IH s1 fuel _ Hshort ltac:(lia) Hready1 Hstand).
    destruct (next_position_by_non_whitespace text (length dropped + length (partial_doc self)))
      as [s|]; [|exact IH].
    destruct IH as (self' & Hnext & Hready' & Hstand' & Hcur' & Hlen').
    exists self'. split; [exact Hnext|]. split; [exact Hready'|].
    split; [exact Hstand'|]. split; [exact Hcur'|].
    rewrite Hs, length_skipn in Hlen'. lia.
  - specialize (Hnil eq_refl).
    assert (Hend : next_position_by_non_whitespace
                     text (length dropped + length (partial_doc self)) = None).
    { unfold next_position_by_non_whitespace.
      rewrite Htext, Hnil, app_nil_r, Nat.add_comm, <- skipn_skipn, skipn_app, skipn_all,
        Nat.sub_diag. simpl. now rewrite skipn_all. }
    rewrite Hend. now exists s1.
Qed.

(** What the buffer holds, as a part of the text. *)
Lemma buffer_is_a_slice (self : @DecodeStream value _ str) (dropped : str) :
  text = dropped ++ partial_doc self ++ stream self ->
  partial_doc self
  = slice text (length dropped) (length dropped + length (partial_doc self)).
Proof.
  intros ->. unfold slice.
  rewrite skipn_app, skipn_all, Nat.sub_diag. simpl.
  replace (length dropped + length (partial_doc self) - length dropped)
    with (length (partial_doc self) + 0) by lia.
  now rewrite firstn_app_2, firstn_O, app_nil_r.
Qed.

(** The loop on a document that starts at the cursor: it refills until
    the buffer holds the document, and yields its value. *)
Lemma decode_loop_yields_the_document (s e : nat) (v : value)
  (Hdoc : decodes_in_every_buffer dec parse_int parse_float text (s, e, v))
  (He : s < e <= length text) (n : nat) :
  forall (self : @DecodeStream value _ str) (fuel : nat),
    length (stream self) <= n -> n < fuel ->
    ready self -> stands_at text s self ->
    cursor self < length (partial_doc self) ->
    exists self' : @DecodeStream value _ str,
      decode_loop fuel self = Yield v (pc_yielded, self')
      /\ ready self' /\ stands_at text e self'
      /\ length (stream self') <= length (stream self).
Proof.
  destruct Hdoc as (Hnum & Hwhole & Hpart).
  induction n as [|n IH]; intros self fuel Hn Hfuel Hready (dropped & Htext & Hg & _) Hcur;
    (destruct fuel as [|fuel]; [lia|]);
    rewrite decode_loop_turn;
    pose proof Hready as (Hh & Hd & Hb & Hm & Ht);
    pose proof (buffer_is_a_slice _ _ Htext) as Hslice;
    assert (Hlen : length text
                   = length dropped + length (partial_doc self) + length (stream self))
      by (rewrite Htext at 1; rewrite !length_app; lia);
    assert (Hp : cursor self = s - length dropped) by lia;
    rewrite Hd;
    (destruct (Nat.le_gt_cases e (length dropped + length (partial_doc self)))
       as [Hin|Hout]).
  1, 3: assert (Hraw : raw_decode dec (partial_doc self) (cursor self)
                        = Return (v, e - length dropped))
      by (rewrite Hp, Hslice; apply Hwhole; lia);
    rewrite Hraw;
    unfold is_number; rewrite Ht;
    change (isinstance v (fst (hook_number_types parse_int parse_float))
            || isinstance v (snd (hook_number_types parse_int parse_float)))
      with (counts_as_number parse_int parse_float v);
    rewrite Hnum, andb_false_r;
    exists (set_pos self (e - length dropped));
    split; [reflexivity|]; split; [exact Hready|];
    split; [|simpl; lia];
    exists dropped; change (cursor (set_pos self ?p)) with p;
    simpl partial_doc; simpl stream; split; [exact Htext | lia].
  all: assert (Hfail : fails_for_now dec (partial_doc self) (cursor self) = true)
      by (rewrite Hslice, Hp; apply Hpart; lia);
    unfold fails_for_now in Hfail;
    destruct (raw_decode dec (partial_doc self) (cursor self)) as [|[ex| | | |]|];
    try discriminate; rewrite Hfail;
    destruct (refill_when_ready (skipn (cursor self) (partial_doc self)) Hready)
      as (new_data & s1 & Hr);
    rewrite Hr;
    pose proof (refill_keeps_ready _ Hready Hr) as Hready1;
    assert (Hbuf : (1 <= bufsize self)%Z) by (rewrite Hb; exact Hsize);
    destruct (try_read_consumes _ _ Hbuf Hr)
      as (r & Hr0 & Hdoc1 & Hs & Hne & Hnil & Hpos & _);
    (destruct new_data;
     [|specialize (Hnil eq_refl); rewrite Hnil in Hlen; simpl in Hlen; lia]);
    specialize (Hne eq_refl);
    assert (Hsome : 0 < length (stream self))
      by (destruct (stream self); [congruence | simpl; lia]);
    try lia.
  assert (Hstand : stands_at text s s1).
  { exists (dropped ++ firstn (cursor self) (partial_doc self)).
    assert (Hc1 : cursor s1 = 0) by (unfold cursor; now rewrite Hpos).
    rewrite Hc1, Hdoc1, Hs, length_app, length_firstn.
    split; [|split; lia].
    rewrite Htext at 1. rewrite <- !app_assoc. f_equal.
    rewrite <- (firstn_skipn (cursor self) (partial_doc self)) at 1.
    rewrite <- !app_assoc. do 2 f_equal. symmetry. apply firstn_skipn. }
  assert (Hcur1 : cursor s1 < length (partial_doc s1)).
  { unfold cursor. rewrite Hpos, Hdoc1, length_app, length_firstn. lia. }
  assert (Hshort : length (stream s1) <= n) by (rewrite Hs, length_skipn; lia).
  destruct (IH s1 fuel Hshort ltac:(lia) Hready1 Hstand Hcur1)
    as (self' & Hloop & Hready' & Hstand' & Hlen').
  exists self'. split; [exact Hloop|]. split; [exact Hready'|]. split; [exact Hstand'|].
  rewrite Hs, length_skipn in Hlen'. lia.
Qed.

(** The documents one after the other. *)
Lemma session_yields_the_documents (Hsep : separator = None)
  (docs : list (nat * nat * value)) :
  forall (g : nat) (self : @DecodeStream value _ str) (fuel rounds : nat),
    laid_out text g docs ->
    Forall (decodes_in_every_buffer dec parse_int parse_float text) docs ->
    ready self -> stands_at text g self ->
    length (stream self) < fuel -> length docs < rounds ->
    consume (_decode_stream_generator fuel) rounds (pc_yielded, self)
    = (map snd docs, Exhausted).
Proof.
  induction docs as [|[[s e] v] docs IH];
    intros g self fuel rounds Hlaid Hdocs Hready Hstand Hfuel Hrounds;
    (destruct rounds as [|rounds]; [simpl in Hrounds; lia|]);
    rewrite consume_turn; cbn [_decode_stream_generator];
    pose proof (@next_pos_finds_the_document Hsep (length (stream self)) self fuel g
                  (le_n _) Hfuel Hready Hstand) as Hnext.
  - simpl in Hlaid. rewrite Hlaid in Hnext. destruct Hnext as (self' & ->). reflexivity.
  - destruct Hlaid as (Hs & He & Hrest). rewrite Hs in Hnext.
    destruct Hnext as (s1 & -> & Hready1 & Hstand1 & Hcur1 & Hlen1).
    cbn [enter_loop].
    apply Forall_cons_iff in Hdocs as [Hdoc Hdocs'].
    destruct (@decode_loop_yields_the_document s e v Hdoc He (length (stream s1)) s1 fuel
                (le_n _) ltac:(lia) Hready1 Hstand1 Hcur1)
      as (s2 & -> & Hready2 & Hstand2 & Hlen2).
    rewrite (IH e s2 fuel rounds Hrest Hdocs' Hready2 Hstand2) by (simpl in Hrounds; lia).
    reflexivity.
Qed.

(** The same documents from the text in memory. *)
Lemma stacked_yields_the_documents (docs : list (nat * nat * value)) :
  forall (g rounds : nat),
    laid_out text g docs ->
    Forall (decodes_in_every_buffer dec parse_int parse_float text) docs ->
    length docs < rounds ->
    consume (decode_stacked_next text dec (fst (get_first_pos_and_next_pos_func None)))
            rounds (stacked_yielded g)
    = (map snd docs, Exhausted).
Proof.
  induction docs as [|[[s e] v] docs IH]; intros g rounds Hlaid Hdocs Hrounds;
    (destruct rounds as [|rounds]; [simpl in Hrounds; lia|]);
    rewrite consume_turn; cbn [decode_stacked_next];
    change (fst (get_first_pos_and_next_pos_func None) text g)
      with (Return (next_position_by_non_whitespace text g)).
  - simpl in Hlaid. now rewrite Hlaid.
  - destruct Hlaid as (Hs & He & Hrest). rewrite Hs.
    apply Forall_cons_iff in Hdocs as [Hdoc Hdocs'].
    destruct Hdoc as (_ & Hwhole & _).
    specialize (Hwhole 0 (length text) (Nat.le_0_l s) (conj (proj2 He) (le_n _))).
    unfold slice in Hwhole. rewrite !Nat.sub_0_r in Hwhole.
    simpl skipn in Hwhole. rewrite firstn_all in Hwhole.
    unfold decode_stacked_turn. rewrite Hwhole.
    rewrite (IH e rounds Hrest Hdocs') by (simpl in Hrounds; lia). reflexivity.
Qed.

(** *** Under a separator of one character *)

(** What the text holds at the index the cursor stands for. *)
Lemma character_at_the_cursor (self : @DecodeStream value _ str) (dropped : str) (g : nat) :
  text = dropped ++ partial_doc self ++ stream self ->
  length dropped + cursor self = g ->
  cursor self <= length (partial_doc self) ->
  nth_error text g = nth_error (skipn (cursor self) (partial_doc self) ++ stream self) 0.
Proof.
  intros Htext <- Hcur. rewrite Htext at 1.
  rewrite nth_error_app2 by lia.
  replace (length dropped + cursor self - length dropped) with (cursor self + 0) by lia.
  rewrite <- nth_error_skipn, skipn_app.
  now replace (cursor self - length (partial_doc self)) with 0 by lia.
Qed.

(** The search passes a separator that stands at the cursor, in the
    buffer or at the head of the source. *)
Lemma next_pos_passes_the_separator (x : N) (Hsep : separator = Some [x])
  (self : @DecodeStream value _ str) (fuel e : nat) :
  ready self -> stands_at text e self ->
  nth_error text e = Some x ->
  2 <= fuel ->
  exists self' : @DecodeStream value _ str,
    next_pos fuel self = Return (true, self')
    /\ ready self' /\ stands_at text (S e) self'
    /\ length (stream self') <= length (stream self).
Proof.
  intros Hready (dropped & Htext & Hg & Hcur) Hx Hfuel.
  destruct fuel as [|[|fuel]]; try lia.
  pose proof Hready as (Hh & Hd & Hb & Hm & Ht). rewrite Hsep in Hh. simpl in Hh.
  rewrite (character_at_the_cursor _ _ Htext Hg Hcur) in Hx.
  rewrite next_pos_turn, Hh, one_character_separator_at by exact Hcur.
  destruct (skipn (cursor self) (partial_doc self)) as [|c r] eqn:Hrem.
  - destruct (refill_when_ready [] Hready) as (new_data & s1 & Hr). rewrite Hr.
    pose proof (refill_keeps_ready _ Hready Hr) as Hready1.
    assert (Hbuf : (1 <= bufsize self)%Z) by (rewrite Hb; exact Hsize).
    destruct (try_read_consumes _ _ Hbuf Hr)
      as (k & Hk0 & Hdoc & Hs & Hne & Hnil & Hpos & _ & _ & Hh1 & _).
    simpl in Hx, Hdoc.
    destruct new_data; [|rewrite (Hnil eq_refl) in Hx; discriminate].
    destruct (stream self) as [|c rest] eqn:Hstream; [discriminate|].
    simpl in Hx. injection Hx as ->.
    destruct k as [|k]; [lia|]. simpl in Hdoc.
    assert (Hc1 : cursor s1 = 0) by (unfold cursor; now rewrite Hpos).
    rewrite next_pos_turn, Hh1, Hh, one_character_separator_at by lia.
    rewrite Hc1, Hdoc. simpl skipn. cbv beta iota. rewrite N.eqb_refl.
    exists (set_pos s1 1). split; [reflexivity|]. split; [exact Hready1|].
    split.
    + exists (dropped ++ partial_doc self).
      change (cursor (set_pos s1 1)) with 1. simpl partial_doc. simpl stream.
      rewrite Hdoc, Hs. simpl skipn.
      apply (f_equal (@length N)) in Hrem. rewrite length_skipn in Hrem. simpl in Hrem.
      rewrite length_app. simpl length.
      split; [|split; lia].
      rewrite Htext at 1. rewrite <- app_assoc. do 2 f_equal. simpl.
      now rewrite firstn_skipn.
    + simpl stream. rewrite Hs. simpl. rewrite length_skipn. lia.
  - simpl in Hx. injection Hx as ->. rewrite N.eqb_refl.
    exists (set_pos self (cursor self + 1)). split; [reflexivity|].
    split; [exact Hready|].
    apply (f_equal (@length N)) in Hrem. rewrite length_skipn in Hrem. simpl in Hrem.
    split; [|simpl; lia].
    exists dropped. change (cursor (set_pos self ?p)) with p.
    simpl partial_doc. simpl stream. split; [exact Htext | split; lia].
Qed.

(** At the end of the text the search finds nothing. *)
Lemma next_pos_at_the_end (x : N) (Hsep : separator = Some [x])
  (self : @DecodeStream value _ str) (fuel : nat) :
  ready self -> stands_at text (length text) self ->
  1 <= fuel ->
  exists self' : @DecodeStream value _ str, next_pos fuel self = Return (false, self').
Proof.
  intros Hready (dropped & Htext & Hg & Hcur) Hfuel.
  destruct fuel as [|fuel]; try lia.
  pose proof Hready as (Hh & Hd & Hb & Hm & Ht). rewrite Hsep in Hh. simpl in Hh.
  assert (Hlen : length text
                 = length dropped + length (partial_doc self) + length (stream self))
    by (rewrite Htext at 1; rewrite !length_app; lia).
  assert (Hempty : stream self = [])
    by (destruct (stream self); [reflexivity | simpl in Hlen; lia]).
  rewrite next_pos_turn, Hh, one_character_separator_at by exact Hcur.
  rewrite skipn_all2 by (rewrite Hempty in Hlen; simpl in Hlen; lia).
  destruct (refill_when_ready [] Hready) as (new_data & s1 & Hr). rewrite Hr.
  assert (Hbuf : (1 <= bufsize self)%Z) by (rewrite Hb; exact Hsize).
  destruct (try_read_consumes _ _ Hbuf Hr) as (k & _ & _ & _ & Hne & _).
  destruct new_data; [now destruct (Hne eq_refl) | now exists s1].
Qed.

(** The loop on a document that starts at the cursor, also when the
    buffer ends there. *)
Lemma decode_loop_yields_the_next_document (s e : nat) (v : value)
  (Hdoc : decodes_in_every_buffer dec parse_int parse_float text (s, e, v))
  (Hrest : fails_on_an_empty_rest dec text (s, e, v))
  (He : s < e <= length text)
  (self : @DecodeStream value _ str) (fuel : nat) :
  length (stream self) + 1 < fuel ->
  ready self -> stands_at text s self ->
  exists self' : @DecodeStream value _ str,
    decode_loop fuel self = Yield v (pc_yielded, self')
    /\ ready self' /\ stands_at text e self'
    /\ length (stream self') <= length (stream self).
Proof.
  intros Hfuel Hready Hstand.
  pose proof Hstand as (dropped & Htext & Hg & Hcur).
  destruct (Nat.lt_ge_cases (cursor self) (length (partial_doc self))) as [Hlt|Hge].
  { apply (@decode_loop_yields_the_document s e v Hdoc He (length (stream self)));
      try assumption; lia. }
  assert (Hend : cursor self = length (partial_doc self)) by lia.
  destruct fuel as [|fuel]; [lia|].
  pose proof Hready as (Hh & Hd & Hb & Hm & Ht).
  assert (Hlen : length text
                 = length dropped + length (partial_doc self) + length (stream self))
    by (rewrite Htext at 1; rewrite !length_app; lia).
  assert (Hfail : fails_for_now dec (partial_doc self) (cursor self) = true).
  { rewrite (buffer_is_a_slice _ _ Htext).
    replace (length dropped + length (partial_doc self)) with s by lia.
    replace (cursor self) with (s - length dropped) by lia.
    apply Hrest. lia. }
  rewrite decode_loop_turn, Hd. unfold fails_for_now in Hfail.
  destruct (raw_decode dec (partial_doc self) (cursor self)) as [|[ex| | | |]|];
    try discriminate.
  rewrite Hfail.
  destruct (refill_when_ready (skipn (cursor self) (partial_doc self)) Hready)
    as (new_data & s1 & Hr).
  rewrite Hr.
  pose proof (refill_keeps_ready _ Hready Hr) as Hready1.
  assert (Hbuf : (1 <= bufsize self)%Z) by (rewrite Hb; exact Hsize).
  destruct (try_read_consumes _ _ Hbuf Hr)
    as (r & Hr0 & Hdoc1 & Hs & Hne & Hnil & Hpos & _).
  destruct new_data;
    [|specialize (Hnil eq_refl); rewrite Hnil in Hlen; simpl in Hlen; lia].
  specialize (Hne eq_refl).
  assert (Hsome : 0 < length (stream self))
    by (destruct (stream self); [congruence | simpl; lia]).
  assert (Hc1 : cursor s1 = 0) by (unfold cursor; now rewrite Hpos).
  rewrite skipn_all2 in Hdoc1 by lia. simpl in Hdoc1.
  assert (Hstand1 : stands_at text s s1).
  { exists (dropped ++ partial_doc self).
    rewrite Hc1, Hdoc1, Hs, length_app.
    split; [|split; lia].
    rewrite Htext at 1. rewrite <- app_assoc. do 2 f_equal. symmetry. apply firstn_skipn. }
  assert (Hcur1 : cursor s1 < length (partial_doc s1)).
  { rewrite Hc1, Hdoc1, length_firstn. lia. }
  destruct (@decode_loop_yields_the_document s e v Hdoc He (length (stream s1)) s1 fuel
              (le_n _)) as (self' & Hloop & Hready' & Hstand' & Hlen'); try assumption.
  { rewrite Hs, length_skipn. lia. }
  exists self'. split; [exact Hloop|]. split; [exact Hready'|]. split; [exact Hstand'|].
  rewrite Hs, length_skipn in Hlen'. lia.
Qed.

(** The documents one after the other, each after a separator. *)
Lemma session_yields_the_separated_documents (x : N) (Hsep : separator = Some [x])
  (docs : list (nat * nat * value)) :
  forall (e : nat) (self : @DecodeStream value _ str) (fuel rounds : nat),
    continues x text e docs ->
    Forall (decodes_in_every_buffer dec parse_int parse_float text) docs ->
    Forall (fails_on_an_empty_rest dec text) docs ->
    ready self -> stands_at text e self ->
    length (stream self) + 1 < fuel -> length docs < rounds ->
    consume (_decode_stream_generator fuel) rounds (pc_yielded, self)
    = (map snd docs, Exhausted).
Proof.
  induction docs as [|[[s e'] v] docs IH];
    intros e self fuel rounds Hlaid Hdocs Hrests Hready Hstand Hfuel Hrounds;
    (destruct rounds as [|rounds]; [simpl in Hrounds; lia|]);
    rewrite consume_turn; cbn [_decode_stream_generator].
  - simpl in Hlaid. rewrite Hlaid in Hstand.
    destruct (@next_pos_at_the_end x Hsep self fuel Hready Hstand) as (self' & ->); [lia|].
    reflexivity.
  - destruct Hlaid as (Hx & -> & He & Hrest).
    destruct (@next_pos_passes_the_separator x Hsep self fuel e Hready Hstand Hx)
      as (s1 & -> & Hready1 & Hstand1 & Hlen1); [lia|].
    cbn [enter_loop].
    apply Forall_cons_iff in Hdocs as [Hdoc Hdocs'].
    apply Forall_cons_iff in Hrests as [Hrest1 Hrests'].
    destruct (@decode_loop_yields_the_next_document (S e) e' v Hdoc Hrest1 He s1 fuel)
      as (s2 & -> & Hready2 & Hstand2 & Hlen2); try assumption; [lia|].
    rewrite (IH e' s2 fuel rounds Hrest Hdocs' Hrests' Hready2 Hstand2)
      by (simpl in Hrounds; lia).
    reflexivity.
Qed.

(** The same documents from the text in memory. *)
Lemma stacked_yields_the_separated_documents (x : N) (docs : list (nat * nat * value)) :
  forall (e rounds : nat),
    continues x text e docs ->
    Forall (decodes_in_every_buffer dec parse_int parse_float text) docs ->
    length docs < rounds ->
    consume (decode_stacked_next text dec (fst (get_first_pos_and_next_pos_func (Some [x]))))
            rounds (stacked_yielded e)
    = (map snd docs, Exhausted).
Proof.
  induction docs as [|[[s e'] v] docs IH]; intros e rounds Hlaid Hdocs Hrounds;
    (destruct rounds as [|rounds]; [simpl in Hrounds; lia|]);
    rewrite consume_turn; cbn [decode_stacked_next];
    change (fst (get_first_pos_and_next_pos_func (Some [x])) text e)
      with (next_position_by_separator [x] text e).
  - simpl in Hlaid. rewrite one_character_separator_at by lia.
    now rewrite skipn_all2 by lia.
  - destruct Hlaid as (Hx & -> & He & Hrest).
    assert (Hlt : e < length text) by (apply nth_error_Some; congruence).
    rewrite one_character_separator_at by lia.
    destruct (skipn_nth_error _ _ Hx) as [rest ->]. rewrite N.eqb_refl, Nat.add_1_r.
    apply Forall_cons_iff in Hdocs as [Hdoc Hdocs'].
    destruct Hdoc as (_ & Hwhole & _).
    specialize (Hwhole 0 (length text) (Nat.le_0_l _) (conj (proj2 He) (le_n _))).
    unfold slice in Hwhole. rewrite !Nat.sub_0_r in Hwhole.
    simpl skipn in Hwhole. rewrite firstn_all in Hwhole.
    unfold decode_stacked_turn. rewrite Hwhole.
    rewrite (IH e' rounds Hrest Hdocs') by (simpl in Hrounds; lia). reflexivity.
Qed.


End Documents.

(** X17.  A text of several documents is decoded alike at every read
    size.  Under the whitespace policy and with no bound on the buffer,
    let the documents of the text be laid out from its start, none of
    them a number at the top, and let the decoder read each as its value
    in every buffer that holds all of it and fail, with an error that
    [_match_error] accepts, in every buffer that holds its start but not
    its end.  Then [load] over a [StringIO] yields the values of the
    documents, in order, and returns, whatever the read size; and so
    does [loads] on the text, unless it starts with a byte order mark. *)
Theorem load_yields_the_documents `{UnicodeDB} {value : Type} `{PyObject value}
  (text : str) (decoder : JSONDecoder value)
  (parse_int parse_float : option (str -> value))
  (docs : list (nat * nat * value)) (size offset : Z) (fuel : nat) :
  (1 <= size)%Z ->
  laid_out text 0 docs ->
  Forall (decodes_in_every_buffer decoder parse_int parse_float text) docs ->
  length text + 1 < fuel ->
  list_load fuel text decoder parse_int parse_float None size None offset
  = (map snd docs, Exhausted)
  /\ (startswith text [BOM] 0 = false ->
      list_loads decoder fuel (a_str text) None = (map snd docs, Exhausted)).
Proof.
  intros Hsize Hlaid Hdocs Hfuel.
  assert (Hcount : forall (ds : list (nat * nat * value)) g,
             laid_out text g ds -> length ds <= length text - g).
  { induction ds as [|[[s e] v] ds IH]; intros g; simpl; [lia|].
    intros (Hs & He & Hrest). apply IH in Hrest.
    pose proof (search_not_whitespace_split (skipn g text) g) as Hsplit.
    unfold next_position_by_non_whitespace in Hs. rewrite Hs in Hsplit.
    destruct Hsplit as (skipped & c & tail & _ & _ & _ & ->). lia. }
  apply Hcount in Hlaid as Hn.
  destruct fuel as [|fuel]; [lia|].
  split; [|intros Hbom; unfold list_loads, loads; rewrite Hbom;
           cbn [get_first_pos_and_next_pos_func decode_stacked];
           transitivity (consume (decode_stacked_next text decoder
                                    (fst (get_first_pos_and_next_pos_func None)))
                                 (S fuel) (stacked_yielded 0));
           [|apply (@stacked_yields_the_documents _ _ _ text decoder parse_int parse_float);
             [exact Hlaid | exact Hdocs | lia]];
           rewrite !consume_turn; cbn [decode_stacked_next];
           destruct text as [|c t] eqn:Ht; [|reflexivity];
           destruct docs as [|[[s e] v] docs']; [reflexivity|];
           destruct Hlaid as (Hs & _); discriminate].
  unfold list_load, load, __init__. cbn [get_first_pos_and_next_pos_func].
  assert (Hlt : (size <? 1)%Z = false) by now apply Z.ltb_ge.
  rewrite Hlt.
  match goal with
  | |- consume ?next ?rounds (pc_start, ?st) = _ =>
      transitivity (consume next rounds (pc_yielded, set_pos st 0));
      [rewrite !consume_turn; reflexivity|]
  end.
  apply (@session_yields_the_documents _ _ _ text decoder parse_int parse_float None size
           Hsize eq_refl docs 0).
  - exact Hlaid.
  - exact Hdocs.
  - repeat split.
  - exists []. split; [reflexivity|]. split; [reflexivity|]. apply Nat.le_0_l.
  - cbn [set_pos stream]. lia.
  - lia.
Qed.


(** A list and an object in twelve characters, read five at a time. *)
Lemma load_yields_the_documents_witness :
  laid_out two_documents 0
    [(0, 3, PyList [PyInt 1]); (4, 12, PyDict [(lit "a", PyInt 2)])]
  /\ list_load 14 two_documents default_decoder None None None 5 None 0
     = ([PyList [PyInt 1]; PyDict [(lit "a", PyInt 2)]], Exhausted)
  /\ (startswith two_documents [BOM] 0 = false ->
      list_loads default_decoder 14 (a_str two_documents) None
      = ([PyList [PyInt 1]; PyDict [(lit "a", PyInt 2)]], Exhausted)).
Proof.
  assert (Hlaid : laid_out two_documents 0
            [(0, 3, PyList [PyInt 1]); (4, 12, PyDict [(lit "a", PyInt 2)])]).
  { simpl. repeat split; try reflexivity; vm_compute; lia. }
  assert (Hfirst : decodes_in_every_buffer default_decoder None None two_documents
                     (0, 3, PyList [PyInt 1])).
  { split; [reflexivity|]. split; intros a b Ha Hb;
      (destruct a as [|a]; [|lia]);
      do 13 (destruct b as [|b]; [try lia; vm_compute; reflexivity|]);
      vm_compute in Hb; lia. }
  assert (Hsecond : decodes_in_every_buffer default_decoder None None two_documents
                      (4, 12, PyDict [(lit "a", PyInt 2)])).
  { split; [reflexivity|]. split; intros a b Ha Hb;
      do 5 (destruct a as [|a];
            [do 13 (destruct b as [|b]; [try lia; vm_compute; reflexivity|]);
             vm_compute in Hb; lia|]);
      lia. }
  assert (Hsize : (1 <= 5)%Z) by lia.
  assert (Hfuel : length two_documents + 1 < 14) by (vm_compute; lia).
  split; [exact Hlaid|].
  exact (@load_yields_the_documents CPython_ucd pyvalue CPython_objects two_documents
           default_decoder None None
           [(0, 3, PyList [PyInt 1]); (4, 12, PyDict [(lit "a", PyInt 2)])] 5 0 14
           Hsize Hlaid (Forall_cons _ Hfirst (Forall_cons _ Hsecond (Forall_nil _))) Hfuel).
Defined.

(** X18.  With a separator of one character and no bound on the buffer, a
    text of documents, each right after the separator that follows the
    one before, is decoded alike at every read size.  The decoder reads
    each document as its value in every buffer that holds all of it, and
    fails, with an error that [_match_error] accepts, in every buffer
    that holds its start but not its end and in every buffer that ends
    where it starts; no value is a number at the top.  Then [load] over
    a [StringIO] yields the values of the documents, in order, and
    returns, whatever the read size; and so does [loads] on the text,
    unless it starts with a byte order mark. *)
Theorem load_yields_the_separated_documents `{UnicodeDB} {value : Type} `{PyObject value}
  (text : str) (decoder : JSONDecoder value)
  (parse_int parse_float : option (str -> value))
  (docs : list (nat * nat * value)) (x : N) (size offset : Z) (fuel : nat) :
  (1 <= size)%Z ->
  separated_by x text docs ->
  Forall (decodes_in_every_buffer decoder parse_int parse_float text) docs ->
  Forall (fails_on_an_empty_rest decoder text) docs ->
  length text + 2 < fuel ->
  list_load fuel text decoder parse_int parse_float (Some [x]) size None offset
  = (map snd docs, Exhausted)
  /\ (startswith text [BOM] 0 = false ->
      list_loads decoder fuel (a_str text) (Some [x]) = (map snd docs, Exhausted)).
Proof.
  intros Hsize Hlaid Hdocs Hrests Hfuel.
  assert (Hcount : forall (ds : list (nat * nat * value)) e,
             continues x text e ds -> length ds <= length text - e).
  { induction ds as [|[[s e'] v] ds IH]; intros e; simpl; [lia|].
    intros (_ & -> & He & Hrest). apply IH in Hrest. lia. }
  destruct fuel as [|fuel]; [lia|].
  assert (Hlt : (size <? 1)%Z = false) by now apply Z.ltb_ge.
  split.
  - unfold list_load, load, __init__. cbn [get_first_pos_and_next_pos_func].
    rewrite Hlt, consume_turn. cbn [_decode_stream_generator pos partial_doc].
    match goal with
    | |- context [_try_read ?st []] => set (init := st)
    end.
    assert (Hready : configured (Some [x]) decoder parse_int parse_float size init)
      by (repeat split).
    destruct docs as [|[[s e] v] docs].
    + simpl in Hlaid. unfold _try_read, to_read. simpl. rewrite Hlaid.
      destruct (size <? 0)%Z; rewrite ?firstn_nil; reflexivity.
    + destruct Hlaid as (-> & He & Hrest).
      destruct (@refill_when_ready _ _ _ decoder parse_int parse_float (Some [x]) size
                  init [] Hready) as (new_data & s1 & Hr).
      rewrite Hr.
      pose proof (@refill_keeps_ready _ _ _ decoder parse_int parse_float (Some [x]) size
                    init s1 [] new_data Hready Hr) as Hready1.
      assert (Hbuf : (1 <= bufsize init)%Z) by exact Hsize.
      destruct (try_read_consumes _ _ Hbuf Hr)
        as (r & Hr0 & Hdoc1 & Hs & Hne & Hnil & Hpos & _).
      simpl in Hdoc1, Hs, Hne, Hnil.
      destruct new_data; [|rewrite (Hnil eq_refl) in He; simpl in He; lia].
      assert (Hstand1 : stands_at text 0 s1).
      { exists []. unfold cursor. rewrite Hpos, Hdoc1, Hs. simpl.
        split; [now rewrite firstn_skipn | split; lia]. }
      cbn [enter_loop].
      apply Forall_cons_iff in Hdocs as [Hdoc Hdocs'].
      apply Forall_cons_iff in Hrests as [Hrest1 Hrests'].
      destruct (@decode_loop_yields_the_next_document _ _ _ text decoder parse_int
                  parse_float (Some [x]) size Hsize 0 e v Hdoc Hrest1 He s1 (S fuel))
        as (s2 & -> & Hready2 & Hstand2 & Hlen2); try assumption.
      { rewrite Hs, length_skipn. lia. }
      apply Hcount in Hrest as Hn.
      rewrite (@session_yields_the_separated_documents _ _ _ text decoder parse_int
                 parse_float (Some [x]) size Hsize x eq_refl docs e s2 (S fuel) fuel
                 Hrest Hdocs' Hrests' Hready2 Hstand2).
      * reflexivity.
      * rewrite Hs, length_skipn in Hlen2. lia.
      * lia.
  - intros Hbom. unfold list_loads, loads. rewrite Hbom.
    cbn [get_first_pos_and_next_pos_func decode_stacked].
    rewrite consume_turn.
    destruct docs as [|[[s e] v] docs].
    + simpl in Hlaid. now rewrite Hlaid.
    + destruct Hlaid as (-> & He & Hrest). unfold decode_stacked.
      match goal with
      | |- context [decode_stacked_next ?d ?dc ?np (stacked_start (Some 0))] =>
          replace (decode_stacked_next d dc np (stacked_start (Some 0)))
            with (decode_stacked_turn d dc 0)
            by (destruct text; [simpl in He; lia | reflexivity])
      end.
      apply Forall_cons_iff in Hdocs as [Hdoc Hdocs'].
      destruct Hdoc as (_ & Hwhole & _).
      specialize (Hwhole 0 (length text) (le_n _) (conj (proj2 He) (le_n _))).
      unfold slice in Hwhole. rewrite !Nat.sub_0_r in Hwhole.
      simpl skipn in Hwhole. rewrite firstn_all in Hwhole.
      unfold decode_stacked_turn. rewrite Hwhole.
      apply Hcount in Hrest as Hn.
      pose proof (@stacked_yields_the_separated_documents _ _ _ text decoder parse_int
                    parse_float x docs e fuel Hrest Hdocs') as Hs.
      cbn [get_first_pos_and_next_pos_func fst] in Hs.
      rewrite Hs by lia. reflexivity.
Qed.

(** Two lists on two lines, read three characters at a time. *)
Lemma load_yields_the_separated_documents_witness :
  separated_by 10 two_lines
    [(0, 3, PyList [PyInt 1]); (4, 10, PyList [PyInt 2; PyInt 3])]
  /\ list_load 13 two_lines default_decoder None None (Some [10%N]) 3 None 0
     = ([PyList [PyInt 1]; PyList [PyInt 2; PyInt 3]], Exhausted)
  /\ (startswith two_lines [BOM] 0 = false ->
      list_loads default_decoder 13 (a_str two_lines) (Some [10%N])
      = ([PyList [PyInt 1]; PyList [PyInt 2; PyInt 3]], Exhausted)).
Proof.
  assert (Hlaid : separated_by 10 two_lines
            [(0, 3, PyList [PyInt 1]); (4, 10, PyList [PyInt 2; PyInt 3])]).
  { simpl. repeat split; try reflexivity; vm_compute; lia. }
  assert (Hfirst : decodes_in_every_buffer default_decoder None None two_lines
                     (0, 3, PyList [PyInt 1])).
  { split; [reflexivity|]. split; intros a b Ha Hb;
      (destruct a as [|a]; [|lia]);
      do 11 (destruct b as [|b]; [try lia; vm_compute; reflexivity|]);
      vm_compute in Hb; lia. }
  assert (Hsecond : decodes_in_every_buffer default_decoder None None two_lines
                      (4, 10, PyList [PyInt 2; PyInt 3])).
  { split; [reflexivity|]. split; intros a b Ha Hb;
      do 5 (destruct a as [|a];
            [do 11 (destruct b as [|b]; [try lia; vm_compute; reflexivity|]);
             vm_compute in Hb; lia|]);
      lia. }
  assert (Hrest1 : fails_on_an_empty_rest default_decoder two_lines
                     (0, 3, PyList [PyInt 1])).
  { intros a Ha. destruct a as [|a]; [vm_compute; reflexivity | lia]. }
  assert (Hrest2 : fails_on_an_empty_rest default_decoder two_lines
                     (4, 10, PyList [PyInt 2; PyInt 3])).
  { intros a Ha. do 5 (destruct a as [|a]; [vm_compute; reflexivity|]). lia. }
  assert (Hsize : (1 <= 3)%Z) by lia.
  assert (Hfuel : length two_lines + 2 < 13) by (vm_compute; lia).
  split; [exact Hlaid|].
  exact (@load_yields_the_separated_documents CPython_ucd pyvalue CPython_objects two_lines
           default_decoder None None
           [(0, 3, PyList [PyInt 1]); (4, 10, PyList [PyInt 2; PyInt 3])] 10 3 0 13
           Hsize Hlaid
           (Forall_cons _ Hfirst (Forall_cons _ Hsecond (Forall_nil _)))
           (Forall_cons _ Hrest1 (Forall_cons _ Hrest2 (Forall_nil _))) Hfuel).
Defined.

(** ** An empty value between two separators, from the input to the error *)






